(** * GL_Commdlg: a shallow embedding of [GL_Commdlg.hpp]

    The header wraps the Win32 common dialogs (file open/save, multi-select,
    colour and font pickers) and implements two hand-built modal dialogs
    (text prompt, option message box).  This development embeds the
    functions of the header as Rocq functions and proves properties of them.

    Conventions.
    - [std::string] is a list of 8-bit values and [std::wstring] a list of
      UTF-16 code units, both as [list Z].
    - Code that can throw returns an [outcome]; the two exception classes the
      header throws are the constructors of [exception].
    - Calls into the operating system whose result depends on the user or on
      the machine (the dialogs, the content of the registry, the window
      manager, the messages that arrive) are arguments of the embedded
      function.  Calls whose result is a function of their arguments (the
      UTF-8/UTF-16 conversion in [Win32], [RegEnumValueW] on given values
      in [Registry], the colour macros in [Gdi], [GetDlgItemTextW]) are
      modelled after the platform documentation.
    - A dialog function that pumps messages returns the window-manager
      calls it made together with its result; the result is [None] when
      the events given run out while the message loop is still waiting. *)

From Stdlib Require Import String Ascii DecimalString.
From Stdlib Require Import ZArith List Bool Lia.
Import ListNotations.
Local Open Scope Z_scope.

(* ================================================================= *)
(** ** Text, integers and exceptions *)

(** A narrow or wide string literal of the source: the codes of its
    characters. *)
Definition lit (s : string) : list Z :=
  map (fun a => Z.of_N (N_of_ascii a)) (list_ascii_of_string s).

(** [L"..."] *)
Definition L (s : string) : list Z := lit s.

(** [s.size()], a [size_t]. *)
Definition size (s : list Z) : Z := Z.of_nat (length s).

(** [s.empty()] *)
Definition empty {A : Type} (s : list A) : bool :=
  match s with [] => true | _ :: _ => false end.

(** [static_cast<int>(n)]: reduction to the 32-bit two's complement range. *)
Definition static_cast_int (n : Z) : Z := (n + 2 ^ 31) mod 2 ^ 32 - 2 ^ 31.

(** [LOWORD(w)] of a message parameter. *)
Definition LOWORD (w : Z) : Z := Z.land w 65535.

(** [std::to_string] on an integer. *)
Definition to_string (n : Z) : list Z :=
  lit (NilZero.string_of_int (Z.to_int n)).

Inductive exception : Type :=
| runtime_error (what : list Z)
| invalid_argument (what : list Z).

(** The result of running a function of the header: it returns, it throws,
    or it reads memory outside the object it was given ([Undefined]). *)
Inductive outcome (A : Type) : Type :=
| Return (a : A)
| Throw (e : exception)
| Undefined.
Arguments Return {A} a.
Arguments Throw {A} e.
Arguments Undefined {A}.

Definition bind {A B : Type} (m : outcome A) (k : A -> outcome B) : outcome B :=
  match m with
  | Return a => k a
  | Throw e => Throw e
  | Undefined => Undefined
  end.

Notation "x <- m ;; k" := (bind m (fun x => k))
  (at level 61, m at next level, right associativity).

(** A C string read through a pointer: the characters before the first
    [0], and the pointer just past that [0].  Running off the end of the
    array is [None]. *)
Fixpoint read_cstr (p : list Z) : option (list Z * list Z) :=
  match p with
  | [] => None
  | c :: r =>
      if c =? 0 then Some ([], r)
      else match read_cstr r with
           | Some (s, r') => Some (c :: s, r')
           | None => None
           end
  end.

(** The characters of a string object up to its first [0]: what a
    [const wchar_t*] view of [s.c_str()] contains. *)
Fixpoint c_str (s : list Z) : list Z :=
  match s with
  | [] => []
  | c :: r => if c =? 0 then [] else c :: c_str r
  end.

(** The array [s.c_str()] points to: the characters of the string
    object and the terminator after them. *)
Definition c_array (s : list Z) : list Z := s ++ [0].

(** [hay.find(needle)]: the first position at which [needle] occurs. *)
Fixpoint prefix (needle hay : list Z) : bool :=
  match needle, hay with
  | [], _ => true
  | _ :: _, [] => false
  | a :: n', b :: h' => (a =? b) && prefix n' h'
  end.

Fixpoint find (needle hay : list Z) : option nat :=
  if prefix needle hay then Some 0%nat
  else match hay with
       | [] => None
       | _ :: h' => option_map S (find needle h')
       end.

(** [s.find(c)] for a single character. *)
Fixpoint find_char (c : Z) (s : list Z) : option nat :=
  match s with
  | [] => None
  | x :: r => if x =? c then Some 0%nat else option_map S (find_char c r)
  end.

(** [s.substr(pos)] and [s.substr(0, n)] *)
Definition substr_from (pos : nat) (s : list Z) : list Z := skipn pos s.
Definition substr_to (n : nat) (s : list Z) : list Z := firstn n s.

(* ================================================================= *)
(** ** The platform primitives the header calls *)

Module Win32.

(** *** Code page [CP_UTF8], conversion flags 0

    [MultiByteToWideChar] and [WideCharToMultiByte] are documented to
    follow the Unicode standard for UTF-8 and UTF-16 and, when the flags
    are 0, to replace ill-formed input by U+FFFD and succeed.  How many
    U+FFFD an ill-formed sequence becomes is not documented; here every
    byte and every code unit that starts no well-formed sequence
    becomes one.  The properties below use the conversion of
    well-formed text, and of other text only that it is not empty. *)

Definition REPLACEMENT : Z := 0xFFFD.

Definition continuation (b : Z) : bool := (0x80 <=? b) && (b <=? 0xBF).

Definition surrogate (c : Z) : bool := (0xD800 <=? c) && (c <=? 0xDFFF).

(** The scalar value encoded at the head of a byte string, with the
    number of bytes it occupies; [None] when the head is ill-formed
    (stray continuation byte, truncated or overlong sequence, encoded
    surrogate, value above U+10FFFF). *)
Definition utf8_scalar (s : list Z) : option (Z * nat) :=
  match s with
  | [] => None
  | b0 :: r0 =>
    if (0 <=? b0) && (b0 <? 0x80) then Some (b0, 1%nat)
    else match r0 with
    | [] => None
    | b1 :: r1 =>
      if (0xC2 <=? b0) && (b0 <=? 0xDF) && continuation b1
      then Some ((b0 - 0xC0) * 64 + (b1 - 0x80), 2%nat)
      else match r1 with
      | [] => None
      | b2 :: r2 =>
        let c3 := (b0 - 0xE0) * 4096 + (b1 - 0x80) * 64 + (b2 - 0x80) in
        if (0xE0 <=? b0) && (b0 <=? 0xEF) && continuation b1 && continuation b2
           && (0x800 <=? c3) && negb (surrogate c3)
        then Some (c3, 3%nat)
        else match r2 with
        | [] => None
        | b3 :: _ =>
          let c4 := (b0 - 0xF0) * 262144 + (b1 - 0x80) * 4096
                    + (b2 - 0x80) * 64 + (b3 - 0x80) in
          if (0xF0 <=? b0) && (b0 <=? 0xF4) && continuation b1
             && continuation b2 && continuation b3
             && (0x10000 <=? c4) && (c4 <=? 0x10FFFF)
          then Some (c4, 4%nat)
          else None
        end
      end
    end
  end.

(** Bytes to scalar values.  [skip] counts the continuation bytes of the
    sequence recognised last, which are passed over. *)
Fixpoint utf8_decode (skip : nat) (s : list Z) : list Z :=
  match s with
  | [] => []
  | _ :: r =>
    match skip with
    | S k => utf8_decode k r
    | O =>
      match utf8_scalar s with
      | Some (c, n) => c :: utf8_decode (Nat.pred n) r
      | None => REPLACEMENT :: utf8_decode 0 r
      end
    end
  end.

Definition utf16_units (c : Z) : list Z :=
  if c <? 0x10000 then [c]
  else [0xD800 + (c - 0x10000) / 1024; 0xDC00 + (c - 0x10000) mod 1024].

Definition utf16_encode (cs : list Z) : list Z := flat_map utf16_units cs.

Definition high_surrogate (u : Z) : bool := (0xD800 <=? u) && (u <=? 0xDBFF).
Definition low_surrogate (u : Z) : bool := (0xDC00 <=? u) && (u <=? 0xDFFF).

(** Code units to scalar values; an unpaired surrogate becomes U+FFFD. *)
Fixpoint utf16_decode (w : list Z) : list Z :=
  match w with
  | [] => []
  | u :: r =>
    if high_surrogate u then
      match r with
      | [] => [REPLACEMENT]
      | l :: r' =>
        if low_surrogate l
        then (0x10000 + (u - 0xD800) * 1024 + (l - 0xDC00)) :: utf16_decode r'
        else REPLACEMENT :: utf16_decode r
      end
    else if low_surrogate u then REPLACEMENT :: utf16_decode r
    else u :: utf16_decode r
  end.

Definition utf8_bytes (c : Z) : list Z :=
  if c <? 0x80 then [c]
  else if c <? 0x800 then [0xC0 + c / 64; 0x80 + c mod 64]
  else if c <? 0x10000
       then [0xE0 + c / 4096; 0x80 + (c / 64) mod 64; 0x80 + c mod 64]
       else [0xF0 + c / 262144; 0x80 + (c / 4096) mod 64;
             0x80 + (c / 64) mod 64; 0x80 + c mod 64].

Definition utf8_encode (cs : list Z) : list Z := flat_map utf8_bytes cs.

Definition ERROR_INVALID_PARAMETER : Z := 87.
Definition ERROR_INSUFFICIENT_BUFFER : Z := 122.

(** What a conversion call leaves behind: its return value, the
    destination buffer, and the thread's last-error code. *)
Record conversion : Type := mkConversion {
  returned : Z;
  written : list Z;
  GetLastError : Z
}.

(** The source characters a length argument designates: exactly [cb] of
    them when [cb] is positive; the characters up to and including the
    terminating [0] of the string object when it is negative. *)
Definition designated (src : list Z) (cb : Z) : list Z :=
  if cb <? 0 then c_str src ++ [0] else firstn (Z.to_nat cb) src.

(** Writing [out] at the start of the destination buffer. *)
Definition store (out dst : list Z) : list Z := out ++ skipn (length out) dst.

(** The shared shape of the two calls: a source length of 0 is refused;
    a destination size of 0 asks for the required size only; a
    destination too small is refused. *)
Definition convert (transcode : list Z -> list Z)
    (src : list Z) (cb : Z) (dst : list Z) (cch : Z) : conversion :=
  if cb =? 0 then mkConversion 0 dst ERROR_INVALID_PARAMETER
  else
    let out := transcode (designated src cb) in
    if cch =? 0 then mkConversion (size out) dst 0
    else if cch <? size out then mkConversion 0 dst ERROR_INSUFFICIENT_BUFFER
    else mkConversion (size out) (store out dst) 0.

(** [MultiByteToWideChar(CP_UTF8, 0, src, cb, dst, cch)] *)
Definition MultiByteToWideChar : list Z -> Z -> list Z -> Z -> conversion :=
  convert (fun s => utf16_encode (utf8_decode 0 s)).

(** [WideCharToMultiByte(CP_UTF8, 0, src, cch, dst, cb, NULL, NULL)] *)
Definition WideCharToMultiByte : list Z -> Z -> list Z -> Z -> conversion :=
  convert (fun w => utf8_encode (utf16_decode w)).

End Win32.

(* ================================================================= *)
(** ** Encoding helpers *)

Definition utf8ToWide (utf8 : list Z) : outcome (list Z) :=
  if empty utf8 then Return (L "")
  else
    let cb := static_cast_int (size utf8) in
    let q := Win32.MultiByteToWideChar utf8 cb [] 0 in
    let wideSize := Win32.returned q in
    if wideSize =? 0 then
      Throw (runtime_error (lit "UTF8 to wide conversion failed: "
                            ++ to_string (Win32.GetLastError q)))
    else
      let wide := repeat 0 (Z.to_nat wideSize) in
      let r := Win32.MultiByteToWideChar utf8 cb wide wideSize in
      if Win32.returned r =? 0 then
        Throw (runtime_error (lit "UTF8 to wide conversion failed: "
                              ++ to_string (Win32.GetLastError r)))
      else Return (Win32.written r).

Definition wideToUtf8 (wide : list Z) : outcome (list Z) :=
  if empty wide then Return (lit "")
  else
    let cch := static_cast_int (size wide) in
    let q := Win32.WideCharToMultiByte wide cch [] 0 in
    let utf8Size := Win32.returned q in
    if utf8Size =? 0 then
      Throw (runtime_error (lit "Wide to UTF8 conversion failed: "
                            ++ to_string (Win32.GetLastError q)))
    else
      let utf8 := repeat 0 (Z.to_nat utf8Size) in
      let r := Win32.WideCharToMultiByte wide cch utf8 utf8Size in
      if Win32.returned r =? 0 then
        Throw (runtime_error (lit "Wide to UTF8 conversion failed: "
                              ++ to_string (Win32.GetLastError r)))
      else Return (Win32.written r).

(* ================================================================= *)
(** ** Filter-string builder *)

Definition PIPE : Z := 124.

Definition filter_format_message (filter : list Z) : list Z :=
  lit "Invalid filter format: '" ++ filter
  ++ lit "'. Use 'description|filter pattern' (e.g., 'Text Files("
  ++ lit "*.txt)|*.txt')".

(** The body of the [for] loop of [buildFilter], over the entries that
    remain, with the string built so far. *)
Fixpoint buildFilter_for (filters : list (list Z)) (filterStr : list Z)
  : outcome (list Z) :=
  match filters with
  | [] => Return filterStr
  | filter :: rest =>
    match find_char PIPE filter with
    | None => Throw (invalid_argument (filter_format_message filter))
    | Some pipePos =>
      let desc := substr_to pipePos filter in
      let pattern := substr_from (pipePos + 1) filter in
      wdesc <- utf8ToWide desc ;;
      let filterStr := filterStr ++ wdesc in
      let filterStr := filterStr ++ [0] in
      wpattern <- utf8ToWide pattern ;;
      let filterStr := filterStr ++ wpattern in
      let filterStr := filterStr ++ [0] in
      buildFilter_for rest filterStr
    end
  end.

Definition buildFilter (filters : list (list Z)) : outcome (list Z) :=
  filterStr <- buildFilter_for filters [] ;;
  Return (filterStr ++ [0]).

(* ================================================================= *)
(** ** Font-path resolver *)

(** One value of a registry key: its name, its type and its data.  The
    data of a string value is given as the characters stored, without
    the terminating [0] the registry keeps after them. *)
Record RegValue : Type := mkRegValue {
  valueName : list Z;
  valueType : Z;
  valueData : list Z
}.

Definition REG_SZ : Z := 1.
Definition ERROR_SUCCESS : Z := 0.
Definition ERROR_MORE_DATA : Z := 234.
Definition ERROR_NO_MORE_ITEMS : Z := 259.

Module Registry.

(** Size in bytes of a value's data, terminating [0] included. *)
Definition cbData (v : RegValue) : Z := 2 * (size (valueData v) + 1).

(** [RegEnumValueW(hKey, index, name, &cchName, NULL, &type, data, &cbData)]
    on a key holding [values]: past the last value it reports
    [ERROR_NO_MORE_ITEMS]; a name (with its terminator) or data larger
    than the buffer offered is reported as [ERROR_MORE_DATA]. *)
Definition RegEnumValueW (values : list RegValue) (index : nat)
    (cchValueName cbValueData : Z) : Z * option RegValue :=
  match nth_error values index with
  | None => (ERROR_NO_MORE_ITEMS, None)
  | Some v =>
    if (cchValueName <=? size (valueName v)) || (cbValueData <? cbData v)
    then (ERROR_MORE_DATA, None)
    else (ERROR_SUCCESS, Some v)
  end.

End Registry.

Section FontPath.

(** [towlower] of the C runtime, and the directory
    [GetWindowsDirectoryW] reports. *)
Variable towlower : Z -> Z.
Variable windowsDir : list Z.

Definition SPACE_PAREN : list Z := L " (".
Definition COLON : Z := 58.
Definition BACKSLASH : Z := 92.

(** The test of the loop body on one enumerated value. *)
Definition font_name_matches (fontNameSubstring : list Z) (v : RegValue) : bool :=
  let currentFontName := c_str (valueName v) in
  let currentFontName :=
    match find SPACE_PAREN currentFontName with
    | Some pos => substr_to pos currentFontName
    | None => currentFontName
    end in
  let lowerFontName := map towlower currentFontName in
  let lowerSubstring := map towlower fontNameSubstring in
  match find lowerSubstring lowerFontName with
  | Some _ => true
  | None => false
  end.

Definition font_path_of (v : RegValue) : list Z :=
  let currentFontPath := c_str (valueData v) in
  match find_char COLON currentFontPath with
  | None => windowsDir ++ [BACKSLASH] ++ L "Fonts" ++ [BACKSLASH] ++ currentFontPath
  | Some _ => currentFontPath
  end.

(** The [while (true)] loop of the two scanning functions, entered with
    [index]; [n] bounds the number of iterations and is chosen by the
    caller so that it is not reached. *)
Fixpoint enumerate (values : list RegValue) (fontNameSubstring : list Z)
    (n : nat) (index : nat) : list Z :=
  match n with
  | O => []
  | S n' =>
    let '(result, value) := Registry.RegEnumValueW values index 256 1024 in
    if negb (result =? ERROR_SUCCESS) then []
    else
      let index := S index in
      match value with
      | None => []
      | Some v =>
        if (valueType v =? REG_SZ) && font_name_matches fontNameSubstring v
        then font_path_of v
        else enumerate values fontNameSubstring n' index
      end
  end.

(** The fonts key of one registry root: [None] when [RegOpenKeyExW]
    does not succeed. *)
Definition scan_key (key : option (list RegValue)) (fontNameSubstring : list Z)
  : list Z :=
  match key with
  | None => L ""
  | Some values => enumerate values fontNameSubstring (S (length values)) 0
  end.

Record registry : Type := mkRegistry {
  HKEY_LOCAL_MACHINE : option (list RegValue);
  HKEY_CURRENT_USER : option (list RegValue)
}.

Definition FindFontFileLocalMachine (reg : registry) (fontNameSubstring : list Z) :=
  scan_key (HKEY_LOCAL_MACHINE reg) fontNameSubstring.

Definition FindFontFileCurrentUser (reg : registry) (fontNameSubstring : list Z) :=
  scan_key (HKEY_CURRENT_USER reg) fontNameSubstring.

Definition FindFontFile (reg : registry) (fontNameSubstring : list Z) : list Z :=
  let try_lm := FindFontFileLocalMachine reg fontNameSubstring in
  if empty try_lm then FindFontFileCurrentUser reg fontNameSubstring
  else try_lm.

End FontPath.

(* ================================================================= *)
(** ** File pickers *)

Record OPENFILENAMEW : Type := mkOFN {
  hwndOwner : Z;
  lpstrFilter : list Z;
  lpstrFile : list Z;
  nMaxFile : Z;
  lpstrInitialDir : option (list Z);
  lpstrDefExt : option (list Z);
  lpstrTitle : option (list Z);
  Flags : Z
}.

Definition OFN_OVERWRITEPROMPT : Z := 0x2.
Definition OFN_NOCHANGEDIR : Z := 0x8.
Definition OFN_ALLOWMULTISELECT : Z := 0x200.
Definition OFN_PATHMUSTEXIST : Z := 0x800.
Definition OFN_FILEMUSTEXIST : Z := 0x1000.
Definition OFN_EXPLORER : Z := 0x80000.

(** [wcscpy_s(dest, n, src)] and [wcscpy(dest, src)]: the characters of
    [src] and its terminator over the start of [dest]. *)
Definition wcscpy (dest src : list Z) : list Z := Win32.store (src ++ [0]) dest.

(** An optional string argument: converted and passed when it is not
    empty, a null pointer otherwise. *)
Definition optional_wide (s : list Z) : outcome (option (list Z)) :=
  if negb (empty s) then (w <- utf8ToWide s ;; Return (Some (c_str w)))
  else Return None.

(** The title is passed only when the caller gave one. *)
Definition optional_title (title wtitle : list Z) : option (list Z) :=
  if negb (empty title) then Some (c_str wtitle) else None.

Section Pickers.

(** The blocking native call: what it returns and what it leaves in the
    file buffer; and the code [CommDlgExtendedError] reports after it. *)
Variable GetOpenFileNameW : OPENFILENAMEW -> bool * list Z.
Variable GetSaveFileNameW : OPENFILENAMEW -> bool * list Z.
Variable CommDlgExtendedError : Z.

(** Everything [getOpenFileName] and [getSaveFileName] do before the
    native call: the request they build. *)
Definition single_request (flags : Z) (filters : list (list Z))
    (title initialDir defaultFileName defaultExt : list Z) (parentHWND : Z)
  : outcome OPENFILENAMEW :=
  filter <- buildFilter filters ;;
  wtitle <- utf8ToWide title ;;
  let MAX_PATH_LEN := 4096 in
  let filePath := repeat 0 (Z.to_nat MAX_PATH_LEN) in
  filePath <-
    (if negb (empty defaultFileName) then
       defaultWide <- utf8ToWide defaultFileName ;;
       if MAX_PATH_LEN <=? size defaultWide
       then Throw (runtime_error (lit "Default file name is too long"))
       else Return (wcscpy filePath (c_str defaultWide))
     else Return filePath) ;;
  initialDirPtr <- optional_wide initialDir ;;
  defaultExtPtr <- optional_wide defaultExt ;;
  Return (mkOFN parentHWND (c_array filter) filePath MAX_PATH_LEN
                initialDirPtr defaultExtPtr (optional_title title wtitle) flags).

Definition open_request : list (list Z) -> list Z -> list Z -> list Z -> list Z
                          -> Z -> outcome OPENFILENAMEW :=
  single_request (Z.lor (Z.lor (Z.lor OFN_FILEMUSTEXIST OFN_PATHMUSTEXIST)
                               OFN_NOCHANGEDIR) OFN_EXPLORER).

Definition save_request : list (list Z) -> list Z -> list Z -> list Z -> list Z
                          -> Z -> outcome OPENFILENAMEW :=
  single_request (Z.lor (Z.lor (Z.lor OFN_OVERWRITEPROMPT OFN_PATHMUSTEXIST)
                               OFN_NOCHANGEDIR) OFN_EXPLORER).

Definition getOpenFileName (filters : list (list Z))
    (title initialDir defaultFileName defaultExt : list Z) (parentHWND : Z)
  : outcome (list Z) :=
  ofn <- open_request filters title initialDir defaultFileName defaultExt
                      parentHWND ;;
  let '(ok, filePath) := GetOpenFileNameW ofn in
  if negb ok then
    let err := CommDlgExtendedError in
    if negb (err =? 0)
    then Throw (runtime_error (lit "Open file dialog failed: " ++ to_string err))
    else Return (lit "")
  else
    let filePath := c_str filePath in
    wideToUtf8 filePath.

Definition getSaveFileName (filters : list (list Z))
    (title initialDir defaultFileName defaultExt : list Z) (parentHWND : Z)
  : outcome (list Z) :=
  ofn <- save_request filters title initialDir defaultFileName defaultExt
                      parentHWND ;;
  let '(ok, filePath) := GetSaveFileNameW ofn in
  if negb ok then
    let err := CommDlgExtendedError in
    if negb (err =? 0)
    then Throw (runtime_error (lit "Save file dialog failed: " ++ to_string err))
    else Return (lit "")
  else
    let filePath := c_str filePath in
    wideToUtf8 filePath.

(** What [getOpenMultipleFileNames] does before the native call. *)
Definition multiple_request (filters : list (list Z))
    (title initialDir defaultFileName defaultExt : list Z) (parentHWND : Z)
  : outcome OPENFILENAMEW :=
  filter <- buildFilter filters ;;
  wtitle <- utf8ToWide title ;;
  let BUFFER_SIZE := 65536 in
  let filePathBuffer := repeat 0 (Z.to_nat BUFFER_SIZE) in
  filePathBuffer <-
    (if negb (empty defaultFileName) then
       defaultWide <- utf8ToWide defaultFileName ;;
       if BUFFER_SIZE <=? size defaultWide * 2
       then Throw (runtime_error (lit "Default file name is too long"))
       else Return (wcscpy filePathBuffer (c_str defaultWide))
     else Return filePathBuffer) ;;
  initialDirPtr <- optional_wide initialDir ;;
  defaultExtPtr <- optional_wide defaultExt ;;
  Return (mkOFN parentHWND (c_array filter) filePathBuffer BUFFER_SIZE
                initialDirPtr defaultExtPtr (optional_title title wtitle)
                (Z.lor (Z.lor (Z.lor (Z.lor OFN_FILEMUSTEXIST OFN_PATHMUSTEXIST)
                                     OFN_NOCHANGEDIR) OFN_EXPLORER)
                       OFN_ALLOWMULTISELECT)).

(** The [while] loop over the file names, which runs until the character
    under [ptr] is [0].  Each iteration
    moves [ptr] forward, so [n] iterations are enough for a buffer of
    [n] characters. *)
Fixpoint selected_files (n : nat) (directory ptr : list Z)
    (selectedFiles : list (list Z)) : outcome (list (list Z)) :=
  match n with
  | O => Undefined
  | S n' =>
    match ptr with
    | [] => Undefined
    | c :: _ =>
      if c =? 0 then Return selectedFiles
      else
        match read_cstr ptr with
        | None => Undefined
        | Some (filename, ptr') =>
          let fullPath := directory ++ [BACKSLASH] ++ filename in
          utf8 <- wideToUtf8 fullPath ;;
          selected_files n' directory ptr' (selectedFiles ++ [utf8])
        end
    end
  end.

(** The part of [getOpenMultipleFileNames] after a successful native
    call: the parse of the buffer the dialog filled. *)
Definition parse_selection (filePathBuffer : list Z) : outcome (list (list Z)) :=
  let selectedFiles := [] in
  match read_cstr filePathBuffer with
  | None => Undefined
  | Some (directory, ptr) =>
    match ptr with
    | [] => Undefined
    | c :: _ =>
      if c =? 0 then
        utf8 <- wideToUtf8 directory ;;
        Return (selectedFiles ++ [utf8])
      else selected_files (length ptr) directory ptr selectedFiles
    end
  end.

Definition getOpenMultipleFileNames (filters : list (list Z))
    (title initialDir defaultFileName defaultExt : list Z) (parentHWND : Z)
  : outcome (list (list Z)) :=
  ofn <- multiple_request filters title initialDir defaultFileName defaultExt
                          parentHWND ;;
  let '(ok, filePathBuffer) := GetOpenFileNameW ofn in
  if negb ok then
    let err := CommDlgExtendedError in
    if negb (err =? 0)
    then Throw (runtime_error (lit "Open file dialog failed: " ++ to_string err))
    else Return []
  else parse_selection filePathBuffer.

End Pickers.

(* ================================================================= *)
(** ** Colour picker *)

(** The colour macros of [wingdi.h]. *)
Module Gdi.

Definition BYTE (x : Z) : Z := Z.land x 0xFF.
Definition WORD (x : Z) : Z := Z.land x 0xFFFF.
Definition DWORD (x : Z) : Z := Z.land x 0xFFFFFFFF.
Definition LOBYTE (x : Z) : Z := BYTE (Z.land x 0xFF).

Definition RGB (r g b : Z) : Z :=
  DWORD (Z.lor (Z.lor (BYTE r) (Z.shiftl (WORD (BYTE g)) 8))
               (Z.shiftl (DWORD (BYTE b)) 16)).

Definition GetRValue (rgb : Z) : Z := LOBYTE rgb.
Definition GetGValue (rgb : Z) : Z := LOBYTE (Z.shiftr (WORD rgb) 8).
Definition GetBValue (rgb : Z) : Z := LOBYTE (Z.shiftr rgb 16).

End Gdi.

Record SDL_Color : Type := mkColor { r : Z; g : Z; b : Z; a : Z }.

Module CC.
Record CHOOSECOLORW : Type := mk {
  hwndOwner : Z;
  rgbResult : Z;
  lpCustColors : list Z;
  Flags : Z
}.
End CC.

Definition CC_RGBINIT : Z := 0x1.
Definition CC_FULLOPEN : Z := 0x2.

Section ColorPicker.

(** The native colour dialog: its result and the request as it leaves it. *)
Variable ChooseColorW : CC.CHOOSECOLORW -> bool * CC.CHOOSECOLORW.
Variable CommDlgExtendedError : Z.

(** [customColors] is the function's static array; the new colour and
    the array as the dialog left it are returned. *)
(** The request [chooseColor] hands to the dialog, seeded with the
    colour it was given. *)
Definition color_request (customColors : list Z) (selectedColor : SDL_Color)
    (hwndParent : Z) : CC.CHOOSECOLORW :=
  let initialColor :=
    Gdi.RGB (r selectedColor) (g selectedColor) (b selectedColor) in
  CC.mk hwndParent initialColor customColors (Z.lor CC_RGBINIT CC_FULLOPEN).

Definition chooseColor (customColors : list Z) (selectedColor : SDL_Color)
    (hwndParent : Z) : outcome (SDL_Color * list Z) :=
  let cc := color_request customColors selectedColor hwndParent in
  let '(ok, cc) := ChooseColorW cc in
  _ <- (if negb ok then
          let err := CommDlgExtendedError in
          if negb (err =? 0)
          then Throw (runtime_error (lit "Choose color dialog failed: "
                                     ++ to_string err))
          else Return tt
        else Return tt) ;;
  Return (mkColor (Gdi.GetRValue (CC.rgbResult cc))
                  (Gdi.GetGValue (CC.rgbResult cc))
                  (Gdi.GetBValue (CC.rgbResult cc))
                  255,
          CC.lpCustColors cc).

End ColorPicker.

(* ================================================================= *)
(** ** Font picker *)

Record chooseFontInfo : Type := mkFontInfo {
  fontFaceName : list Z;
  fontPath : list Z;
  fontPointSize : Z
}.

Module CF.
Record LOGFONTW : Type := mkLogFont { lfFaceName : list Z }.
Record CHOOSEFONTW : Type := mk {
  hwndOwner : Z;
  lpLogFont : LOGFONTW;
  iPointSize : Z;
  Flags : Z
}.
End CF.

Definition CF_SCREENFONTS : Z := 0x1.
Definition CF_TTONLY : Z := 0x40000.
Definition CF_NOVERTFONTS : Z := 0x1000000.
Definition LF_FACESIZE : Z := 32.

(** A [std::wstring] constructed from a character array. *)
Definition wstring_of_array (array : list Z) : outcome (list Z) :=
  match read_cstr array with
  | Some (s, _) => Return s
  | None => Undefined
  end.

Section FontPicker.

Variable towlower : Z -> Z.
Variable windowsDir : list Z.
Variable reg : registry.
Variable ChooseFontW : CF.CHOOSEFONTW -> bool * CF.CHOOSEFONTW.
Variable CommDlgExtendedError : Z.

(** The request [chooseFont] hands to the dialog: a zeroed [LOGFONTW]
    and a zeroed [CHOOSEFONTW] with the owner and the flags set. *)
Definition font_request (hwndParent : Z) : CF.CHOOSEFONTW :=
  let lf := CF.mkLogFont (repeat 0 (Z.to_nat LF_FACESIZE)) in
  CF.mk hwndParent lf 0
        (Z.lor (Z.lor CF_SCREENFONTS CF_NOVERTFONTS) CF_TTONLY).

Definition chooseFont (hwndParent : Z) : outcome chooseFontInfo :=
  let cf := font_request hwndParent in
  let '(ok, cf) := ChooseFontW cf in
  _ <- (if negb ok then
          let err := CommDlgExtendedError in
          if negb (err =? 0)
          then Throw (runtime_error (lit "Choose font dialog failed: "
                                     ++ to_string err))
          else Return tt
        else Return tt) ;;
  let lf := CF.lpLogFont cf in
  face <- wstring_of_array (CF.lfFaceName lf) ;;
  name <- wideToUtf8 face ;;
  let pointSize := Z.quot (CF.iPointSize cf) 10 in
  path <- wideToUtf8 (FindFontFile towlower windowsDir reg face) ;;
  Return (mkFontInfo name path pointSize).

End FontPicker.

(* ================================================================= *)
(** ** The two hand-built dialogs *)

(** Window messages, as far as the two window procedures tell them
    apart; [WM_other] goes to [DefWindowProcW]. *)
Inductive message : Type :=
| WM_CREATE
| WM_SIZE (lParam : Z)
| WM_COMMAND (wParam : Z)
| WM_CLOSE
| WM_DESTROY
| WM_CTLCOLOREDIT
| WM_CTLCOLORSTATIC
| WM_CTLCOLORBTN
| WM_ERASEBKGND
| WM_other (msg : Z).

(** What reaches the thread of a dialog while it is shown: the user
    changes the text of the edit control, or a message is dispatched to
    the dialog's window procedure. *)
Inductive event : Type :=
| UserEdits (text : list Z)
| Dispatch (m : message).

(** The calls into the window manager a dialog function makes, in
    order. *)
Inductive syscall : Type :=
| RegisterClassExW (className : list Z)
| CreateWindowExW (className title : list Z) (x y width height : Z)
| ShowWindow
| UpdateWindow
| GetMessageW (e : event)
| UnregisterClassW (className : list Z).

(** [GetDlgItemTextW(hDlg, id, buffer, nMaxCount)] on a control whose
    text is [text]: at most [nMaxCount - 1] characters are copied and
    terminated. *)
Definition GetDlgItemTextW (text : list Z) (nMaxCount : Z) : list Z :=
  firstn (Z.to_nat (nMaxCount - 1)) text.

Definition __GCOMMMDLG_IDC_PROMPT : Z := 1001.
Definition __GCOMMMDLG_IDC_INPUT : Z := 1002.
Definition __GCOMMMDLG_IDOK : Z := 1003.
Definition __GCOMMMDLG_IDCANCEL : Z := 1004.

Module Prompt.

(** The globals of the prompt dialog, with the text of its edit control
    and the life of its window. *)
Record state : Type := mk {
  g_inputText : list Z;
  g_did_confirm : bool;
  editText : list Z;
  quit : bool
}.

Definition PostQuitMessage (st : state) : state :=
  mk (g_inputText st) (g_did_confirm st) (editText st) true.

(** [DestroyWindow(hDlg)]: the window receives [WM_DESTROY], whose
    handler posts the quit message. *)
Definition DestroyWindow (st : state) : state := PostQuitMessage st.

(** The window procedure, on the globals and the life of the window.
    Creation, layout and painting ([WM_CREATE], [WM_SIZE], the
    [WM_CTLCOLOR] family, [WM_ERASEBKGND]) touch neither. *)
Definition PromptDialogProc (st : state) (msg : message) : state :=
  match msg with
  | WM_COMMAND wParam =>
    if LOWORD wParam =? __GCOMMMDLG_IDOK then
      let buffer := GetDlgItemTextW (editText st) 256 in
      let st := mk (wcscpy (g_inputText st) buffer) true
                   (editText st) (quit st) in
      DestroyWindow st
    else if LOWORD wParam =? __GCOMMMDLG_IDCANCEL then
      let st := mk (wcscpy (g_inputText st) (L "")) false
                   (editText st) (quit st) in
      DestroyWindow st
    else st
  | WM_CLOSE =>
    let st := mk (wcscpy (g_inputText st) (L "")) false
                 (editText st) (quit st) in
    DestroyWindow st
  | WM_DESTROY => PostQuitMessage st
  | _ => st
  end.

Definition deliver (st : state) (e : event) : state :=
  match e with
  | UserEdits text => mk (g_inputText st) (g_did_confirm st) (c_str text)
                         (quit st)
  | Dispatch m => PromptDialogProc st m
  end.

(** The message loop: it ends when the quit message has been posted,
    and it is still waiting ([None]) when the events run out before. *)
Fixpoint message_loop (st : state) (events : list event)
  : list syscall * option state :=
  if quit st then ([], Some st)
  else match events with
       | [] => ([], None)
       | e :: rest =>
         let '(calls, final) := message_loop (deliver st e) rest in
         (GetMessageW e :: calls, final)
       end.

End Prompt.

Section PromptDialog.

(** The machine the dialog runs on: whether the window can be created,
    the size of the screen, what the heap block for the input text
    holds when it is allocated, and what happens while the dialog is
    shown. *)
Variable created : bool.
Variable SM_CXSCREEN SM_CYSCREEN : Z.
Variable fresh_block : list Z.
Variable events : list event.

Definition PromptDialogClass : list Z := L "PromptDialogClass".

(** [g_did_confirm] is the value the global has when the function is
    entered.  The result is the calls made and, when the function
    returns, its return value with the output string. *)
Definition promptDialog (g_did_confirm : bool)
    (title message defaultContent : list Z)
  : outcome (list syscall * option (bool * list Z)) :=
  let targetWidth := SM_CXSCREEN in
  let targetHeight := SM_CYSCREEN in
  let x := Z.quot targetWidth 2 - Z.quot 400 2 in
  let y := Z.quot targetHeight 2 - Z.quot 180 2 in
  let g_inputText := fresh_block in
  g_message <- utf8ToWide message ;;
  g_defalutContent <- utf8ToWide defaultContent ;;
  wtitle <- utf8ToWide title ;;
  let st := Prompt.mk g_inputText g_did_confirm (c_str g_defalutContent)
                      false in
  let before := [RegisterClassExW PromptDialogClass;
                 CreateWindowExW PromptDialogClass (c_str wtitle) x y 400 180] in
  let '(shown, final) :=
    if created then
      let '(calls, final) := Prompt.message_loop st events in
      (ShowWindow :: UpdateWindow :: calls, final)
    else ([], Some st) in
  match final with
  | None => Return (before ++ shown, None)
  | Some st =>
    let calls := before ++ shown ++ [UnregisterClassW PromptDialogClass] in
    if negb (Prompt.g_did_confirm st) then Return (calls, Some (false, lit ""))
    else
      text <- wstring_of_array (Prompt.g_inputText st) ;;
      output <- wideToUtf8 text ;;
      Return (calls, Some (true, output))
  end.

End PromptDialog.

Definition __GCOMMMDLG_BTN_START : Z := 2000.
Definition __GCOMMDLG_MSGBOX_BTN_WIDTH : Z := 100.

Module MsgBox.

(** The globals of the message box and the life of its window. *)
Record state : Type := mk {
  g_options : list (Z * list Z);
  g_selectedId : Z;
  quit : bool
}.

Definition PostQuitMessage (st : state) : state :=
  mk (g_options st) (g_selectedId st) true.

Definition DestroyWindow (st : state) : state := PostQuitMessage st.

(** The window procedure, on the globals and the life of the window.
    Creation, layout and painting touch neither. *)
Definition MessageBoxDialogProc (st : state) (msg : message) : state :=
  match msg with
  | WM_COMMAND wParam =>
    let btnId := LOWORD wParam in
    if (__GCOMMMDLG_BTN_START <=? btnId)
       && (btnId <? __GCOMMMDLG_BTN_START
                    + static_cast_int (Z.of_nat (length (g_options st))))
    then
      let index := Z.to_nat (btnId - __GCOMMMDLG_BTN_START) in
      match nth_error (g_options st) index with
      | Some opt =>
        DestroyWindow (mk (g_options st) (fst opt) (quit st))
      | None => st
      end
    else st
  | WM_CLOSE => DestroyWindow (mk (g_options st) 0 (quit st))
  | WM_DESTROY => PostQuitMessage st
  | _ => st
  end.

Fixpoint message_loop (st : state) (messages : list message)
  : list syscall * option state :=
  if quit st then ([], Some st)
  else match messages with
       | [] => ([], None)
       | m :: rest =>
         let '(calls, final) := message_loop (MessageBoxDialogProc st m) rest in
         (GetMessageW (Dispatch m) :: calls, final)
       end.

(** The loop that fills [g_options]. *)
Fixpoint convert_options (options : list (Z * list Z))
  : outcome (list (Z * list Z)) :=
  match options with
  | [] => Return []
  | opt :: rest =>
    label <- utf8ToWide (snd opt) ;;
    others <- convert_options rest ;;
    Return ((fst opt, label) :: others)
  end.

End MsgBox.

Section MessageBox.

(** The machine the dialog runs on: whether the window class can be
    registered and the window created, the size of the screen, and the
    messages dispatched while the dialog is shown. *)
Variable registered created : bool.
Variable SM_CXSCREEN SM_CYSCREEN : Z.
Variable messages : list message.

Definition CustomMessageBoxClass : list Z := L "CustomMessageBoxClass".

(** The result is the calls made and, when the function returns, its
    return value. *)
Definition messageBox (title message : list Z) (options : list (Z * list Z))
  : outcome (list syscall * option Z) :=
  if empty options then Return ([], Some (-1))
  else
    g_options <- MsgBox.convert_options options ;;
    g_msgContent <- utf8ToWide message ;;
    g_boxTitle <- utf8ToWide title ;;
    let st := MsgBox.mk g_options 0 false in
    if negb registered
    then Return ([RegisterClassExW CustomMessageBoxClass], Some 0)
    else
      let screenWidth := SM_CXSCREEN in
      let screenHeight := SM_CYSCREEN in
      let windowWidth := (__GCOMMDLG_MSGBOX_BTN_WIDTH + 20) * 3 + 20 in
      let windowHeight :=
        static_cast_int (140 + 40 * ((Z.of_nat (length options) - 1) / 3)) in
      let x := Z.quot (screenWidth - windowWidth) 2 in
      let y := Z.quot (screenHeight - windowHeight) 2 in
      let before := [RegisterClassExW CustomMessageBoxClass;
                     CreateWindowExW CustomMessageBoxClass (c_str g_boxTitle)
                                     x y windowWidth windowHeight] in
      let '(shown, final) :=
        if created then
          let '(calls, final) := MsgBox.message_loop st messages in
          (ShowWindow :: UpdateWindow :: calls, final)
        else ([], Some st) in
      match final with
      | None => Return (before ++ shown, None)
      | Some st =>
        Return (before ++ shown ++ [UnregisterClassW CustomMessageBoxClass],
                Some (MsgBox.g_selectedId st))
      end.

End MessageBox.

(* ================================================================= *)
(** ** Directory picker *)

Module BI.

(** A message the browse callback sends to the dialog. *)
Inductive sent : Type :=
| SendMessageW (uMsg wParam : Z) (lParam : option (list Z)).

(** [lParam] is the string the field points to, or [None] for 0;
    [lpfn] is the callback, or [None] for a null pointer. *)
Record BROWSEINFOW : Type := mk {
  hwndOwner : Z;
  lpszTitle : option (list Z);
  ulFlags : Z;
  lParam : option (list Z);
  lpfn : option (Z -> option (list Z) -> list sent * Z)
}.

End BI.

Definition BIF_RETURNONLYFSDIRS : Z := 0x1.
Definition BIF_NEWDIALOGSTYLE : Z := 0x40.
Definition BFFM_INITIALIZED : Z := 1.
Definition BFFM_SETSELECTIONW : Z := 0x400 + 103.

(** The lambda [getOpenDirectoryName] installs as the callback: what it
    sends to the dialog and what it returns. *)
Definition BrowseCallbackProc (uMsg : Z) (lpData : option (list Z))
  : list BI.sent * Z :=
  if uMsg =? BFFM_INITIALIZED
  then ([BI.SendMessageW BFFM_SETSELECTIONW 1 lpData], 0)
  else ([], 0).

(** What [getOpenDirectoryName] does before the native call. *)
Definition directory_request (title initialDir : list Z) (parentHWND : Z)
  : outcome BI.BROWSEINFOW :=
  wtitle <- utf8ToWide title ;;
  initialDirWide <-
    (if negb (empty initialDir) then utf8ToWide initialDir else Return []) ;;
  let lpszTitle := optional_title title wtitle in
  let ulFlags := Z.lor BIF_RETURNONLYFSDIRS BIF_NEWDIALOGSTYLE in
  if negb (empty initialDirWide)
  then Return (BI.mk parentHWND lpszTitle ulFlags
                     (Some (c_str initialDirWide)) (Some BrowseCallbackProc))
  else Return (BI.mk parentHWND lpszTitle ulFlags None None).

Section DirectoryPicker.

(** The folder dialog: the item list it returns, [None] for a null
    pointer; and the conversion of an item list to a path, into the
    buffer given. *)
Variable SHBrowseForFolderW : BI.BROWSEINFOW -> option Z.
Variable SHGetPathFromIDListW : Z -> list Z -> bool * list Z.

(** The result comes with the item lists passed to [CoTaskMemFree], in
    order. *)
Definition getOpenDirectoryName (title initialDir : list Z) (parentHWND : Z)
  : list Z * outcome (list Z) :=
  match directory_request title initialDir parentHWND with
  | Throw e => ([], Throw e)
  | Undefined => ([], Undefined)
  | Return bi =>
    match SHBrowseForFolderW bi with
    | None => ([], Return (lit ""))
    | Some pidl =>
      let directoryPath := repeat 0 (Z.to_nat 260) in
      let '(ok, directoryPath) := SHGetPathFromIDListW pidl directoryPath in
      if negb ok
      then ([pidl],
            Throw (runtime_error (lit "Failed to get path from ID list")))
      else
        let directoryPath := c_str directoryPath in
        ([pidl], wideToUtf8 directoryPath)
    end
  end.

End DirectoryPicker.

(* ================================================================= *)
(** ** Layout of the two hand-built dialogs *)

(** [HIWORD(l)] of a message parameter. *)
Definition HIWORD (l : Z) : Z := Z.land (Z.shiftr l 16) 65535.

(** One call [SetWindowPos(hwnd, NULL, X, Y, cx, cy, SWP_NOZORDER)], the
    window given by its control id. *)
Record placement : Type := mkPlacement {
  control : Z;
  X : Z;
  Y : Z;
  cx : Z;
  cy : Z
}.

(** The [WM_SIZE] case of [PromptDialogProc], the four child windows
    existing. *)
Definition prompt_WM_SIZE (lParam : Z) : list placement :=
  let clientWidth := LOWORD lParam in
  let clientHeight := HIWORD lParam in
  let buttonWidth := 80 in
  let buttonHeight := 30 in
  let buttonY := clientHeight - buttonHeight - 15 in
  let totalButtonWidth := buttonWidth * 2 + 20 in
  let startX := Z.quot (clientWidth - totalButtonWidth) 2 in
  [mkPlacement __GCOMMMDLG_IDC_PROMPT 20 20 (clientWidth - 40) 25;
   mkPlacement __GCOMMMDLG_IDC_INPUT 20 55 (clientWidth - 40) 30;
   mkPlacement __GCOMMMDLG_IDOK startX buttonY buttonWidth buttonHeight;
   mkPlacement __GCOMMMDLG_IDCANCEL (startX + buttonWidth + 20) buttonY
               buttonWidth buttonHeight].

(** The placement of button [i] in the [WM_SIZE] case of
    [MessageBoxDialogProc].  The index is a [size_t]; the coordinates
    computed with it are narrowed to the [int] arguments of
    [SetWindowPos]. *)
Definition button_placement (clientHeight : Z) (i : nat) : placement :=
  let btnWidth := __GCOMMDLG_MSGBOX_BTN_WIDTH in
  let btnHeight := 30 in
  let spacing := 20 in
  let startX := 20 in
  let startY := clientHeight - btnHeight - 20 in
  mkPlacement (__GCOMMMDLG_BTN_START + Z.of_nat i)
              (static_cast_int (startX + (Z.of_nat i mod 3) * (btnWidth + spacing)))
              (static_cast_int (startY - (Z.of_nat i / 3) * 40))
              btnWidth btnHeight.

(** The [WM_SIZE] case of [MessageBoxDialogProc] with [count] buttons:
    the message text, then the buttons in order. *)
Definition msgbox_WM_SIZE (lParam : Z) (count : nat) : list placement :=
  let clientWidth := LOWORD lParam in
  let clientHeight := HIWORD lParam in
  mkPlacement 1001 20 20 (clientWidth - 40) 26
  :: map (button_placement clientHeight) (seq 0 count).

(* ================================================================= *)
(** ** Notions the properties are stated with *)

(** Well-formed UTF-8, by the table of well-formed byte sequences of the
    Unicode standard. *)
Inductive well_formed_utf8 : list Z -> Prop :=
| wf_empty : well_formed_utf8 []
| wf_one b0 s :
    0 <= b0 <= 0x7F ->
    well_formed_utf8 s -> well_formed_utf8 (b0 :: s)
| wf_two b0 b1 s :
    0xC2 <= b0 <= 0xDF -> 0x80 <= b1 <= 0xBF ->
    well_formed_utf8 s -> well_formed_utf8 (b0 :: b1 :: s)
| wf_three b0 b1 b2 s :
    (b0 = 0xE0 /\ 0xA0 <= b1 <= 0xBF) \/
    (0xE1 <= b0 <= 0xEC /\ 0x80 <= b1 <= 0xBF) \/
    (b0 = 0xED /\ 0x80 <= b1 <= 0x9F) \/
    (0xEE <= b0 <= 0xEF /\ 0x80 <= b1 <= 0xBF) ->
    0x80 <= b2 <= 0xBF ->
    well_formed_utf8 s -> well_formed_utf8 (b0 :: b1 :: b2 :: s)
| wf_four b0 b1 b2 b3 s :
    (b0 = 0xF0 /\ 0x90 <= b1 <= 0xBF) \/
    (0xF1 <= b0 <= 0xF3 /\ 0x80 <= b1 <= 0xBF) \/
    (b0 = 0xF4 /\ 0x80 <= b1 <= 0x8F) ->
    0x80 <= b2 <= 0xBF -> 0x80 <= b3 <= 0xBF ->
    well_formed_utf8 s -> well_formed_utf8 (b0 :: b1 :: b2 :: b3 :: s).

(** A Unicode scalar value. *)
Definition scalar (c : Z) : Prop :=
  0 <= c <= 0x10FFFF /\ ~ (0xD800 <= c <= 0xDFFF).

(** The text conversions the two primitives perform. *)
Definition to_wide (s : list Z) : list Z :=
  Win32.utf16_encode (Win32.utf8_decode 0 s).

Definition to_utf8 (w : list Z) : list Z :=
  Win32.utf8_encode (Win32.utf16_decode w).

(** [needle] occurs in [hay]. *)
Definition contains (needle hay : list Z) : Prop :=
  exists before after, hay = before ++ needle ++ after.

(** A string without the character [0]. *)
Definition no_nul (s : list Z) : Prop := ~ In 0 s.

(** A filter entry split on its first ['|']: the label before it and
    the pattern after it. *)
Fixpoint label_of (entry : list Z) : list Z :=
  match entry with
  | [] => []
  | c :: rest => if c =? PIPE then [] else c :: label_of rest
  end.

Fixpoint pattern_of (entry : list Z) : list Z :=
  match entry with
  | [] => []
  | c :: rest => if c =? PIPE then rest else pattern_of rest
  end.

(** The filter buffer of the claim: for each entry in order its label
    and its pattern, each followed by [0], and a final [0]. *)
Definition filter_buffer (filters : list (list Z)) : list Z :=
  flat_map (fun entry => to_wide (label_of entry) ++ [0]
                         ++ to_wide (pattern_of entry) ++ [0]) filters
  ++ [0].

(** The layout of the buffer a multi-select dialog returns: the first
    token, the tokens after it, the empty token, and whatever the rest
    of the buffer holds; every token is followed by [0]. *)
Definition selection_buffer (directory : list Z) (files : list (list Z))
    (rest : list Z) : list Z :=
  directory ++ 0 :: flat_map (fun t => t ++ [0]) files ++ 0 :: rest.

(** A token of that buffer after the first: not empty, and without [0]. *)
Definition file_token (t : list Z) : Prop := t <> [] /\ no_nul t.

(** A font name up to its first [" ("]: the name without its
    parenthetical suffix. *)
Fixpoint before_paren (name : list Z) : list Z :=
  match name with
  | [] => []
  | c :: rest =>
    if prefix SPACE_PAREN name then [] else c :: before_paren rest
  end.

(** The match of the claim: the lower-cased truncated name contains the
    lower-cased query. *)
Definition name_contains (towlower : Z -> Z) (query : list Z) (v : RegValue)
  : Prop :=
  contains (map towlower query)
           (map towlower (before_paren (c_str (valueName v)))).

(** The test the scanning loop applies to a value it has enumerated. *)
Definition selects (towlower : Z -> Z) (query : list Z) (v : RegValue) : bool :=
  (valueType v =? REG_SZ) && font_name_matches towlower query v.

(** A value [RegEnumValueW] can deliver into the buffers of the scanning
    loop: 256 characters for the name, 1024 bytes for the data. *)
Definition enumerable (v : RegValue) : Prop :=
  size (valueName v) < 256 /\ Registry.cbData v <= 1024.

(** The values of a key; none when the key cannot be opened. *)
Definition values_of (key : option (list RegValue)) : list RegValue :=
  match key with
  | Some values => values
  | None => []
  end.

(** The path reported for the first value of [values] that [test]
    accepts, the empty path when there is none. *)
Definition first_match (windowsDir : list Z) (test : RegValue -> bool)
    (values : list RegValue) : list Z :=
  match List.find test values with
  | Some v => font_path_of windowsDir v
  | None => []
  end.

(** [towlower] restricted to the letters A to Z. *)
Definition ascii_towlower (c : Z) : Z :=
  if (65 <=? c) && (c <=? 90) then c + 32 else c.

Definition REG_EXPAND_SZ : Z := 2.

(** The values of an [unsigned char], and a colour whose four channels
    are such values. *)
Definition byte (x : Z) : Prop := 0 <= x < 256.

Definition color_channels (c : SDL_Color) : Prop :=
  byte (r c) /\ byte (g c) /\ byte (b c) /\ byte (a c).

Definition MAX_PATH : Z := 260.

(** What a dialog function returned, if it returned. *)
Definition value_of {A : Type} (run : outcome (list syscall * option A))
  : option A :=
  match run with
  | Return (_, value) => value
  | _ => None
  end.

(** The control ids of the option buttons of a message box with [count]
    options. *)
Definition option_button (count : Z) (id : Z) : bool :=
  (__GCOMMMDLG_BTN_START <=? id) && (id <? __GCOMMMDLG_BTN_START + count).

(** The messages that can end a message box with [count] options: a
    command from an option button, the window-close request, the
    destruction of the window. *)
Definition ends_message_box (count : Z) (m : message) : bool :=
  match m with
  | WM_COMMAND wParam => option_button count (LOWORD wParam)
  | WM_CLOSE | WM_DESTROY => true
  | _ => false
  end.

(** The messages that can end the prompt dialog: a command from the OK
    or the Cancel button, the window-close request, the destruction of
    the window. *)
Definition ends_prompt (m : message) : bool :=
  match m with
  | WM_COMMAND wParam =>
    (LOWORD wParam =? __GCOMMMDLG_IDOK)
    || (LOWORD wParam =? __GCOMMMDLG_IDCANCEL)
  | WM_CLOSE | WM_DESTROY => true
  | _ => false
  end.

(** An event that leaves the prompt dialog open: the user edits the
    text, or a message that cannot end the dialog is dispatched. *)
Definition quiet (e : event) : bool :=
  match e with
  | UserEdits _ => true
  | Dispatch m => negb (ends_prompt m)
  end.

(** The text of the edit control after some events, from its initial
    text. *)
Definition edited_text (initial : list Z) (events : list event) : list Z :=
  fold_left (fun text e => match e with
                           | UserEdits t => c_str t
                           | Dispatch _ => text
                           end)
            events initial.

(** The command message a click on the control [id] sends. *)
Definition clicked (id : Z) (m : message) : Prop :=
  exists wParam, m = WM_COMMAND wParam /\ LOWORD wParam = id.

(** Text of the ASCII range. *)
Definition ascii_text (s : list Z) : Prop := Forall (fun c => 0 <= c < 128) s.

(** Well-formed UTF-16: code units outside the surrogate range, and
    surrogates in pairs, high before low. *)
Inductive well_formed_utf16 : list Z -> Prop :=
| wf16_empty : well_formed_utf16 []
| wf16_unit u w :
    0 <= u <= 0xFFFF -> ~ (0xD800 <= u <= 0xDFFF) ->
    well_formed_utf16 w -> well_formed_utf16 (u :: w)
| wf16_pair h l w :
    0xD800 <= h <= 0xDBFF -> 0xDC00 <= l <= 0xDFFF ->
    well_formed_utf16 w -> well_formed_utf16 (h :: l :: w).

(** A filter entry without the separator. *)
Definition lacks_pipe (entry : list Z) : bool :=
  match find_char PIPE entry with
  | None => true
  | Some _ => false
  end.

(** The strings a reader of a double-null-terminated array finds: the
    C strings one after the other, up to the first empty one.  [n]
    bounds the number of strings. *)
Fixpoint strings_of (n : nat) (array : list Z) : option (list (list Z)) :=
  match n with
  | O => None
  | S n' =>
    match read_cstr array with
    | None => None
    | Some ([], _) => Some []
    | Some (s, rest) => option_map (cons s) (strings_of n' rest)
    end
  end.

Definition double_null_strings (array : list Z) : option (list (list Z)) :=
  strings_of (length array) array.

(** The two strings a well-formed filter entry stands for. *)
Definition filter_pair (entry : list Z) : list (list Z) :=
  [to_wide (label_of entry); to_wide (pattern_of entry)].

(** A filter entry the dialog can read back: it has a separator with
    text on both sides, holds no [0] and fits an [int]. *)
Definition readable_filter (entry : list Z) : Prop :=
  In PIPE entry /\ label_of entry <> [] /\ pattern_of entry <> []
  /\ no_nul entry /\ size entry < 2 ^ 31.

(** What a picker's [OPENFILENAMEW] keeps of the arguments: the file
    buffer is as large as announced and holds the converted default
    name, terminated; an optional string is a null pointer exactly when
    the argument is empty. *)
Definition request_of (title initialDir defaultFileName defaultExt : list Z)
    (parentHWND : Z) (ofn : OPENFILENAMEW) : Prop :=
  size (lpstrFile ofn) = nMaxFile ofn
  /\ (exists defaultWide,
        utf8ToWide defaultFileName = Return defaultWide
        /\ c_str (lpstrFile ofn) = c_str defaultWide)
  /\ size (c_str (lpstrFile ofn)) < nMaxFile ofn
  /\ (lpstrTitle ofn = None <-> title = [])
  /\ (lpstrInitialDir ofn = None <-> initialDir = [])
  /\ (lpstrDefExt ofn = None <-> defaultExt = [])
  /\ hwndOwner ofn = parentHWND.

(** A dialog closed with OK by a user who changed nothing: the file
    buffer is left as the caller filled it. *)
Definition accept_unchanged (ofn : OPENFILENAMEW) : bool * list Z :=
  (true, lpstrFile ofn).

(** A registry value of string type. *)
Definition string_value (v : RegValue) : bool := valueType v =? REG_SZ.

(** The values of the two font keys in the order [FindFontFile] scans
    them. *)
Definition font_values (reg : registry) : list RegValue :=
  values_of (HKEY_LOCAL_MACHINE reg) ++ values_of (HKEY_CURRENT_USER reg).

(** The results a message box with these options can report for the
    user: 0, or the id of an option. *)
Definition chosen (options : list (Z * list Z)) (id : Z) : Prop :=
  id = 0 \/ In id (map fst options).

(** Two rectangles that share a point. *)
Definition overlap (p q : placement) : Prop :=
  X p < X q + cx q /\ X q < X p + cx p
  /\ Y p < Y q + cy q /\ Y q < Y p + cy p.

(** Where the two dialogs put their window on a screen, the size of
    the window given or computed from the number of options. *)
Definition prompt_window (wtitle : list Z) (SM_CXSCREEN SM_CYSCREEN : Z)
  : syscall :=
  CreateWindowExW PromptDialogClass (c_str wtitle)
                  (Z.quot SM_CXSCREEN 2 - 200) (Z.quot SM_CYSCREEN 2 - 90)
                  400 180.

Definition message_box_height (count : nat) : Z :=
  static_cast_int (140 + 40 * ((Z.of_nat count - 1) / 3)).

Definition message_box_window (g_boxTitle : list Z)
    (SM_CXSCREEN SM_CYSCREEN : Z) (count : nat) : syscall :=
  CreateWindowExW CustomMessageBoxClass (c_str g_boxTitle)
                  (Z.quot (SM_CXSCREEN - 380) 2)
                  (Z.quot (SM_CYSCREEN - message_box_height count) 2)
                  380 (message_box_height count).

(** A string of [2 ^ 32] letters [A]: well-formed UTF-8 whose size does
    not fit the [int] the conversion primitive takes. *)
Definition four_gigabytes : list Z := repeat 65 (Z.to_nat (2 ^ 32)).

(* ================================================================= *)
(** ** The conversions *)

Ltac compare_all :=
  repeat match goal with
         | |- context [Z.leb ?x ?y] => destruct (Z.leb_spec x y); try lia
         | |- context [Z.ltb ?x ?y] => destruct (Z.ltb_spec x y); try lia
         | |- context [Z.eqb ?x ?y] => destruct (Z.eqb_spec x y); try lia
         end;
  cbv [andb orb negb].

Lemma utf8_decode_skip (n : nat) (s : list Z) :
  Win32.utf8_decode n s = Win32.utf8_decode 0 (skipn n s).
Proof.
  revert n; induction s as [|b s IH]; intros n.
  - now destruct n.
  - destruct n as [|k]; [reflexivity|].
    simpl Win32.utf8_decode at 1. rewrite IH. reflexivity.
Qed.

Lemma utf8_decode_head (s : list Z) (c : Z) (n : nat) :
  Win32.utf8_scalar s = Some (c, S n) ->
  Win32.utf8_decode 0 s = c :: Win32.utf8_decode 0 (skipn (S n) s).
Proof.
  destruct s as [|b s]; [discriminate|]. intros H.
  change (Win32.utf8_decode 0 (b :: s))
    with (match Win32.utf8_scalar (b :: s) with
          | Some (c, n) => c :: Win32.utf8_decode (Nat.pred n) s
          | None => Win32.REPLACEMENT :: Win32.utf8_decode 0 s
          end).
  rewrite H. simpl Nat.pred. now rewrite utf8_decode_skip.
Qed.

Lemma utf8_scalar_one b0 s :
  0 <= b0 <= 0x7F -> Win32.utf8_scalar (b0 :: s) = Some (b0, 1%nat).
Proof. intros; unfold Win32.utf8_scalar; compare_all; reflexivity. Qed.

Lemma utf8_scalar_two b0 b1 s :
  0xC2 <= b0 <= 0xDF -> 0x80 <= b1 <= 0xBF ->
  Win32.utf8_scalar (b0 :: b1 :: s)
  = Some ((b0 - 0xC0) * 64 + (b1 - 0x80), 2%nat).
Proof.
  intros; unfold Win32.utf8_scalar, Win32.continuation.
  compare_all; reflexivity.
Qed.

Lemma utf8_scalar_three b0 b1 b2 s :
  (b0 = 0xE0 /\ 0xA0 <= b1 <= 0xBF) \/
  (0xE1 <= b0 <= 0xEC /\ 0x80 <= b1 <= 0xBF) \/
  (b0 = 0xED /\ 0x80 <= b1 <= 0x9F) \/
  (0xEE <= b0 <= 0xEF /\ 0x80 <= b1 <= 0xBF) ->
  0x80 <= b2 <= 0xBF ->
  Win32.utf8_scalar (b0 :: b1 :: b2 :: s)
  = Some ((b0 - 0xE0) * 4096 + (b1 - 0x80) * 64 + (b2 - 0x80), 3%nat).
Proof.
  intros H0 H2; unfold Win32.utf8_scalar, Win32.continuation, Win32.surrogate.
  cbv zeta. compare_all; reflexivity.
Qed.

Lemma utf8_scalar_four b0 b1 b2 b3 s :
  (b0 = 0xF0 /\ 0x90 <= b1 <= 0xBF) \/
  (0xF1 <= b0 <= 0xF3 /\ 0x80 <= b1 <= 0xBF) \/
  (b0 = 0xF4 /\ 0x80 <= b1 <= 0x8F) ->
  0x80 <= b2 <= 0xBF -> 0x80 <= b3 <= 0xBF ->
  Win32.utf8_scalar (b0 :: b1 :: b2 :: b3 :: s)
  = Some ((b0 - 0xF0) * 262144 + (b1 - 0x80) * 4096
          + (b2 - 0x80) * 64 + (b3 - 0x80), 4%nat).
Proof.
  intros H0 H2 H3; unfold Win32.utf8_scalar, Win32.continuation, Win32.surrogate.
  cbv zeta. compare_all; reflexivity.
Qed.

Ltac divmod := Z.div_mod_to_equations; lia.

Lemma utf8_bytes_two b0 b1 :
  0xC2 <= b0 <= 0xDF -> 0x80 <= b1 <= 0xBF ->
  Win32.utf8_bytes ((b0 - 0xC0) * 64 + (b1 - 0x80)) = [b0; b1].
Proof.
  intros; unfold Win32.utf8_bytes; compare_all.
  f_equal; [|f_equal]; divmod.
Qed.

Lemma utf8_bytes_three b0 b1 b2 :
  (b0 = 0xE0 /\ 0xA0 <= b1 <= 0xBF) \/
  (0xE1 <= b0 <= 0xEF /\ 0x80 <= b1 <= 0xBF) ->
  0x80 <= b2 <= 0xBF ->
  Win32.utf8_bytes ((b0 - 0xE0) * 4096 + (b1 - 0x80) * 64 + (b2 - 0x80))
  = [b0; b1; b2].
Proof.
  intros; unfold Win32.utf8_bytes; compare_all.
  f_equal; [|f_equal; [|f_equal]]; divmod.
Qed.

Lemma utf8_bytes_four b0 b1 b2 b3 :
  (b0 = 0xF0 /\ 0x90 <= b1 <= 0xBF) \/
  (0xF1 <= b0 <= 0xF4 /\ 0x80 <= b1 <= 0xBF) ->
  0x80 <= b2 <= 0xBF -> 0x80 <= b3 <= 0xBF ->
  Win32.utf8_bytes ((b0 - 0xF0) * 262144 + (b1 - 0x80) * 4096
                    + (b2 - 0x80) * 64 + (b3 - 0x80))
  = [b0; b1; b2; b3].
Proof.
  intros; unfold Win32.utf8_bytes; compare_all.
  f_equal; [|f_equal; [|f_equal; [|f_equal]]]; divmod.
Qed.

Lemma utf16_decode_cons (u : Z) (r : list Z) :
  Win32.utf16_decode (u :: r) =
  if Win32.high_surrogate u then
    match r with
    | [] => [Win32.REPLACEMENT]
    | l :: r' =>
      if Win32.low_surrogate l
      then (0x10000 + (u - 0xD800) * 1024 + (l - 0xDC00)) :: Win32.utf16_decode r'
      else Win32.REPLACEMENT :: Win32.utf16_decode r
    end
  else if Win32.low_surrogate u then Win32.REPLACEMENT :: Win32.utf16_decode r
  else u :: Win32.utf16_decode r.
Proof. reflexivity. Qed.

(** Decoding the code units of a scalar value gives the value back. *)
Lemma utf16_decode_units (c : Z) (w : list Z) :
  scalar c ->
  Win32.utf16_decode (Win32.utf16_units c ++ w) = c :: Win32.utf16_decode w.
Proof.
  intros [Hr Hs]; unfold Win32.utf16_units.
  destruct (Z.ltb_spec c 0x10000); cbn [app]; rewrite utf16_decode_cons;
    unfold Win32.high_surrogate, Win32.low_surrogate.
  - compare_all; reflexivity.
  - assert (0 <= (c - 0x10000) / 1024 < 1024) by divmod.
    assert (0 <= (c - 0x10000) mod 1024 < 1024) by divmod.
    compare_all. f_equal. divmod.
Qed.

Lemma utf16_units_length (c : Z) :
  (1 <= length (Win32.utf16_units c) <= 2)%nat.
Proof. unfold Win32.utf16_units; destruct (c <? 0x10000); simpl; lia. Qed.

(** One step of the round trip: a well-formed sequence [seq] with
    scalar value [c] at the head of a byte string. *)
Lemma round_trip_step (seq rest : list Z) (c : Z) (n : nat) :
  Win32.utf8_scalar (seq ++ rest) = Some (c, S n) ->
  length seq = S n ->
  Win32.utf8_bytes c = seq ->
  scalar c ->
  to_utf8 (to_wide rest) = rest ->
  to_utf8 (to_wide (seq ++ rest)) = seq ++ rest.
Proof.
  intros Hs Hn Hb Hc IH. unfold to_utf8, to_wide in *.
  rewrite (utf8_decode_head _ _ _ Hs).
  rewrite <- Hn, skipn_app, skipn_all, Nat.sub_diag. cbn [app skipn].
  unfold Win32.utf16_encode. cbn [flat_map].
  rewrite utf16_decode_units by assumption.
  unfold Win32.utf8_encode. cbn [flat_map]. rewrite Hb. f_equal. exact IH.
Qed.

Lemma to_wide_step (seq rest : list Z) (c : Z) (n : nat) :
  Win32.utf8_scalar (seq ++ rest) = Some (c, S n) ->
  length seq = S n ->
  to_wide (seq ++ rest) = Win32.utf16_units c ++ to_wide rest.
Proof.
  intros Hs Hn. unfold to_wide. rewrite (utf8_decode_head _ _ _ Hs).
  rewrite <- Hn, skipn_app, skipn_all, Nat.sub_diag. reflexivity.
Qed.

(** The UTF-8 to UTF-16 to UTF-8 round trip on well-formed text. *)
Lemma transcode_round_trip (s : list Z) :
  well_formed_utf8 s -> to_utf8 (to_wide s) = s.
Proof.
  induction 1 as [|b0 s H0 _ IH|b0 b1 s H0 H1 _ IH|b0 b1 b2 s H0 H2 _ IH
                  |b0 b1 b2 b3 s H0 H2 H3 _ IH].
  - reflexivity.
  - eapply (round_trip_step [b0] s);
      [now apply utf8_scalar_one | reflexivity | | unfold scalar; lia | exact IH].
    unfold Win32.utf8_bytes; compare_all; reflexivity.
  - eapply (round_trip_step [b0; b1] s);
      [now apply utf8_scalar_two | reflexivity | now apply utf8_bytes_two
      | unfold scalar; lia | exact IH].
  - eapply (round_trip_step [b0; b1; b2] s);
      [now apply utf8_scalar_three | reflexivity | apply utf8_bytes_three; lia
      | unfold scalar; lia | exact IH].
  - eapply (round_trip_step [b0; b1; b2; b3] s);
      [now apply utf8_scalar_four | reflexivity | apply utf8_bytes_four; lia
      | unfold scalar; lia | exact IH].
Qed.

(** Well-formed text does not grow when it is converted to UTF-16. *)
Lemma to_wide_length (s : list Z) :
  well_formed_utf8 s -> (length (to_wide s) <= length s)%nat.
Proof.
  induction 1 as [|b0 s H0 _ IH|b0 b1 s H0 H1 _ IH|b0 b1 b2 s H0 H2 _ IH
                  |b0 b1 b2 b3 s H0 H2 H3 _ IH].
  - simpl; lia.
  - change (b0 :: s) with ([b0] ++ s).
    rewrite (to_wide_step [b0] s b0 0) by (first [reflexivity | now apply utf8_scalar_one]).
    rewrite !length_app. unfold Win32.utf16_units.
    destruct (Z.ltb_spec b0 0x10000); [|lia]. simpl. lia.
  - change (b0 :: b1 :: s) with ([b0; b1] ++ s).
    erewrite (to_wide_step [b0; b1] s) by (first [reflexivity | now apply utf8_scalar_two]).
    rewrite !length_app. unfold Win32.utf16_units.
    match goal with |- context [Z.ltb ?x ?y] => destruct (Z.ltb_spec x y) end;
      [|lia]. simpl. lia.
  - change (b0 :: b1 :: b2 :: s) with ([b0; b1; b2] ++ s).
    erewrite (to_wide_step [b0; b1; b2] s) by (first [reflexivity | now apply utf8_scalar_three]).
    rewrite !length_app.
    pose proof (utf16_units_length
                  ((b0 - 0xE0) * 4096 + (b1 - 0x80) * 64 + (b2 - 0x80))).
    simpl length. lia.
  - change (b0 :: b1 :: b2 :: b3 :: s) with ([b0; b1; b2; b3] ++ s).
    erewrite (to_wide_step [b0; b1; b2; b3] s)
      by (first [reflexivity | now apply utf8_scalar_four]).
    rewrite !length_app.
    pose proof (utf16_units_length
                  ((b0 - 0xF0) * 262144 + (b1 - 0x80) * 4096
                   + (b2 - 0x80) * 64 + (b3 - 0x80))).
    simpl length. lia.
Qed.

(* ================================================================= *)
(** ** The encoding helpers *)

Lemma static_cast_int_small (n : Z) :
  0 <= n < 2 ^ 31 -> static_cast_int n = n.
Proof.
  intros H. unfold static_cast_int.
  rewrite Z.mod_small; [lia|].
  change (2 ^ 31) with 2147483648 in *. change (2 ^ 32) with 4294967296. lia.
Qed.

Lemma size_nonneg (s : list Z) : 0 <= size s.
Proof. unfold size; lia. Qed.

Lemma size_cons (c : Z) (s : list Z) : size (c :: s) = size s + 1.
Proof. unfold size; simpl length; lia. Qed.

Lemma size_app (s t : list Z) : size (s ++ t) = size s + size t.
Proof. unfold size; rewrite length_app; lia. Qed.

Lemma size_zero (s : list Z) : size s = 0 -> s = [].
Proof. destruct s; [reflexivity|]. rewrite size_cons. pose proof (size_nonneg s). lia. Qed.

(** The size query on a whole, non-empty source. *)
Lemma convert_query (f : list Z -> list Z) (src : list Z) :
  0 < size src ->
  Win32.convert f src (size src) [] 0
  = Win32.mkConversion (size (f src)) [] 0.
Proof.
  intros H. unfold Win32.convert, Win32.designated.
  destruct (Z.eqb_spec (size src) 0); [lia|].
  destruct (Z.ltb_spec (size src) 0); [lia|].
  rewrite (Nat2Z.id (length src) : Z.to_nat (size src) = length src).
  rewrite firstn_all. reflexivity.
Qed.

(** The conversion into a buffer of exactly the size asked for. *)
Lemma convert_fill (f : list Z -> list Z) (src : list Z) :
  0 < size src -> f src <> [] ->
  Win32.convert f src (size src)
                (repeat 0 (Z.to_nat (size (f src)))) (size (f src))
  = Win32.mkConversion (size (f src)) (f src) 0.
Proof.
  intros H Hne. unfold Win32.convert, Win32.designated.
  destruct (Z.eqb_spec (size src) 0); [lia|].
  destruct (Z.ltb_spec (size src) 0); [lia|].
  rewrite (Nat2Z.id (length src) : Z.to_nat (size src) = length src).
  rewrite firstn_all.
  destruct (Z.eqb_spec (size (f src)) 0) as [E|_];
    [apply size_zero in E; contradiction|].
  rewrite Z.ltb_irrefl. f_equal.
  unfold Win32.store, size. rewrite Nat2Z.id.
  rewrite skipn_all2 by (rewrite repeat_length; lia).
  apply app_nil_r.
Qed.

Lemma utf8_decode_nonempty (b : Z) (s : list Z) :
  Win32.utf8_decode 0 (b :: s) <> [].
Proof.
  change (Win32.utf8_decode 0 (b :: s))
    with (match Win32.utf8_scalar (b :: s) with
          | Some (c, n) => c :: Win32.utf8_decode (Nat.pred n) s
          | None => Win32.REPLACEMENT :: Win32.utf8_decode 0 s
          end).
  destruct (Win32.utf8_scalar (b :: s)) as [[c n]|]; discriminate.
Qed.

Lemma to_wide_nonempty (s : list Z) : s <> [] -> to_wide s <> [].
Proof.
  destruct s as [|b s]; [congruence|]. intros _. unfold to_wide.
  pose proof (utf8_decode_nonempty b s) as H.
  destruct (Win32.utf8_decode 0 (b :: s)) as [|c cs]; [congruence|].
  unfold Win32.utf16_encode; cbn [flat_map].
  pose proof (utf16_units_length c).
  destruct (Win32.utf16_units c); [simpl in *; lia|discriminate].
Qed.

Lemma utf8_bytes_nonempty (c : Z) : Win32.utf8_bytes c <> [].
Proof.
  unfold Win32.utf8_bytes.
  destruct (c <? 0x80); [discriminate|].
  destruct (c <? 0x800); [discriminate|].
  destruct (c <? 0x10000); discriminate.
Qed.

Lemma to_utf8_nonempty (w : list Z) : w <> [] -> to_utf8 w <> [].
Proof.
  destruct w as [|u w]; [congruence|]. intros _. unfold to_utf8.
  assert (H : Win32.utf16_decode (u :: w) <> []).
  { rewrite utf16_decode_cons.
    destruct (Win32.high_surrogate u).
    - destruct w as [|l w']; [discriminate|].
      destruct (Win32.low_surrogate l); discriminate.
    - destruct (Win32.low_surrogate u); discriminate. }
  destruct (Win32.utf16_decode (u :: w)) as [|c cs]; [congruence|].
  unfold Win32.utf8_encode; cbn [flat_map].
  pose proof (utf8_bytes_nonempty c).
  destruct (Win32.utf8_bytes c); [congruence|discriminate].
Qed.

(** A string whose size fits an [int] is converted, whatever it holds. *)
Lemma utf8ToWide_Return (s : list Z) :
  size s < 2 ^ 31 -> utf8ToWide s = Return (to_wide s).
Proof.
  intros Hs. destruct s as [|b s]; [reflexivity|].
  assert (Hpos : 0 < size (b :: s))
    by (rewrite size_cons; pose proof (size_nonneg s); lia).
  pose proof (to_wide_nonempty (b :: s) ltac:(discriminate)) as Hne.
  unfold utf8ToWide. cbn [empty].
  rewrite static_cast_int_small by lia.
  unfold Win32.MultiByteToWideChar.
  rewrite convert_query by assumption. cbn [Win32.returned].
  fold (to_wide (b :: s)).
  destruct (Z.eqb_spec (size (to_wide (b :: s))) 0) as [E|_];
    [apply size_zero in E; contradiction|].
  rewrite (convert_fill (fun s => Win32.utf16_encode (Win32.utf8_decode 0 s)))
    by assumption.
  cbn [Win32.returned Win32.written]. fold (to_wide (b :: s)).
  destruct (Z.eqb_spec (size (to_wide (b :: s))) 0) as [E|_];
    [apply size_zero in E; contradiction|reflexivity].
Qed.

Lemma wideToUtf8_Return (w : list Z) :
  size w < 2 ^ 31 -> wideToUtf8 w = Return (to_utf8 w).
Proof.
  intros Hs. destruct w as [|u w]; [reflexivity|].
  assert (Hpos : 0 < size (u :: w))
    by (rewrite size_cons; pose proof (size_nonneg w); lia).
  pose proof (to_utf8_nonempty (u :: w) ltac:(discriminate)) as Hne.
  unfold wideToUtf8. cbn [empty].
  rewrite static_cast_int_small by lia.
  unfold Win32.WideCharToMultiByte.
  rewrite convert_query by assumption. cbn [Win32.returned].
  fold (to_utf8 (u :: w)).
  destruct (Z.eqb_spec (size (to_utf8 (u :: w))) 0) as [E|_];
    [apply size_zero in E; contradiction|].
  rewrite (convert_fill (fun w => Win32.utf8_encode (Win32.utf16_decode w)))
    by assumption.
  cbn [Win32.returned Win32.written]. fold (to_utf8 (u :: w)).
  destruct (Z.eqb_spec (size (to_utf8 (u :: w))) 0) as [E|_];
    [apply size_zero in E; contradiction|reflexivity].
Qed.

(** A non-empty string whose size is a multiple of [2 ^ 32] reaches the
    primitive with a length of 0, which the primitive refuses. *)
Lemma utf8ToWide_Throw (s : list Z) :
  s <> [] -> static_cast_int (size s) = 0 ->
  utf8ToWide s
  = Throw (runtime_error (lit "UTF8 to wide conversion failed: "
                          ++ to_string Win32.ERROR_INVALID_PARAMETER)).
Proof.
  intros Hne Hc. destruct s as [|b s]; [congruence|].
  unfold utf8ToWide. cbn [empty]. rewrite Hc. reflexivity.
Qed.

Lemma well_formed_repeat_A (n : nat) : well_formed_utf8 (repeat 65 n).
Proof. induction n; simpl; constructor; [lia|assumption]. Qed.

Lemma utf8ToWide_multiple (c : Z) (n : nat) :
  Z.of_nat n = 2 ^ 32 ->
  utf8ToWide (repeat c n)
  = Throw (runtime_error (lit "UTF8 to wide conversion failed: "
                          ++ to_string Win32.ERROR_INVALID_PARAMETER)).
Proof.
  intros Hn. apply utf8ToWide_Throw.
  - destruct n; [discriminate Hn|discriminate].
  - unfold size. rewrite repeat_length, Hn. reflexivity.
Qed.

Lemma four_gigabytes_Throw :
  utf8ToWide four_gigabytes
  = Throw (runtime_error (lit "UTF8 to wide conversion failed: "
                          ++ to_string Win32.ERROR_INVALID_PARAMETER)).
Proof.
  apply utf8ToWide_multiple. apply Z2Nat.id. discriminate.
Qed.

(** C5 (amended).  Encoding round trip: for every well-formed UTF-8
    string [s] of fewer than [2 ^ 31] bytes, the empty string included,
    [utf8ToWide] returns and [wideToUtf8] of its result returns [s]. *)
Theorem utf8_wide_round_trip (s : list Z) :
  well_formed_utf8 s -> size s < 2 ^ 31 ->
  (wide <- utf8ToWide s ;; wideToUtf8 wide) = Return s.
Proof.
  intros Hwf Hs. rewrite utf8ToWide_Return by assumption. cbn [bind].
  rewrite wideToUtf8_Return.
  - now rewrite transcode_round_trip.
  - pose proof (to_wide_length s Hwf). unfold size in *. lia.
Qed.

(** The round trip on a string with characters of one, two, three and
    four bytes. *)
Lemma utf8_wide_round_trip_witness :
  (wide <- utf8ToWide [0x68; 0xC3; 0xA9; 0xE2; 0x82; 0xAC; 0xF0; 0x9F; 0x98; 0x80] ;;
   wideToUtf8 wide)
  = Return [0x68; 0xC3; 0xA9; 0xE2; 0x82; 0xAC; 0xF0; 0x9F; 0x98; 0x80].
Proof.
  apply utf8_wide_round_trip.
  - apply wf_one; [lia|]. apply wf_two; [lia|lia|].
    apply wf_three; [lia|lia|]. apply wf_four; [lia|lia|lia|]. apply wf_empty.
  - reflexivity.
Defined.

(** C5 as stated fails: a well-formed string of [2 ^ 32] bytes is not
    converted, [utf8ToWide] throws. *)
Lemma utf8_wide_round_trip_counterexample :
  well_formed_utf8 four_gigabytes /\
  (wide <- utf8ToWide four_gigabytes ;; wideToUtf8 wide)
  = Throw (runtime_error (lit "UTF8 to wide conversion failed: "
                          ++ to_string Win32.ERROR_INVALID_PARAMETER)).
Proof.
  split.
  - apply well_formed_repeat_A.
  - now rewrite four_gigabytes_Throw.
Qed.

(* ================================================================= *)
(** ** The filter-string builder *)

Lemma find_char_None (c : Z) (s : list Z) :
  find_char c s = None <-> ~ In c s.
Proof.
  induction s as [|x s IH]; simpl.
  - tauto.
  - destruct (Z.eqb_spec x c) as [->|Hne].
    + split; [discriminate|tauto].
    + destruct (find_char c s); simpl.
      * split; [discriminate|]. intros H. exfalso. apply H. right.
        destruct IH as [_ IH]. destruct (In_dec Z.eq_dec c s) as [i|ni]; [exact i|].
        discriminate (IH ni).
      * split; [|reflexivity]. intros _ [E|i]; [congruence|].
        now apply (proj1 IH).
Qed.

(** [find] and the two [substr] calls split an entry on its first ['|']. *)
Lemma find_char_split (entry : list Z) (pipePos : nat) :
  find_char PIPE entry = Some pipePos ->
  substr_to pipePos entry = label_of entry /\
  substr_from (pipePos + 1) entry = pattern_of entry.
Proof.
  revert pipePos; induction entry as [|x s IH]; intros n; simpl; [discriminate|].
  destruct (Z.eqb_spec x PIPE) as [->|Hne].
  - intros [= <-]. split; reflexivity.
  - destruct (find_char PIPE s) as [m|]; simpl; [|discriminate].
    intros [= <-]. destruct (IH m eq_refl) as [H1 H2].
    unfold substr_to, substr_from in *. simpl. now rewrite H1, H2.
Qed.

(** What "split on its first ['|']" means for [label_of] and [pattern_of]. *)
Lemma split_on_first_pipe (entry : list Z) :
  In PIPE entry ->
  entry = label_of entry ++ PIPE :: pattern_of entry /\
  ~ In PIPE (label_of entry).
Proof.
  induction entry as [|x s IH]; simpl; [tauto|].
  destruct (Z.eqb_spec x PIPE) as [->|Hne]; [simpl; tauto|].
  intros [E|i]; [congruence|]. destruct (IH i) as [H1 H2].
  split; [simpl; now rewrite <- H1|]. simpl. intros [E|j]; [congruence|tauto].
Qed.

Lemma label_size (entry : list Z) : size (label_of entry) <= size entry.
Proof.
  induction entry as [|x s IH]; simpl; [lia|].
  destruct (x =? PIPE); rewrite ?size_cons; unfold size in *; simpl; lia.
Qed.

Lemma pattern_size (entry : list Z) : size (pattern_of entry) <= size entry.
Proof.
  induction entry as [|x s IH]; simpl; [lia|].
  destruct (x =? PIPE); rewrite ?size_cons; unfold size in *; simpl; lia.
Qed.

(** One entry with a ['|'] and of a size that fits an [int] adds its
    two terminated halves. *)
Lemma buildFilter_for_cons (entry : list Z) (rest : list (list Z))
    (filterStr : list Z) :
  In PIPE entry -> size entry < 2 ^ 31 ->
  buildFilter_for (entry :: rest) filterStr
  = buildFilter_for rest
      (filterStr ++ to_wide (label_of entry) ++ [0]
                 ++ to_wide (pattern_of entry) ++ [0]).
Proof.
  intros Hin Hs. cbn [buildFilter_for].
  destruct (find_char PIPE entry) as [pipePos|] eqn:E;
    [|apply find_char_None in E; contradiction].
  destruct (find_char_split _ _ E) as [-> ->].
  pose proof (label_size entry). pose proof (pattern_size entry).
  rewrite !utf8ToWide_Return by lia. cbn [bind].
  now rewrite <- !app_assoc.
Qed.

Lemma buildFilter_for_Return (filters : list (list Z)) (filterStr : list Z) :
  Forall (fun entry => size entry < 2 ^ 31) filters ->
  (forall entry, In entry filters -> In PIPE entry) ->
  buildFilter_for filters filterStr
  = Return (filterStr
            ++ flat_map (fun entry => to_wide (label_of entry) ++ [0]
                                      ++ to_wide (pattern_of entry) ++ [0])
                        filters).
Proof.
  intros Hs; revert filterStr; induction Hs as [|e l He _ IH]; intros acc Hp.
  - simpl. now rewrite app_nil_r.
  - rewrite buildFilter_for_cons by (auto using in_eq).
    rewrite IH by (intros; apply Hp; now right).
    cbn [flat_map]. now rewrite <- !app_assoc.
Qed.

Lemma buildFilter_for_Throw (filters : list (list Z)) (filterStr : list Z) :
  Forall (fun entry => size entry < 2 ^ 31) filters ->
  (exists entry, In entry filters /\ ~ In PIPE entry) ->
  exists entry, In entry filters /\ ~ In PIPE entry /\
    buildFilter_for filters filterStr
    = Throw (invalid_argument (filter_format_message entry)).
Proof.
  intros Hs; revert filterStr; induction Hs as [|e l He _ IH]; intros acc [x [Hx Hn]].
  - destruct Hx.
  - destruct (In_dec Z.eq_dec PIPE e) as [i|ni].
    + rewrite buildFilter_for_cons by assumption.
      destruct Hx as [->|Hx]; [contradiction|].
      destruct (IH (acc ++ to_wide (label_of e) ++ [0]
                        ++ to_wide (pattern_of e) ++ [0]))
        as [y [Hy [Hny Ey]]]; [now exists x|].
      exists y. split; [now right|]. split; assumption.
    + exists e. split; [now left|]. split; [assumption|].
      cbn [buildFilter_for]. apply find_char_None in ni. now rewrite ni.
Qed.

(** A pattern the conversion refuses makes [buildFilter] throw the
    conversion's exception. *)
Lemma buildFilter_runtime_error (pattern : list Z) (e : exception) :
  utf8ToWide pattern = Throw e ->
  buildFilter [PIPE :: pattern] = Throw e.
Proof.
  intros H. unfold buildFilter. cbn [buildFilter_for find_char].
  change (PIPE =? PIPE) with true. cbv iota.
  unfold substr_to, substr_from. cbn [firstn Nat.add skipn].
  change (utf8ToWide []) with (Return (A := list Z) []). cbn [bind].
  rewrite H. reflexivity.
Qed.

Lemma refused_pattern (pattern : list Z) (e : exception) :
  utf8ToWide pattern = Throw e ->
  In PIPE (PIPE :: pattern) /\ buildFilter [PIPE :: pattern] = Throw e.
Proof.
  intros H. split; [apply in_eq|]. now apply buildFilter_runtime_error.
Qed.

(** C2 (amended).  For every list of filter strings of fewer than
    [2 ^ 31] bytes each: [buildFilter] raises the format error
    ([std::invalid_argument], not the [std::runtime_error] of a failed
    conversion) if and only if some entry contains no ['|']; otherwise
    it returns the buffer in which every entry, in order, contributes
    its label and its pattern (the halves around its first ['|'], see
    [split_on_first_pipe]), each followed by a null, with one more null
    at the end; the array handed to the dialog, which adds the string's
    own terminator, always ends with two nulls. *)
Theorem buildFilter_spec (filters : list (list Z)) :
  Forall (fun entry => size entry < 2 ^ 31) filters ->
  ((exists what, buildFilter filters = Throw (invalid_argument what))
   <-> (exists entry, In entry filters /\ ~ In PIPE entry))
  /\ ((forall entry, In entry filters -> In PIPE entry) ->
      buildFilter filters = Return (filter_buffer filters)
      /\ exists body, c_array (filter_buffer filters) = body ++ [0; 0]).
Proof.
  intros Hs. split; [split|].
  - intros [what H].
    destruct (Exists_dec (fun entry => ~ In PIPE entry) filters) as [ex|nex].
    + intros e. destruct (In_dec Z.eq_dec PIPE e); [right|left]; tauto.
    + apply Exists_exists in ex. exact ex.
    + exfalso. unfold buildFilter in H.
      rewrite buildFilter_for_Return in H; [discriminate|assumption|].
      intros e He. destruct (In_dec Z.eq_dec PIPE e) as [i|ni]; [exact i|].
      exfalso. apply nex. apply Exists_exists. now exists e.
  - intros Hex.
    destruct (buildFilter_for_Throw filters [] Hs Hex) as [e [_ [_ E]]].
    exists (filter_format_message e). unfold buildFilter. now rewrite E.
  - intros Hp. split.
    + unfold buildFilter. now rewrite buildFilter_for_Return.
    + unfold c_array, filter_buffer. rewrite <- app_assoc. eexists. reflexivity.
Qed.

(** The examples of the claim: the text-files entry gives its label and
    its pattern, each terminated; [badfilter] raises the format error. *)
Lemma buildFilter_spec_witness :
  buildFilter [lit "Text(" ++ lit "*.txt)|*.txt"]
  = Return (L "Text(" ++ L "*.txt)" ++ [0] ++ L "*.txt" ++ [0] ++ [0])
  /\ exists what, buildFilter [lit "badfilter"] = Throw (invalid_argument what).
Proof.
  split.
  - refine (proj1 (proj2 (buildFilter_spec [lit "Text(" ++ lit "*.txt)|*.txt"] _) _)).
    + repeat constructor.
    + intros e [<-|[]]. vm_compute. tauto.
  - refine (proj2 (proj1 (buildFilter_spec [lit "badfilter"] _)) _).
    + repeat constructor.
    + exists (lit "badfilter"). split; [now left|].
      vm_compute. intuition discriminate.
Defined.

(** C2 as stated fails: the only entry of this list contains ['|'], and
    [buildFilter] does not return a buffer; the conversion of the
    [2 ^ 32]-byte pattern fails and its runtime error is thrown. *)
Lemma buildFilter_spec_counterexample :
  In PIPE (PIPE :: four_gigabytes)
  /\ buildFilter [PIPE :: four_gigabytes]
     = Throw (runtime_error (lit "UTF8 to wide conversion failed: "
                             ++ to_string Win32.ERROR_INVALID_PARAMETER)).
Proof.
  exact (refused_pattern four_gigabytes _ four_gigabytes_Throw).
Qed.

(* ================================================================= *)
(** ** The file pickers *)

Lemma read_cstr_app (s rest : list Z) :
  no_nul s -> read_cstr (s ++ 0 :: rest) = Some (s, rest).
Proof.
  unfold no_nul. induction s as [|c s IH]; intros H; simpl.
  - reflexivity.
  - destruct (Z.eqb_spec c 0) as [->|_]; [exfalso; apply H; now left|].
    rewrite IH; [reflexivity|]. intros i. apply H. now right.
Qed.

Lemma selected_files_spec (directory rest : list Z) (files : list (list Z)) :
  forall (n : nat) (selectedFiles : list (list Z)),
  Forall file_token files ->
  (length files < n)%nat ->
  (forall t, In t files -> size (directory ++ BACKSLASH :: t) < 2 ^ 31) ->
  selected_files n directory
                 (flat_map (fun t => t ++ [0]) files ++ 0 :: rest)
                 selectedFiles
  = Return (selectedFiles
            ++ map (fun t => to_utf8 (directory ++ BACKSLASH :: t)) files).
Proof.
  induction files as [|t files IH]; intros n acc Hf Hn Hs.
  - destruct n; [simpl in Hn; lia|]. simpl. now rewrite app_nil_r.
  - destruct n; [simpl in Hn; lia|].
    inversion Hf as [|? ? [Hne Hnul] Hf']; subst.
    cbn [flat_map]. rewrite <- !app_assoc.
    destruct t as [|c t]; [congruence|].
    cbn [selected_files app].
    destruct (Z.eqb_spec c 0) as [->|_]; [exfalso; apply Hnul; now left|].
    change (c :: t ++ 0 :: ?x) with ((c :: t) ++ 0 :: x).
    rewrite read_cstr_app by assumption.
    rewrite wideToUtf8_Return by (apply Hs; now left). cbn [bind].
    rewrite IH; [|assumption|simpl in Hn; lia|intros; apply Hs; now right].
    cbn [map]. now rewrite <- app_assoc.
Qed.

Lemma flat_map_tokens_length (files : list (list Z)) :
  (length files <= length (flat_map (fun t => t ++ [0%Z]) files))%nat.
Proof.
  induction files as [|t l IH]; simpl; [lia|].
  rewrite !length_app. simpl. lia.
Qed.

Lemma token_size (files : list (list Z)) (t : list Z) :
  In t files -> size t < size (flat_map (fun t => t ++ [0]) files).
Proof.
  induction files as [|x l IH]; intros Hin; [destruct Hin|].
  cbn [flat_map]. rewrite !size_app.
  pose proof (size_nonneg (flat_map (fun t => t ++ [0]) l)).
  pose proof (size_nonneg x).
  change (size [0]) with 1.
  destruct Hin as [<-|i]; [lia|]. specialize (IH i). lia.
Qed.

(** The parse of a buffer laid out as the dialog lays it out. *)
Lemma parse_selection_spec (directory rest : list Z) (files : list (list Z)) :
  no_nul directory -> Forall file_token files ->
  size (selection_buffer directory files rest) <= 65536 ->
  parse_selection (selection_buffer directory files rest)
  = Return (match files with
            | [] => [to_utf8 directory]
            | _ :: _ =>
              map (fun t => to_utf8 (directory ++ BACKSLASH :: t)) files
            end).
Proof.
  intros Hd Hf Hsize. unfold parse_selection, selection_buffer in *.
  rewrite size_app, size_cons, size_app, size_cons in Hsize.
  pose proof (size_nonneg directory). pose proof (size_nonneg rest).
  pose proof (size_nonneg (flat_map (fun t => t ++ [0]) files)).
  rewrite read_cstr_app by assumption.
  destruct files as [|t files].
  - cbn [flat_map app]. rewrite Z.eqb_refl.
    rewrite wideToUtf8_Return by lia. reflexivity.
  - set (ptr := flat_map (fun t => t ++ [0]) (t :: files) ++ 0 :: rest).
    assert (Hhead : exists c ptr', ptr = c :: ptr' /\ c <> 0).
    { inversion Hf as [|? ? [Hne Hnul] _]; subst.
      destruct t as [|c t']; [congruence|].
      exists c. eexists. split; [reflexivity|].
      intros ->. apply Hnul. now left. }
    destruct Hhead as [c [ptr' [E Hc]]]. rewrite E.
    destruct (Z.eqb_spec c 0); [contradiction|]. rewrite <- E.
    unfold ptr. rewrite selected_files_spec.
    + reflexivity.
    + assumption.
    + rewrite !length_app.
      pose proof (flat_map_tokens_length (t :: files)). simpl length in *. lia.
    + intros x Hx. pose proof (token_size _ _ Hx).
      rewrite size_app, size_cons.
      change (2 ^ 31) with 2147483648. lia.
Qed.

(** C1.  When the dialog succeeds and leaves, in the buffer of 65536
    characters it was given, a first token [directory],
    [getOpenMultipleFileNames] returns: the one-element list with
    [directory] itself when the token after it is empty; otherwise, for
    every following token [t], in order up to the first empty token,
    the entry [directory + '\' + t].  Every entry is returned as UTF-8. *)
Theorem getOpenMultipleFileNames_parse
    (GetOpenFileNameW : OPENFILENAMEW -> bool * list Z)
    (CommDlgExtendedError : Z)
    (filters : list (list Z))
    (title initialDir defaultFileName defaultExt : list Z) (parentHWND : Z)
    (ofn : OPENFILENAMEW)
    (directory rest : list Z) (files : list (list Z)) :
  multiple_request filters title initialDir defaultFileName defaultExt
                   parentHWND = Return ofn ->
  GetOpenFileNameW ofn = (true, selection_buffer directory files rest) ->
  no_nul directory -> Forall file_token files ->
  size (selection_buffer directory files rest) <= 65536 ->
  getOpenMultipleFileNames GetOpenFileNameW CommDlgExtendedError
    filters title initialDir defaultFileName defaultExt parentHWND
  = Return (match files with
            | [] => [to_utf8 directory]
            | _ :: _ =>
              map (fun t => to_utf8 (directory ++ BACKSLASH :: t)) files
            end).
Proof.
  intros Hreq Hdlg Hd Hf Hsize. unfold getOpenMultipleFileNames.
  rewrite Hreq. cbn [bind]. rewrite Hdlg. cbn [negb].
  now apply parse_selection_spec.
Qed.

(** The two buffers of the claim: a directory with two file names, and a
    single full path. *)
Lemma getOpenMultipleFileNames_parse_witness :
  getOpenMultipleFileNames
    (fun _ => (true, L "C:\dir" ++ [0] ++ L "a.txt" ++ [0] ++ L "b.txt" ++ [0; 0]))
    0 [] [] [] [] [] 0
  = Return [lit "C:\dir\a.txt"; lit "C:\dir\b.txt"]
  /\ getOpenMultipleFileNames
       (fun _ => (true, L "C:\dir\only.txt" ++ [0; 0])) 0 [] [] [] [] [] 0
     = Return [lit "C:\dir\only.txt"].
Proof.
  split.
  - refine (getOpenMultipleFileNames_parse
              _ 0 [] [] [] [] [] 0 _ (L "C:\dir") [] [L "a.txt"; L "b.txt"]
              eq_refl eq_refl _ _ _).
    + vm_compute. intuition discriminate.
    + repeat constructor; vm_compute; intuition discriminate.
    + vm_compute. discriminate.
  - refine (getOpenMultipleFileNames_parse
              _ 0 [] [] [] [] [] 0 _ (L "C:\dir\only.txt") [] []
              eq_refl eq_refl _ _ _).
    + vm_compute. intuition discriminate.
    + constructor.
    + vm_compute. discriminate.
Defined.

(** C6.  Cancellation is not an error.  In each of the three pickers,
    once the request has been built and the native dialog call reports
    failure: the function returns the empty result (empty string, empty
    list) without throwing when the extended error is zero, and throws
    a runtime error whose message carries the code when it is not. *)
Theorem cancellation_is_not_an_error
    (GetOpenFileNameW GetSaveFileNameW : OPENFILENAMEW -> bool * list Z)
    (CommDlgExtendedError : Z)
    (filters : list (list Z))
    (title initialDir defaultFileName defaultExt : list Z) (parentHWND : Z) :
  (forall ofn buffer,
     open_request filters title initialDir defaultFileName defaultExt
                  parentHWND = Return ofn ->
     GetOpenFileNameW ofn = (false, buffer) ->
     getOpenFileName GetOpenFileNameW CommDlgExtendedError
       filters title initialDir defaultFileName defaultExt parentHWND
     = if CommDlgExtendedError =? 0 then Return []
       else Throw (runtime_error (lit "Open file dialog failed: "
                                  ++ to_string CommDlgExtendedError)))
  /\ (forall ofn buffer,
     save_request filters title initialDir defaultFileName defaultExt
                  parentHWND = Return ofn ->
     GetSaveFileNameW ofn = (false, buffer) ->
     getSaveFileName GetSaveFileNameW CommDlgExtendedError
       filters title initialDir defaultFileName defaultExt parentHWND
     = if CommDlgExtendedError =? 0 then Return []
       else Throw (runtime_error (lit "Save file dialog failed: "
                                  ++ to_string CommDlgExtendedError)))
  /\ (forall ofn buffer,
     multiple_request filters title initialDir defaultFileName defaultExt
                      parentHWND = Return ofn ->
     GetOpenFileNameW ofn = (false, buffer) ->
     getOpenMultipleFileNames GetOpenFileNameW CommDlgExtendedError
       filters title initialDir defaultFileName defaultExt parentHWND
     = if CommDlgExtendedError =? 0 then Return []
       else Throw (runtime_error (lit "Open file dialog failed: "
                                  ++ to_string CommDlgExtendedError))).
Proof.
  repeat split; intros ofn buffer Hreq Hdlg.
  - unfold getOpenFileName. rewrite Hreq. cbn [bind]. rewrite Hdlg. cbn [negb].
    now destruct (CommDlgExtendedError =? 0).
  - unfold getSaveFileName. rewrite Hreq. cbn [bind]. rewrite Hdlg. cbn [negb].
    now destruct (CommDlgExtendedError =? 0).
  - unfold getOpenMultipleFileNames. rewrite Hreq. cbn [bind]. rewrite Hdlg.
    cbn [negb]. now destruct (CommDlgExtendedError =? 0).
Qed.

(** A cancelled open dialog, a save dialog failing with code 2, and a
    cancelled multi-select dialog. *)
Lemma cancellation_is_not_an_error_witness :
  getOpenFileName (fun ofn => (false, lpstrFile ofn)) 0
    [lit "All|*.*"] (lit "Open") [] [] [] 0 = Return []
  /\ getSaveFileName (fun ofn => (false, lpstrFile ofn)) 2
       [lit "All|*.*"] (lit "Save") [] [] [] 0
     = Throw (runtime_error (lit "Save file dialog failed: 2"))
  /\ getOpenMultipleFileNames (fun ofn => (false, lpstrFile ofn)) 0
       [lit "All|*.*"] (lit "Open") [] [] [] 0 = Return [].
Proof.
  split; [|split].
  - exact (proj1 (cancellation_is_not_an_error
                    (fun ofn => (false, lpstrFile ofn))
                    (fun ofn => (false, lpstrFile ofn)) 0
                    [lit "All|*.*"] (lit "Open") [] [] [] 0)
                 _ _ eq_refl eq_refl).
  - exact (proj1 (proj2 (cancellation_is_not_an_error
                    (fun ofn => (false, lpstrFile ofn))
                    (fun ofn => (false, lpstrFile ofn)) 2
                    [lit "All|*.*"] (lit "Save") [] [] [] 0))
                 _ _ eq_refl eq_refl).
  - exact (proj2 (proj2 (cancellation_is_not_an_error
                    (fun ofn => (false, lpstrFile ofn))
                    (fun ofn => (false, lpstrFile ofn)) 0
                    [lit "All|*.*"] (lit "Open") [] [] [] 0))
                 _ _ eq_refl eq_refl).
Defined.

(* ================================================================= *)
(** ** The font-path resolver *)

Lemma prefix_true (needle hay : list Z) :
  prefix needle hay = true <-> exists after, hay = needle ++ after.
Proof.
  revert hay; induction needle as [|x needle IH]; intros hay; simpl.
  - split; [intros _; now exists hay|reflexivity].
  - destruct hay as [|y hay].
    + split; [discriminate|intros [after H]; discriminate].
    + rewrite andb_true_iff, Z.eqb_eq, IH. split.
      * intros [-> [after ->]]. now exists after.
      * intros [after [= -> ->]]. split; [reflexivity|now exists after].
Qed.

Lemma find_contains (needle hay : list Z) :
  find needle hay <> None <-> contains needle hay.
Proof.
  unfold contains. induction hay as [|y hay IH].
  - cbn [find]. destruct (prefix needle []) eqn:E.
    + split; [intros _|discriminate]. apply prefix_true in E.
      destruct E as [after E]. now exists [], after.
    + split; [congruence|]. intros [before [after H]].
      assert (P : prefix needle [] = true).
      { apply prefix_true. destruct before; [|discriminate].
        now exists after. }
      congruence.
  - cbn [find]. destruct (prefix needle (y :: hay)) eqn:E.
    + split; [intros _|discriminate]. apply prefix_true in E.
      destruct E as [after E]. now exists [], after.
    + split.
      * intros H. destruct (find needle hay); [|simpl in H; congruence].
        destruct (proj1 IH ltac:(discriminate)) as [before [after ->]].
        now exists (y :: before), after.
      * intros [before [after H]]. destruct before as [|b before].
        -- assert (P : prefix needle (y :: hay) = true)
             by (apply prefix_true; now exists after).
           congruence.
        -- injection H as _ H.
           assert (N : find needle hay <> None)
             by (apply IH; now exists before, after).
           destruct (find needle hay); [discriminate|congruence].
Qed.

(** [find] and [substr] cut a name where [before_paren] cuts it. *)
Lemma truncate_before_paren (name : list Z) :
  match find SPACE_PAREN name with
  | Some pos => substr_to pos name
  | None => name
  end = before_paren name.
Proof.
  induction name as [|c name IH]; [reflexivity|].
  cbn [find before_paren].
  destruct (prefix SPACE_PAREN (c :: name)); [reflexivity|].
  destruct (find SPACE_PAREN name) as [pos|]; cbn [option_map].
  - unfold substr_to in *. cbn [firstn]. now rewrite IH.
  - now rewrite <- IH.
Qed.

Lemma font_name_matches_contains (towlower : Z -> Z) (query : list Z)
    (v : RegValue) :
  font_name_matches towlower query v = true <-> name_contains towlower query v.
Proof.
  unfold font_name_matches, name_contains.
  rewrite truncate_before_paren, <- find_contains.
  destruct (find _ _); split; congruence.
Qed.

Lemma font_path_nonempty (windowsDir : list Z) (v : RegValue) :
  font_path_of windowsDir v <> [].
Proof.
  unfold font_path_of.
  destruct (find_char COLON (c_str (valueData v))) eqn:E.
  - destruct (c_str (valueData v)); [discriminate E|discriminate].
  - destruct windowsDir; discriminate.
Qed.

Lemma skipn_nth_error {A : Type} (l : list A) (i : nat) (x : A) :
  nth_error l i = Some x -> skipn i l = x :: skipn (S i) l.
Proof.
  revert i; induction l as [|y l IH]; intros [|i]; simpl; try discriminate.
  - now intros [= ->].
  - intros H. now rewrite (IH i H).
Qed.

(** The scanning loop finds the first value its test accepts. *)
Lemma enumerate_first_match (towlower : Z -> Z) (windowsDir query : list Z)
    (values : list RegValue) :
  Forall enumerable values ->
  forall n index, (length values - index < n)%nat ->
  enumerate towlower windowsDir values query n index
  = first_match windowsDir (selects towlower query) (skipn index values).
Proof.
  intros He. induction n as [|n IH]; intros index Hn; [lia|].
  cbn [enumerate]. unfold Registry.RegEnumValueW, first_match.
  destruct (nth_error values index) as [v|] eqn:E.
  - assert (Hv : enumerable v).
    { rewrite Forall_forall in He. apply He. eapply nth_error_In; eauto. }
    destruct Hv as [Hname Hdata].
    destruct (Z.leb_spec 256 (size (valueName v))); [lia|].
    destruct (Z.ltb_spec 1024 (Registry.cbData v)); [lia|].
    cbn [orb]. change (negb (ERROR_SUCCESS =? ERROR_SUCCESS)) with false.
    cbv iota. rewrite (skipn_nth_error _ _ _ E). cbn [List.find].
    fold (selects towlower query v).
    destruct (selects towlower query v); [reflexivity|].
    rewrite IH; [reflexivity|].
    assert (index < length values)%nat by (apply nth_error_Some; congruence).
    lia.
  - change (negb (ERROR_NO_MORE_ITEMS =? ERROR_SUCCESS)) with true. cbv iota.
    apply nth_error_None in E. rewrite skipn_all2 by lia. reflexivity.
Qed.

Lemma scan_key_first_match (towlower : Z -> Z) (windowsDir query : list Z)
    (key : option (list RegValue)) :
  Forall enumerable (values_of key) ->
  scan_key towlower windowsDir key query
  = first_match windowsDir (selects towlower query) (values_of key).
Proof.
  destruct key as [values|]; [|reflexivity]. intros He. unfold scan_key.
  rewrite enumerate_first_match by (assumption || lia). reflexivity.
Qed.

Lemma first_match_empty (windowsDir : list Z) (test : RegValue -> bool)
    (values : list RegValue) :
  empty (first_match windowsDir test values) = true
  <-> List.find test values = None.
Proof.
  unfold first_match. destruct (List.find test values) as [v|].
  - pose proof (font_path_nonempty windowsDir v).
    destruct (font_path_of windowsDir v); [congruence|].
    split; discriminate.
  - split; reflexivity.
Qed.

(** C4 (amended).  Font file lookup, for every query and every registry
    whose values fit the buffers of the scanning loop.  A value matches
    if and only if it is of type [REG_SZ] and its name, cut before its
    parenthetical suffix and lower-cased, contains the lower-cased
    query.  The first matching value in enumeration order wins; the
    per-machine list is scanned first and the per-user list only when
    the per-machine scan found no match; when neither scan matches the
    empty path is returned, and no error is signalled. *)
Theorem FindFontFile_spec (towlower : Z -> Z) (windowsDir query : list Z)
    (reg : registry) :
  Forall enumerable (values_of (HKEY_LOCAL_MACHINE reg)) ->
  Forall enumerable (values_of (HKEY_CURRENT_USER reg)) ->
  (forall v, selects towlower query v = true
             <-> valueType v = REG_SZ /\ name_contains towlower query v)
  /\ FindFontFile towlower windowsDir reg query
     = match List.find (selects towlower query)
                       (values_of (HKEY_LOCAL_MACHINE reg)) with
       | Some v => font_path_of windowsDir v
       | None =>
         match List.find (selects towlower query)
                         (values_of (HKEY_CURRENT_USER reg)) with
         | Some v => font_path_of windowsDir v
         | None => []
         end
       end.
Proof.
  intros Hlm Hcu. split.
  - intros v. unfold selects.
    now rewrite andb_true_iff, Z.eqb_eq, font_name_matches_contains.
  - unfold FindFontFile, FindFontFileLocalMachine, FindFontFileCurrentUser.
    rewrite !scan_key_first_match by assumption.
    destruct (empty (first_match windowsDir (selects towlower query)
                       (values_of (HKEY_LOCAL_MACHINE reg)))) eqn:E.
    + apply first_match_empty in E. rewrite E. reflexivity.
    + unfold first_match in *.
      destruct (List.find (selects towlower query)
                  (values_of (HKEY_LOCAL_MACHINE reg))); [reflexivity|].
      discriminate E.
Qed.

(** A per-machine list in which the second value is the first match,
    for a query in mixed case. *)
Lemma FindFontFile_spec_witness :
  FindFontFile ascii_towlower (L "C:\Windows")
    (mkRegistry
       (Some [mkRegValue (L "Arial (TrueType)") REG_SZ (L "arial.ttf");
              mkRegValue (L "Arial Bold (TrueType)") REG_SZ (L "arialbd.ttf");
              mkRegValue (L "Arial Bold Italic (TrueType)") REG_SZ (L "arialbi.ttf")])
       (Some [mkRegValue (L "Arial Black (TrueType)") REG_SZ (L "D:\f\ab.ttf")]))
    (L "aRiAl b")
  = L "C:\Windows\Fonts\arialbd.ttf".
Proof.
  refine (proj2 (FindFontFile_spec ascii_towlower (L "C:\Windows") (L "aRiAl b")
                   (mkRegistry (Some [_; _; _]) (Some [_])) _ _)).
  - repeat constructor; vm_compute; congruence.
  - repeat constructor; vm_compute; congruence.
Defined.

(** C4 as stated fails: the name of this value contains the query, and
    the value is not a match, because its type is [REG_EXPAND_SZ]; the
    lookup returns the empty path. *)
Lemma FindFontFile_spec_counterexample :
  name_contains ascii_towlower (L "arial")
    (mkRegValue (L "Arial (TrueType)") REG_EXPAND_SZ (L "arial.ttf"))
  /\ FindFontFile ascii_towlower (L "C:\Windows")
       (mkRegistry
          (Some [mkRegValue (L "Arial (TrueType)") REG_EXPAND_SZ (L "arial.ttf")])
          (Some []))
       (L "arial")
     = [].
Proof.
  split; [|reflexivity]. exists [], []. reflexivity.
Qed.

(* ================================================================= *)
(** ** The colour and font pickers *)

Lemma testbit_byte (x n : Z) : byte x -> 8 <= n -> Z.testbit x n = false.
Proof.
  intros [H0 H1] Hn. destruct (Z.eq_dec x 0) as [->|Hx]; [apply Z.testbit_0_l|].
  apply Z.bits_above_log2; [lia|].
  apply Z.log2_lt_pow2; [lia|].
  apply Z.lt_le_trans with (2 ^ 8); [exact H1|].
  apply Z.pow_le_mono_r; lia.
Qed.

Ltac bits :=
  unfold Gdi.GetRValue, Gdi.GetGValue, Gdi.GetBValue, Gdi.RGB, Gdi.LOBYTE,
         Gdi.BYTE, Gdi.WORD, Gdi.DWORD;
  change 0xFF with (Z.ones 8); change 0xFFFF with (Z.ones 16);
  change 0xFFFFFFFF with (Z.ones 32);
  apply Z.bits_inj'; intros n Hn;
  repeat first
    [ rewrite Z.land_spec | rewrite Z.lor_spec
    | rewrite Z.shiftl_spec by lia | rewrite Z.shiftr_spec by lia ];
  repeat rewrite Z.testbit_ones_nonneg by lia.

Ltac booleans :=
  repeat rewrite Z.testbit_ones_nonneg by lia;
  repeat match goal with
         | |- context [?x <? ?y] => destruct (Z.ltb_spec x y); try lia
         end;
  repeat match goal with
         | |- context [Z.testbit ?x ?i] => destruct (Z.testbit x i)
         end;
  reflexivity.

Lemma GetRValue_RGB r g b : byte r -> byte g -> byte b -> Gdi.GetRValue (Gdi.RGB r g b) = r.
Proof.
  intros Hr Hg Hb. bits.
  destruct (Z.ltb_spec n 8).
  - rewrite !(Z.testbit_neg_r _ (n - _)) by lia. booleans.
  - rewrite (testbit_byte r n) by assumption. booleans.
Qed.

Lemma GetGValue_RGB r g b : byte r -> byte g -> byte b -> Gdi.GetGValue (Gdi.RGB r g b) = g.
Proof.
  intros Hr Hg Hb. bits.
  destruct (Z.ltb_spec n 8).
  - rewrite (testbit_byte r (n + 8)) by (assumption || lia).
    rewrite !(Z.testbit_neg_r _ (n + 8 - 16)) by lia.
    replace (n + 8 - 8) with n by lia. booleans.
  - rewrite (testbit_byte g n) by assumption. booleans.
Qed.

Lemma GetBValue_RGB r g b : byte r -> byte g -> byte b -> Gdi.GetBValue (Gdi.RGB r g b) = b.
Proof.
  intros Hr Hg Hb. bits.
  destruct (Z.ltb_spec n 8).
  - rewrite (testbit_byte r (n + 16)) by (assumption || lia).
    rewrite (testbit_byte g (n + 16 - 8)) by (assumption || lia).
    replace (n + 16 - 16) with n by lia. booleans.
  - rewrite (testbit_byte b n) by assumption. booleans.
Qed.

(** C10 (amended).  Whenever [chooseColor] returns, that is when the
    dialog succeeds or is cancelled (failure with extended error 0), it
    has rewritten all four channels from the dialog's result, with
    alpha 255; on cancellation, the dialog having left the seeded
    result untouched, red, green and blue keep their values before the
    call and a non-opaque alpha is overwritten by 255.  When the
    extended error is not 0 it throws instead and rewrites nothing. *)
Theorem chooseColor_rewrites
    (ChooseColorW : CC.CHOOSECOLORW -> bool * CC.CHOOSECOLORW)
    (CommDlgExtendedError : Z)
    (customColors : list Z) (selectedColor : SDL_Color) (hwndParent : Z)
    (ok : bool) (cc : CC.CHOOSECOLORW) :
  ChooseColorW (color_request customColors selectedColor hwndParent) = (ok, cc) ->
  (ok = true \/ CommDlgExtendedError = 0 ->
   chooseColor ChooseColorW CommDlgExtendedError customColors selectedColor
               hwndParent
   = Return (mkColor (Gdi.GetRValue (CC.rgbResult cc))
                     (Gdi.GetGValue (CC.rgbResult cc))
                     (Gdi.GetBValue (CC.rgbResult cc)) 255,
             CC.lpCustColors cc))
  /\ (ok = false -> CommDlgExtendedError = 0 ->
      CC.rgbResult cc
      = CC.rgbResult (color_request customColors selectedColor hwndParent) ->
      color_channels selectedColor ->
      chooseColor ChooseColorW CommDlgExtendedError customColors selectedColor
                  hwndParent
      = Return (mkColor (r selectedColor) (g selectedColor) (b selectedColor)
                        255,
                CC.lpCustColors cc))
  /\ (ok = false -> CommDlgExtendedError <> 0 ->
      chooseColor ChooseColorW CommDlgExtendedError customColors selectedColor
                  hwndParent
      = Throw (runtime_error (lit "Choose color dialog failed: "
                              ++ to_string CommDlgExtendedError))).
Proof.
  intros Hdlg. unfold chooseColor. rewrite Hdlg. repeat split.
  - intros [->| ->]; [reflexivity|]. now destruct ok.
  - intros -> -> Hrgb (Hr & Hg & Hb & _). cbn [negb Z.eqb bind].
    rewrite Hrgb. unfold color_request. cbn [CC.rgbResult].
    now rewrite GetRValue_RGB, GetGValue_RGB, GetBValue_RGB.
  - intros -> Hne. cbn [negb].
    destruct (Z.eqb_spec CommDlgExtendedError 0); [contradiction|reflexivity].
Qed.

(** A cancelled dialog on a half-transparent colour. *)
Lemma chooseColor_rewrites_witness :
  chooseColor (fun cc => (false, cc)) 0 (repeat 0 16) (mkColor 10 20 30 128) 0
  = Return (mkColor 10 20 30 255, repeat 0 16).
Proof.
  refine (proj1 (proj2 (chooseColor_rewrites (fun cc => (false, cc)) 0
                          (repeat 0 16) (mkColor 10 20 30 128) 0 false _
                          eq_refl))
                eq_refl eq_refl eq_refl _).
  unfold color_channels, byte. cbn [r g b a]. lia.
Defined.

(** C10 as stated fails: when the dialog fails with a non-zero extended
    error, [chooseColor] throws before the channels are written; no
    colour comes back, and the caller's alpha 128 is not replaced. *)
Lemma chooseColor_rewrites_counterexample :
  chooseColor (fun cc => (false, cc)) 2 (repeat 0 16) (mkColor 10 20 30 128) 0
  = Throw (runtime_error (lit "Choose color dialog failed: 2")).
Proof. reflexivity. Qed.

Lemma read_cstr_size (array s rest : list Z) :
  read_cstr array = Some (s, rest) -> size s < size array.
Proof.
  revert s rest; induction array as [|c array IH]; intros s rest; simpl;
    [discriminate|].
  destruct (c =? 0).
  - intros [= <- <-]. rewrite size_cons. pose proof (size_nonneg array).
    change (size []) with 0. lia.
  - destruct (read_cstr array) as [[s' rest']|]; [|discriminate].
    intros [= <- <-]. specialize (IH s' rest' eq_refl).
    rewrite !size_cons. lia.
Qed.

Lemma c_str_size (s : list Z) : size (c_str s) <= size s.
Proof.
  induction s as [|c s IH]; simpl; [lia|].
  destruct (c =? 0); rewrite ?size_cons; [|lia].
  pose proof (size_nonneg s). change (size []) with 0. lia.
Qed.

Lemma font_path_size (windowsDir : list Z) (v : RegValue) :
  size (font_path_of windowsDir v) <= size windowsDir + 7 + size (valueData v).
Proof.
  unfold font_path_of. pose proof (c_str_size (valueData v)).
  pose proof (size_nonneg windowsDir).
  destruct (find_char COLON (c_str (valueData v))); [lia|].
  rewrite !size_app. change (size [BACKSLASH]) with 1.
  change (size (L "Fonts")) with 5. lia.
Qed.

(** The loop reports paths of values that fit its data buffer only. *)
Lemma enumerate_size (towlower : Z -> Z) (windowsDir query : list Z)
    (values : list RegValue) (n index : nat) :
  size (enumerate towlower windowsDir values query n index)
  <= size windowsDir + 518.
Proof.
  pose proof (size_nonneg windowsDir) as Hw.
  revert index; induction n as [|n IH]; intros index; cbn [enumerate].
  - change (size []) with 0. lia.
  - unfold Registry.RegEnumValueW.
    destruct (nth_error values index) as [v|].
    + destruct (Z.leb_spec 256 (size (valueName v))); cbn [orb];
        [change (negb (ERROR_MORE_DATA =? ERROR_SUCCESS)) with true;
         cbv iota; change (size []) with 0; lia|].
      destruct (Z.ltb_spec 1024 (Registry.cbData v));
        [change (negb (ERROR_MORE_DATA =? ERROR_SUCCESS)) with true;
         cbv iota; change (size []) with 0; lia|].
      change (negb (ERROR_SUCCESS =? ERROR_SUCCESS)) with false. cbv iota.
      destruct (_ && _); [|apply IH].
      pose proof (font_path_size windowsDir v).
      unfold Registry.cbData in *. lia.
    + change (negb (ERROR_NO_MORE_ITEMS =? ERROR_SUCCESS)) with true.
      cbv iota. change (size []) with 0. lia.
Qed.

Lemma FindFontFile_size (towlower : Z -> Z) (windowsDir query : list Z)
    (reg : registry) :
  size (FindFontFile towlower windowsDir reg query) <= size windowsDir + 518.
Proof.
  pose proof (size_nonneg windowsDir) as Hw.
  assert (H : forall key,
             size (scan_key towlower windowsDir key query)
             <= size windowsDir + 518).
  { intros [values|]; [apply enumerate_size|].
    change (scan_key towlower windowsDir None query) with (@nil Z).
    change (size []) with 0. lia. }
  unfold FindFontFile, FindFontFileLocalMachine, FindFontFileCurrentUser.
  destruct (empty _); apply H.
Qed.

(** C7.  Whenever the font dialog succeeds or is cancelled, [chooseFont]
    returns, and the point size it reports is the dialog's
    tenths-of-a-point value divided by 10 with the quotient truncated:
    for a value that is not negative, the largest size whose tenfold
    does not exceed it. *)
Theorem chooseFont_point_size
    (towlower : Z -> Z) (windowsDir : list Z) (reg : registry)
    (ChooseFontW : CF.CHOOSEFONTW -> bool * CF.CHOOSEFONTW)
    (CommDlgExtendedError : Z) (hwndParent : Z)
    (ok : bool) (cf : CF.CHOOSEFONTW) (face rest : list Z) :
  ChooseFontW (font_request hwndParent) = (ok, cf) ->
  ok = true \/ CommDlgExtendedError = 0 ->
  read_cstr (CF.lfFaceName (CF.lpLogFont cf)) = Some (face, rest) ->
  size (CF.lfFaceName (CF.lpLogFont cf)) = LF_FACESIZE ->
  size windowsDir < MAX_PATH ->
  (exists name path,
     chooseFont towlower windowsDir reg ChooseFontW CommDlgExtendedError
                hwndParent
     = Return (mkFontInfo name path (Z.quot (CF.iPointSize cf) 10)))
  /\ (0 <= CF.iPointSize cf ->
      10 * Z.quot (CF.iPointSize cf) 10 <= CF.iPointSize cf
      < 10 * Z.quot (CF.iPointSize cf) 10 + 10).
Proof.
  intros Hdlg Hok Hface Harray Hdir. split.
  - exists (to_utf8 face),
           (to_utf8 (FindFontFile towlower windowsDir reg face)).
    unfold chooseFont. rewrite Hdlg.
    assert (E : (if negb ok
                 then if negb (CommDlgExtendedError =? 0)
                      then Throw (runtime_error
                                    (lit "Choose font dialog failed: "
                                     ++ to_string CommDlgExtendedError))
                      else Return tt
                 else Return tt) = Return tt).
    { destruct Hok as [->| ->]; [reflexivity|]. now destruct ok. }
    rewrite E. cbn [bind]. unfold wstring_of_array. rewrite Hface. cbn [bind].
    pose proof (read_cstr_size _ _ _ Hface) as Hs.
    rewrite Harray in Hs. unfold LF_FACESIZE in Hs.
    rewrite wideToUtf8_Return by (change (2 ^ 31) with 2147483648; lia).
    cbn [bind].
    pose proof (FindFontFile_size towlower windowsDir face reg).
    unfold MAX_PATH in Hdir.
    rewrite wideToUtf8_Return by (change (2 ^ 31) with 2147483648; lia).
    reflexivity.
  - intros Hp. pose proof (Z.quot_rem (CF.iPointSize cf) 10 ltac:(lia)).
    pose proof (Z.rem_bound_pos (CF.iPointSize cf) 10 Hp ltac:(lia)). lia.
Qed.

(** A native value of 125 tenths of a point is reported as 12 points. *)
Lemma chooseFont_point_size_witness :
  exists name path,
    chooseFont ascii_towlower (L "C:\Windows")
      (mkRegistry
         (Some [mkRegValue (L "Arial (TrueType)") REG_SZ (L "arial.ttf")]) None)
      (fun cf => (true, CF.mk 0 (CF.mkLogFont (L "Arial" ++ repeat 0 27)) 125 0))
      0 0
    = Return (mkFontInfo name path 12).
Proof.
  refine (proj1 (chooseFont_point_size ascii_towlower (L "C:\Windows")
                   (mkRegistry (Some [_]) None)
                   (fun cf => (true, CF.mk 0 (CF.mkLogFont (L "Arial" ++ repeat 0 27)) 125 0))
                   0 0 true _ (L "Arial") (repeat 0 26)
                   eq_refl _ eq_refl eq_refl _)).
  - now left.
  - unfold MAX_PATH. vm_compute. reflexivity.
Defined.

(* ================================================================= *)
(** ** The option message box *)

(** The loop that fills [g_options] keeps the ids, in order. *)
Lemma convert_options_ids (options g_options : list (Z * list Z)) :
  MsgBox.convert_options options = Return g_options ->
  map fst g_options = map fst options.
Proof.
  revert g_options; induction options as [|opt options IH]; intros g;
    cbn [MsgBox.convert_options].
  - now intros [= <-].
  - destruct (utf8ToWide (snd opt)) as [label| |]; cbn [bind]; try discriminate.
    destruct (MsgBox.convert_options options) as [others| |]; cbn [bind];
      try discriminate.
    intros [= <-]. cbn [map fst]. now rewrite (IH others eq_refl).
Qed.

Lemma convert_options_length (options g_options : list (Z * list Z)) :
  MsgBox.convert_options options = Return g_options ->
  length g_options = length options.
Proof.
  intros H. rewrite <- (length_map fst g_options), (convert_options_ids _ _ H).
  apply length_map.
Qed.

Lemma static_cast_int_le (n : Z) : 0 <= n -> static_cast_int n <= n.
Proof.
  intros H. unfold static_cast_int.
  pose proof (Z.mod_le (n + 2 ^ 31) (2 ^ 32) ltac:(lia) ltac:(lia)). lia.
Qed.

Lemma MessageBoxDialogProc_quiet (st : MsgBox.state) (m : message) :
  ends_message_box (Z.of_nat (length (MsgBox.g_options st))) m = false ->
  MsgBox.MessageBoxDialogProc st m = st.
Proof.
  destruct m; cbn [ends_message_box MsgBox.MessageBoxDialogProc];
    try congruence.
  unfold option_button. intros H.
  pose proof (static_cast_int_le (Z.of_nat (length (MsgBox.g_options st)))
                ltac:(lia)).
  destruct (Z.leb_spec __GCOMMMDLG_BTN_START (LOWORD wParam));
    [|reflexivity].
  destruct (Z.ltb_spec (LOWORD wParam)
              (__GCOMMMDLG_BTN_START
               + Z.of_nat (length (MsgBox.g_options st))));
    [discriminate H|].
  destruct (Z.ltb_spec (LOWORD wParam)
              (__GCOMMMDLG_BTN_START
               + static_cast_int (Z.of_nat (length (MsgBox.g_options st)))));
    [lia|reflexivity].
Qed.

(** Messages that cannot end the dialog are consumed and change nothing. *)
Lemma msgbox_loop_quiet (st : MsgBox.state) (pre rest : list message) :
  MsgBox.quit st = false ->
  Forall (fun m => ends_message_box
                     (Z.of_nat (length (MsgBox.g_options st))) m = false) pre ->
  MsgBox.message_loop st (pre ++ rest)
  = (map (fun m => GetMessageW (Dispatch m)) pre
     ++ fst (MsgBox.message_loop st rest),
     snd (MsgBox.message_loop st rest)).
Proof.
  intros Hq. induction 1 as [|m pre Hm _ IH].
  - cbn [app map]. now destruct (MsgBox.message_loop st rest).
  - cbn [app map MsgBox.message_loop]. rewrite Hq.
    rewrite MessageBoxDialogProc_quiet by assumption. now rewrite IH.
Qed.

(** A message after which the quit message is posted ends the loop. *)
Lemma msgbox_loop_end (st : MsgBox.state) (m : message) (post : list message) :
  MsgBox.quit st = false ->
  MsgBox.quit (MsgBox.MessageBoxDialogProc st m) = true ->
  MsgBox.message_loop st (m :: post)
  = ([GetMessageW (Dispatch m)], Some (MsgBox.MessageBoxDialogProc st m)).
Proof.
  intros Hq Hend. cbn [MsgBox.message_loop]. rewrite Hq.
  destruct post; cbn [MsgBox.message_loop]; now rewrite Hend.
Qed.

(** The run of [messageBox] once the dialog is shown, in terms of the
    state its message loop ends in. *)
Lemma messageBox_shown (SM_CXSCREEN SM_CYSCREEN : Z)
    (title content : list Z) (options : list (Z * list Z))
    (g_options : list (Z * list Z)) (g_msgContent g_boxTitle : list Z)
    (pre post : list message) (m : message) :
  options <> [] ->
  MsgBox.convert_options options = Return g_options ->
  utf8ToWide content = Return g_msgContent ->
  utf8ToWide title = Return g_boxTitle ->
  Forall (fun m => ends_message_box (Z.of_nat (length options)) m = false)
         pre ->
  let st := MsgBox.mk g_options 0 false in
  MsgBox.quit (MsgBox.MessageBoxDialogProc st m) = true ->
  value_of (messageBox true true SM_CXSCREEN SM_CYSCREEN (pre ++ m :: post)
                       title content options)
  = Some (MsgBox.g_selectedId (MsgBox.MessageBoxDialogProc st m)).
Proof.
  intros Hne Hopt Hmsg Htitle Hpre st Hend. unfold messageBox.
  destruct options as [|o options]; [congruence|]. cbn [empty].
  rewrite Hopt. cbn [bind]. rewrite Hmsg. cbn [bind]. rewrite Htitle.
  cbn [bind negb].
  fold st. rewrite msgbox_loop_quiet;
    [|reflexivity
     |unfold st; cbn [MsgBox.g_options];
      now rewrite (convert_options_length _ _ Hopt)].
  rewrite msgbox_loop_end by (assumption || reflexivity).
  reflexivity.
Qed.

(** A click on the button of option [i] selects the id of that option
    and destroys the window. *)
Lemma MessageBoxDialogProc_click (options g_options : list (Z * list Z))
    (selected : Z) (m : message) (i : nat) (id : Z) (label : list Z) :
  MsgBox.convert_options options = Return g_options ->
  Z.of_nat (length options) < 2 ^ 31 ->
  nth_error options i = Some (id, label) ->
  clicked (__GCOMMMDLG_BTN_START + Z.of_nat i) m ->
  MsgBox.MessageBoxDialogProc (MsgBox.mk g_options selected false) m
  = MsgBox.mk g_options id true.
Proof.
  intros Hopt Hlen Hnth [wParam [-> Hw]].
  pose proof (convert_options_ids _ _ Hopt) as Hids.
  assert (Hi : (i < length options)%nat) by (apply nth_error_Some; congruence).
  pose proof (convert_options_length _ _ Hopt) as Hl.
  assert (Hg : exists wlabel, nth_error g_options i = Some (id, wlabel)).
  { assert (E : nth_error (map fst g_options) i = Some id)
      by (rewrite Hids, nth_error_map, Hnth; reflexivity).
    rewrite nth_error_map in E.
    destruct (nth_error g_options i) as [[id' wlabel]|]; [|discriminate].
    injection E as ->. now exists wlabel. }
  destruct Hg as [wlabel Hg].
  cbn [MsgBox.MessageBoxDialogProc MsgBox.g_options]. rewrite Hw, Hl.
  rewrite static_cast_int_small by lia.
  unfold __GCOMMMDLG_BTN_START.
  destruct (Z.leb_spec 2000 (2000 + Z.of_nat i)); [|lia].
  destruct (Z.ltb_spec (2000 + Z.of_nat i) (2000 + Z.of_nat (length options)));
    [|lia].
  cbn [andb]. replace (2000 + Z.of_nat i - 2000) with (Z.of_nat i) by lia.
  rewrite Nat2Z.id, Hg. reflexivity.
Qed.

(** C3.  [messageBox] with an empty option list returns -1 and has made
    no call: no window class is registered, no window created.  With
    options, once the dialog is shown (the texts are converted, the
    class is registered, the window is created): when the first message
    that can end the dialog is the click on the button of option
    [(id, label)], the call returns [id]; when it is the window-close
    request, the call returns 0. *)
Theorem messageBox_result
    (registered created : bool) (SM_CXSCREEN SM_CYSCREEN : Z)
    (messages : list message) (title content : list Z)
    (options : list (Z * list Z)) :
  (options = [] ->
   messageBox registered created SM_CXSCREEN SM_CYSCREEN messages
              title content options
   = Return ([], Some (-1)))
  /\ (forall g_options g_msgContent g_boxTitle pre post m,
      MsgBox.convert_options options = Return g_options ->
      utf8ToWide content = Return g_msgContent ->
      utf8ToWide title = Return g_boxTitle ->
      registered = true -> created = true ->
      messages = pre ++ m :: post ->
      Forall (fun m => ends_message_box (Z.of_nat (length options)) m = false)
             pre ->
      (forall i id label,
         nth_error options i = Some (id, label) ->
         Z.of_nat (length options) < 2 ^ 31 ->
         clicked (__GCOMMMDLG_BTN_START + Z.of_nat i) m ->
         value_of (messageBox registered created SM_CXSCREEN SM_CYSCREEN
                              messages title content options)
         = Some id)
      /\ (options <> [] -> m = WM_CLOSE ->
          value_of (messageBox registered created SM_CXSCREEN SM_CYSCREEN
                               messages title content options)
          = Some 0)).
Proof.
  split; [intros ->; reflexivity|].
  intros g_options g_msgContent g_boxTitle pre post m Hopt Hmsg Htitle
         -> -> -> Hpre.
  split.
  - intros i id label Hnth Hlen Hclick.
    assert (Hne : options <> []) by (intros ->; destruct i; discriminate).
    pose proof (MessageBoxDialogProc_click options g_options 0 m i id label
                  Hopt Hlen Hnth Hclick) as E.
    erewrite messageBox_shown; eauto; now rewrite E.
  - intros Hne ->. erewrite messageBox_shown; eauto.
Qed.

(** The example of the claim: no options; the first button of
    [(7, Yes); (8, No)]; the window-close request. *)
Lemma messageBox_result_witness :
  messageBox true true 1920 1080 [] (lit "Title") (lit "Text") []
  = Return ([], Some (-1))
  /\ value_of (messageBox true true 1920 1080
                 [WM_SIZE 0; WM_COMMAND 2000; WM_other 15]
                 (lit "Title") (lit "Text") [(7, lit "Yes"); (8, lit "No")])
     = Some 7
  /\ value_of (messageBox true true 1920 1080
                 [WM_SIZE 0; WM_CLOSE]
                 (lit "Title") (lit "Text") [(7, lit "Yes"); (8, lit "No")])
     = Some 0.
Proof.
  split; [|split].
  - exact (proj1 (messageBox_result true true 1920 1080 []
                    (lit "Title") (lit "Text") []) eq_refl).
  - refine (proj1 (proj2 (messageBox_result true true 1920 1080
                            [WM_SIZE 0; WM_COMMAND 2000; WM_other 15]
                            (lit "Title") (lit "Text")
                            [(7, lit "Yes"); (8, lit "No")])
                     _ _ _ [WM_SIZE 0] [WM_other 15] (WM_COMMAND 2000)
                     eq_refl eq_refl eq_refl eq_refl eq_refl eq_refl _)
                  0%nat 7 (lit "Yes") eq_refl eq_refl _).
    + repeat constructor.
    + exists 2000. split; reflexivity.
  - refine (proj2 (proj2 (messageBox_result true true 1920 1080
                            [WM_SIZE 0; WM_CLOSE]
                            (lit "Title") (lit "Text")
                            [(7, lit "Yes"); (8, lit "No")])
                     _ _ _ [WM_SIZE 0] [] WM_CLOSE
                     eq_refl eq_refl eq_refl eq_refl eq_refl eq_refl _)
                  _ eq_refl).
    + repeat constructor.
    + discriminate.
Defined.

(** C9.  With options, once the texts are converted: when the window
    class cannot be registered [messageBox] returns 0 after that one
    call; when the window cannot be created it returns 0 without
    entering the message loop.  In both cases it throws nothing, no
    message is retrieved, and the messages that wait have no influence:
    a result of 0 is not always the user's closing of the dialog. *)
Theorem messageBox_platform_failure
    (SM_CXSCREEN SM_CYSCREEN : Z)
    (messages : list message) (title content : list Z)
    (options : list (Z * list Z))
    (g_options : list (Z * list Z)) (g_msgContent g_boxTitle : list Z) :
  options <> [] ->
  MsgBox.convert_options options = Return g_options ->
  utf8ToWide content = Return g_msgContent ->
  utf8ToWide title = Return g_boxTitle ->
  (forall created,
     messageBox false created SM_CXSCREEN SM_CYSCREEN messages
                title content options
     = Return ([RegisterClassExW CustomMessageBoxClass], Some 0))
  /\ (exists x y width height,
      messageBox true false SM_CXSCREEN SM_CYSCREEN messages
                 title content options
      = Return ([RegisterClassExW CustomMessageBoxClass;
                 CreateWindowExW CustomMessageBoxClass (c_str g_boxTitle)
                                 x y width height;
                 UnregisterClassW CustomMessageBoxClass],
                Some 0)).
Proof.
  intros Hne Hopt Hmsg Htitle.
  destruct options as [|o options]; [congruence|].
  split.
  - intros created. unfold messageBox. cbn [empty].
    rewrite Hopt. cbn [bind]. rewrite Hmsg. cbn [bind]. rewrite Htitle.
    reflexivity.
  - unfold messageBox. cbn [empty].
    rewrite Hopt. cbn [bind]. rewrite Hmsg. cbn [bind]. rewrite Htitle.
    cbn [bind negb]. do 4 eexists. reflexivity.
Qed.

(** Both failures with the dialog of the example, while a click on the
    first button waits in the queue. *)
Lemma messageBox_platform_failure_witness :
  messageBox false true 1920 1080 [WM_COMMAND 2000]
             (lit "Title") (lit "Text") [(7, lit "Yes"); (8, lit "No")]
  = Return ([RegisterClassExW CustomMessageBoxClass], Some 0)
  /\ value_of (messageBox true false 1920 1080 [WM_COMMAND 2000]
                 (lit "Title") (lit "Text") [(7, lit "Yes"); (8, lit "No")])
     = Some 0.
Proof.
  assert (H := messageBox_platform_failure 1920 1080 [WM_COMMAND 2000]
                 (lit "Title") (lit "Text") [(7, lit "Yes"); (8, lit "No")]
                 _ _ _ ltac:(discriminate) eq_refl eq_refl eq_refl).
  split.
  - exact (proj1 H true).
  - destruct (proj2 H) as (x & y & width & height & E). now rewrite E.
Defined.

(* ================================================================= *)
(** ** The prompt dialog *)

Lemma c_str_no_nul (s : list Z) : no_nul (c_str s).
Proof.
  unfold no_nul. induction s as [|c s IH]; simpl; [tauto|].
  destruct (Z.eqb_spec c 0); simpl; [tauto|]. intros [E|i]; auto.
Qed.

Lemma firstn_no_nul (n : nat) (s : list Z) : no_nul s -> no_nul (firstn n s).
Proof.
  unfold no_nul. intros H i. apply H.
  rewrite <- (firstn_skipn n s). apply in_or_app. now left.
Qed.

Lemma edited_text_no_nul (events : list event) (initial : list Z) :
  no_nul initial -> no_nul (edited_text initial events).
Proof.
  revert initial; induction events as [|e events IH]; intros initial H;
    [exact H|].
  unfold edited_text. cbn [fold_left]. apply IH.
  destruct e; [apply c_str_no_nul|exact H].
Qed.

(** [wcscpy] into a block, read back as a C string. *)
Lemma wstring_of_wcscpy (block text : list Z) :
  no_nul text -> wstring_of_array (wcscpy block text) = Return text.
Proof.
  intros H. unfold wstring_of_array, wcscpy, Win32.store.
  rewrite <- app_assoc. cbn [app]. now rewrite read_cstr_app.
Qed.

Lemma PromptDialogProc_quiet (st : Prompt.state) (m : message) :
  ends_prompt m = false -> Prompt.PromptDialogProc st m = st.
Proof.
  destruct m; cbn [ends_prompt Prompt.PromptDialogProc]; try congruence.
  intros H. apply orb_false_elim in H. destruct H as [-> ->]. reflexivity.
Qed.

(** Events that leave the dialog open are consumed; they change the
    text of the edit control and nothing else. *)
Lemma prompt_loop_quiet (pre rest : list event) :
  Forall (fun e => quiet e = true) pre ->
  forall block confirmed text,
  Prompt.message_loop (Prompt.mk block confirmed text false) (pre ++ rest)
  = (map GetMessageW pre
     ++ fst (Prompt.message_loop
               (Prompt.mk block confirmed (edited_text text pre) false) rest),
     snd (Prompt.message_loop
            (Prompt.mk block confirmed (edited_text text pre) false) rest)).
Proof.
  induction 1 as [|e pre He _ IH]; intros block confirmed text.
  - cbn [app map edited_text fold_left].
    now destruct (Prompt.message_loop _ rest).
  - cbn [app map Prompt.message_loop Prompt.quit].
    destruct e as [t|m].
    + cbn [Prompt.deliver Prompt.g_inputText Prompt.g_did_confirm Prompt.quit].
      rewrite IH. reflexivity.
    + cbn [Prompt.deliver]. rewrite PromptDialogProc_quiet
        by (cbn [quiet] in He; now destruct (ends_prompt m)).
      rewrite IH. reflexivity.
Qed.

Lemma prompt_loop_end (st : Prompt.state) (m : message) (post : list event) :
  Prompt.quit st = false ->
  Prompt.quit (Prompt.PromptDialogProc st m) = true ->
  Prompt.message_loop st (Dispatch m :: post)
  = ([GetMessageW (Dispatch m)], Some (Prompt.PromptDialogProc st m)).
Proof.
  intros Hq Hend. cbn [Prompt.message_loop Prompt.deliver]. rewrite Hq.
  destruct post; cbn [Prompt.message_loop]; now rewrite Hend.
Qed.

(** The run of [promptDialog] once the dialog is shown, up to the state
    its message loop ends in. *)
Lemma promptDialog_shown (SM_CXSCREEN SM_CYSCREEN : Z) (fresh_block : list Z)
    (g_did_confirm : bool) (title content defaultContent : list Z)
    (g_message g_defalutContent wtitle : list Z)
    (pre post : list event) (m : message) :
  utf8ToWide content = Return g_message ->
  utf8ToWide defaultContent = Return g_defalutContent ->
  utf8ToWide title = Return wtitle ->
  Forall (fun e => quiet e = true) pre ->
  let st := Prompt.mk fresh_block g_did_confirm
              (edited_text (c_str g_defalutContent) pre) false in
  Prompt.quit (Prompt.PromptDialogProc st m) = true ->
  value_of (promptDialog true SM_CXSCREEN SM_CYSCREEN fresh_block
                         (pre ++ Dispatch m :: post)
                         g_did_confirm title content defaultContent)
  = let final := Prompt.PromptDialogProc st m in
    if negb (Prompt.g_did_confirm final) then Some (false, [])
    else match wstring_of_array (Prompt.g_inputText final) with
         | Return text =>
           match wideToUtf8 text with
           | Return output => Some (true, output)
           | _ => None
           end
         | _ => None
         end.
Proof.
  intros Hmsg Hdef Htitle Hpre st Hend. unfold promptDialog.
  rewrite Hmsg. cbn [bind]. rewrite Hdef. cbn [bind]. rewrite Htitle.
  cbn [bind].
  rewrite prompt_loop_quiet by assumption. fold st.
  rewrite prompt_loop_end by (assumption || reflexivity).
  cbn [fst snd]. cbv zeta.
  destruct (negb (Prompt.g_did_confirm (Prompt.PromptDialogProc st m)));
    [reflexivity|].
  destruct (wstring_of_array _) as [text| |]; cbn [bind]; try reflexivity.
  destruct (wideToUtf8 text); reflexivity.
Qed.

(** C8 (amended).  Prompt dialog outcome, once the dialog is shown (the
    texts are converted, the window is created).  When the first
    message that can end the dialog is the click on OK, [promptDialog]
    returns true and the output is the first 255 UTF-16 code units of
    the text the edit control holds at that moment, converted to UTF-8.
    When it is the click on Cancel or the window-close request,
    [promptDialog] returns false and the output is empty. *)
Theorem promptDialog_outcome
    (SM_CXSCREEN SM_CYSCREEN : Z) (fresh_block : list Z)
    (events : list event) (g_did_confirm : bool)
    (title content defaultContent : list Z)
    (g_message g_defalutContent wtitle : list Z)
    (pre post : list event) (m : message) :
  utf8ToWide content = Return g_message ->
  utf8ToWide defaultContent = Return g_defalutContent ->
  utf8ToWide title = Return wtitle ->
  events = pre ++ Dispatch m :: post ->
  Forall (fun e => quiet e = true) pre ->
  (clicked __GCOMMMDLG_IDOK m ->
   value_of (promptDialog true SM_CXSCREEN SM_CYSCREEN fresh_block events
                          g_did_confirm title content defaultContent)
   = Some (true,
           to_utf8 (firstn 255 (edited_text (c_str g_defalutContent) pre))))
  /\ (clicked __GCOMMMDLG_IDCANCEL m \/ m = WM_CLOSE ->
      value_of (promptDialog true SM_CXSCREEN SM_CYSCREEN fresh_block events
                             g_did_confirm title content defaultContent)
      = Some (false, [])).
Proof.
  intros Hmsg Hdef Htitle -> Hpre. split.
  - intros [wParam [-> Hw]].
    erewrite promptDialog_shown; eauto;
      [|cbn [Prompt.PromptDialogProc]; now rewrite Hw].
    cbn [Prompt.PromptDialogProc]. rewrite Hw, Z.eqb_refl. cbv zeta.
    cbn [Prompt.DestroyWindow Prompt.PostQuitMessage
         Prompt.g_did_confirm Prompt.g_inputText Prompt.editText negb].
    unfold GetDlgItemTextW. change (Z.to_nat (256 - 1)) with 255%nat.
    assert (Hn : no_nul (firstn 255 (edited_text (c_str g_defalutContent) pre)))
      by (apply firstn_no_nul, edited_text_no_nul, c_str_no_nul).
    rewrite wstring_of_wcscpy by exact Hn.
    rewrite wideToUtf8_Return; [reflexivity|].
    unfold size. rewrite length_firstn.
    change (2 ^ 31) with 2147483648. lia.
  - intros [[wParam [-> Hw]]| ->].
    + erewrite promptDialog_shown; eauto;
        cbn [Prompt.PromptDialogProc]; now rewrite Hw.
    + erewrite promptDialog_shown; eauto.
Qed.

(** The user replaces the default text, the edit control notifies the
    dialog of the change, and the user confirms; the user edits and then
    closes the window. *)
Lemma promptDialog_outcome_witness :
  value_of (promptDialog true 1920 1080 (repeat 0 256)
              [Dispatch (WM_SIZE 0); UserEdits (L "world");
               Dispatch (WM_COMMAND 0x030003EA); Dispatch (WM_COMMAND 1003)]
              false (lit "Title") (lit "Name?") (lit "hello"))
  = Some (true, lit "world")
  /\ value_of (promptDialog true 1920 1080 (repeat 0 256)
                 [UserEdits (L "world"); Dispatch WM_CLOSE; UserEdits (L "x")]
                 true (lit "Title") (lit "Name?") (lit "hello"))
     = Some (false, []).
Proof.
  split.
  - refine (proj1 (promptDialog_outcome 1920 1080 (repeat 0 256) _ false
                     (lit "Title") (lit "Name?") (lit "hello") _ _ _
                     [Dispatch (WM_SIZE 0); UserEdits (L "world");
                      Dispatch (WM_COMMAND 0x030003EA)] []
                     (WM_COMMAND 1003) eq_refl eq_refl eq_refl eq_refl _) _).
    + repeat constructor.
    + exists 1003. split; reflexivity.
  - refine (proj2 (promptDialog_outcome 1920 1080 (repeat 0 256) _ true
                     (lit "Title") (lit "Name?") (lit "hello") _ _ _
                     [UserEdits (L "world")] [UserEdits (L "x")]
                     WM_CLOSE eq_refl eq_refl eq_refl eq_refl _) _).
    + repeat constructor.
    + now right.
Defined.

(** C8 as stated fails: the edit control holds 256 letters when OK is
    clicked; the output is 255 letters, not the edited text. *)
Lemma promptDialog_outcome_counterexample :
  value_of (promptDialog true 1920 1080 (repeat 0 256)
              [UserEdits (repeat 97 256); Dispatch (WM_COMMAND 1003)]
              false (lit "Title") (lit "Name?") [])
  = Some (true, repeat 97 255)
  /\ to_utf8 (edited_text [] [UserEdits (repeat 97 256)]) = repeat 97 256.
Proof. split; vm_compute; reflexivity. Qed.

(* ================================================================= *)
(** ** Further properties of the encoding helpers *)

(** Decoding the bytes of a scalar value gives the value back. *)
Lemma utf8_scalar_bytes (c : Z) (rest : list Z) :
  scalar c ->
  exists n, Win32.utf8_scalar (Win32.utf8_bytes c ++ rest) = Some (c, S n)
            /\ length (Win32.utf8_bytes c) = S n.
Proof.
  intros [Hr Hs]. unfold Win32.utf8_bytes.
  destruct (Z.ltb_spec c 0x80).
  - exists 0%nat. split; [|reflexivity]. cbn [app]. apply utf8_scalar_one. lia.
  - destruct (Z.ltb_spec c 0x800).
    + exists 1%nat. split; [|reflexivity]. cbn [app].
      assert (E : c = (0xC0 + c / 64 - 0xC0) * 64 + (0x80 + c mod 64 - 0x80))
        by divmod.
      rewrite E at 3. apply utf8_scalar_two; divmod.
    + destruct (Z.ltb_spec c 0x10000).
      * exists 2%nat. split; [|reflexivity]. cbn [app].
        assert (E : c = (0xE0 + c / 4096 - 0xE0) * 4096
                        + (0x80 + (c / 64) mod 64 - 0x80) * 64
                        + (0x80 + c mod 64 - 0x80)) by divmod.
        rewrite E at 4. apply utf8_scalar_three; divmod.
      * exists 3%nat. split; [|reflexivity]. cbn [app].
        assert (E : c = (0xF0 + c / 262144 - 0xF0) * 262144
                        + (0x80 + (c / 4096) mod 64 - 0x80) * 4096
                        + (0x80 + (c / 64) mod 64 - 0x80) * 64
                        + (0x80 + c mod 64 - 0x80)) by divmod.
        rewrite E at 5. apply utf8_scalar_four; divmod.
Qed.

Lemma to_wide_bytes (c : Z) (rest : list Z) :
  scalar c ->
  to_wide (Win32.utf8_bytes c ++ rest) = Win32.utf16_units c ++ to_wide rest.
Proof.
  intros Hc. destruct (utf8_scalar_bytes c rest Hc) as [n [Hs Hn]].
  now apply (to_wide_step _ _ _ n).
Qed.

Lemma utf8_bytes_length (c : Z) :
  c < 0x10000 -> (length (Win32.utf8_bytes c) <= 3)%nat.
Proof.
  intros H. unfold Win32.utf8_bytes.
  destruct (c <? 0x80); [simpl; lia|].
  destruct (c <? 0x800); [simpl; lia|].
  destruct (Z.ltb_spec c 0x10000); [simpl; lia|lia].
Qed.

Lemma utf16_decode_unit (u : Z) (w : list Z) :
  ~ (0xD800 <= u <= 0xDFFF) ->
  Win32.utf16_decode (u :: w) = u :: Win32.utf16_decode w.
Proof.
  intros H. rewrite utf16_decode_cons.
  unfold Win32.high_surrogate, Win32.low_surrogate. compare_all; reflexivity.
Qed.

Lemma utf16_decode_pair (h l : Z) (w : list Z) :
  0xD800 <= h <= 0xDBFF -> 0xDC00 <= l <= 0xDFFF ->
  Win32.utf16_decode (h :: l :: w)
  = (0x10000 + (h - 0xD800) * 1024 + (l - 0xDC00)) :: Win32.utf16_decode w.
Proof.
  intros Hh Hl. rewrite utf16_decode_cons.
  unfold Win32.high_surrogate, Win32.low_surrogate. compare_all; reflexivity.
Qed.

Lemma utf16_units_pair (h l : Z) :
  0xD800 <= h <= 0xDBFF -> 0xDC00 <= l <= 0xDFFF ->
  Win32.utf16_units (0x10000 + (h - 0xD800) * 1024 + (l - 0xDC00)) = [h; l].
Proof.
  intros Hh Hl. unfold Win32.utf16_units.
  destruct (Z.ltb_spec (0x10000 + (h - 0xD800) * 1024 + (l - 0xDC00)) 0x10000);
    [lia|].
  f_equal; [|f_equal]; divmod.
Qed.

(** The UTF-16 to UTF-8 to UTF-16 round trip on well-formed text. *)
Lemma transcode_round_trip_wide (w : list Z) :
  well_formed_utf16 w -> to_wide (to_utf8 w) = w.
Proof.
  induction 1 as [|u w Hu Hs _ IH|h l w Hh Hl _ IH]; [reflexivity| |].
  - unfold to_utf8 in *. rewrite utf16_decode_unit by assumption.
    unfold Win32.utf8_encode in *. cbn [flat_map].
    rewrite to_wide_bytes by (unfold scalar; lia). rewrite IH.
    unfold Win32.utf16_units. destruct (Z.ltb_spec u 0x10000); [reflexivity|lia].
  - unfold to_utf8 in *. rewrite utf16_decode_pair by assumption.
    unfold Win32.utf8_encode in *. cbn [flat_map].
    rewrite to_wide_bytes by (unfold scalar; lia). rewrite IH.
    now rewrite utf16_units_pair.
Qed.

(** Well-formed UTF-16 text grows to at most three bytes for a code
    unit. *)
Lemma to_utf8_size (w : list Z) :
  well_formed_utf16 w -> size (to_utf8 w) <= 3 * size w.
Proof.
  induction 1 as [|u w Hu Hs _ IH|h l w Hh Hl _ IH].
  - change (size (to_utf8 [])) with 0. change (size []) with 0. lia.
  - unfold to_utf8 in *. rewrite utf16_decode_unit by assumption.
    unfold Win32.utf8_encode in *. cbn [flat_map].
    rewrite size_app, size_cons.
    pose proof (utf8_bytes_length u ltac:(lia)). unfold size at 1. lia.
  - unfold to_utf8 in *. rewrite utf16_decode_pair by assumption.
    unfold Win32.utf8_encode in *. cbn [flat_map].
    rewrite size_app, !size_cons.
    assert (E : Win32.utf8_bytes (0x10000 + (h - 0xD800) * 1024 + (l - 0xDC00))
                = [0xF0 + (0x10000 + (h - 0xD800) * 1024 + (l - 0xDC00)) / 262144;
                   0x80 + ((0x10000 + (h - 0xD800) * 1024 + (l - 0xDC00)) / 4096) mod 64;
                   0x80 + ((0x10000 + (h - 0xD800) * 1024 + (l - 0xDC00)) / 64) mod 64;
                   0x80 + (0x10000 + (h - 0xD800) * 1024 + (l - 0xDC00)) mod 64]).
    { unfold Win32.utf8_bytes. compare_all. reflexivity. }
    rewrite E. unfold size at 1. simpl length. lia.
Qed.

(** X1.  Text of the ASCII range passes through both conversions
    unchanged: its bytes are its UTF-16 code units. *)
Theorem ascii_text_unchanged (s : list Z) :
  ascii_text s -> size s < 2 ^ 31 ->
  utf8ToWide s = Return s /\ wideToUtf8 s = Return s.
Proof.
  intros Ha Hs. rewrite utf8ToWide_Return, wideToUtf8_Return by assumption.
  clear Hs. induction Ha as [|c s Hc _ [IHw IHu]]; [split; reflexivity|].
  injection IHw as IHw. injection IHu as IHu. split; f_equal.
  - change (c :: s) with ([c] ++ s) at 1.
    rewrite (to_wide_step [c] s c 0)
      by (first [reflexivity | apply utf8_scalar_one; lia]).
    rewrite IHw. unfold Win32.utf16_units.
    destruct (Z.ltb_spec c 0x10000); [reflexivity|lia].
  - unfold to_utf8 in *. rewrite utf16_decode_unit by lia.
    unfold Win32.utf8_encode in *. cbn [flat_map]. rewrite IHu.
    unfold Win32.utf8_bytes. destruct (Z.ltb_spec c 0x80); [reflexivity|lia].
Qed.

Lemma ascii_text_unchanged_witness :
  utf8ToWide (lit "C:\Users\me\file.txt") = Return (L "C:\Users\me\file.txt")
  /\ wideToUtf8 (L "C:\Users\me\file.txt") = Return (lit "C:\Users\me\file.txt").
Proof.
  apply (ascii_text_unchanged (lit "C:\Users\me\file.txt")).
  - repeat constructor; vm_compute; congruence.
  - reflexivity.
Defined.

(** X2.  The round trip from the wide side: well-formed UTF-16 text,
    of a size whose threefold fits an [int], converted by [wideToUtf8]
    and back by [utf8ToWide], is returned unchanged. *)
Theorem wide_utf8_round_trip (w : list Z) :
  well_formed_utf16 w -> 3 * size w < 2 ^ 31 ->
  (utf8 <- wideToUtf8 w ;; utf8ToWide utf8) = Return w.
Proof.
  intros Hwf Hs. pose proof (size_nonneg w). pose proof (to_utf8_size w Hwf).
  rewrite wideToUtf8_Return by lia. cbn [bind].
  rewrite utf8ToWide_Return by lia.
  now rewrite transcode_round_trip_wide.
Qed.

(** The round trip on a letter, an accented letter, the euro sign and a
    surrogate pair. *)
Lemma wide_utf8_round_trip_witness :
  (utf8 <- wideToUtf8 [0x68; 0xE9; 0x20AC; 0xD83D; 0xDE00] ;; utf8ToWide utf8)
  = Return [0x68; 0xE9; 0x20AC; 0xD83D; 0xDE00].
Proof.
  apply wide_utf8_round_trip.
  - repeat (apply wf16_unit; [lia|lia|]).
    apply wf16_pair; [lia|lia|]. apply wf16_empty.
  - reflexivity.
Defined.



(* ================================================================= *)
(** ** Further properties of the filter-string builder *)

Lemma lacks_pipe_false (entry : list Z) :
  lacks_pipe entry = false <-> In PIPE entry.
Proof.
  unfold lacks_pipe. pose proof (find_char_None PIPE entry) as H.
  destruct (find_char PIPE entry).
  - split; [intros _|reflexivity].
    destruct (In_dec Z.eq_dec PIPE entry) as [i|ni]; [exact i|].
    apply H in ni. discriminate.
  - split; [discriminate|]. intros i. now apply (proj1 H eq_refl) in i.
Qed.

(** The loop stops at the first entry without a separator and quotes
    it. *)
Lemma buildFilter_for_first (filters : list (list Z)) (entry : list Z) :
  Forall (fun e => size e < 2 ^ 31) filters ->
  List.find lacks_pipe filters = Some entry ->
  forall filterStr,
    buildFilter_for filters filterStr
    = Throw (invalid_argument (filter_format_message entry)).
Proof.
  induction 1 as [|e l He _ IH]; cbn [List.find]; [discriminate|].
  destruct (lacks_pipe e) eqn:E.
  - intros [= ->] acc. cbn [buildFilter_for]. unfold lacks_pipe in E.
    now destruct (find_char PIPE entry).
  - intros Hfind acc. apply lacks_pipe_false in E.
    rewrite buildFilter_for_cons by assumption. now apply IH.
Qed.

(** X4.  A malformed filter list is reported first.  [buildFilter]
    throws the format error quoting the first entry without ['|'], and
    the three pickers throw that exception whatever their other
    arguments are and whatever the dialog would do. *)
Theorem malformed_filter_first
    (GetOpenFileNameW GetSaveFileNameW : OPENFILENAMEW -> bool * list Z)
    (CommDlgExtendedError : Z)
    (filters : list (list Z)) (entry : list Z)
    (title initialDir defaultFileName defaultExt : list Z) (parentHWND : Z) :
  Forall (fun e => size e < 2 ^ 31) filters ->
  List.find lacks_pipe filters = Some entry ->
  buildFilter filters = Throw (invalid_argument (filter_format_message entry))
  /\ getOpenFileName GetOpenFileNameW CommDlgExtendedError
       filters title initialDir defaultFileName defaultExt parentHWND
     = Throw (invalid_argument (filter_format_message entry))
  /\ getSaveFileName GetSaveFileNameW CommDlgExtendedError
       filters title initialDir defaultFileName defaultExt parentHWND
     = Throw (invalid_argument (filter_format_message entry))
  /\ getOpenMultipleFileNames GetOpenFileNameW CommDlgExtendedError
       filters title initialDir defaultFileName defaultExt parentHWND
     = Throw (invalid_argument (filter_format_message entry)).
Proof.
  intros Hs Hfind.
  assert (E : buildFilter filters
              = Throw (invalid_argument (filter_format_message entry))).
  { unfold buildFilter. now rewrite (buildFilter_for_first _ _ Hs Hfind). }
  repeat split; [exact E| | |].
  - unfold getOpenFileName, open_request, single_request. now rewrite E.
  - unfold getSaveFileName, save_request, single_request. now rewrite E.
  - unfold getOpenMultipleFileNames, multiple_request. now rewrite E.
Qed.

(** Two entries without a separator after a good one: the first of the
    two is quoted. *)
Lemma malformed_filter_first_witness :
  buildFilter [lit "All|*.*"; lit "bad one"; lit "worse"]
  = Throw (invalid_argument (filter_format_message (lit "bad one")))
  /\ getOpenFileName (fun ofn => (true, lpstrFile ofn)) 0
       [lit "All|*.*"; lit "bad one"; lit "worse"] [] [] [] [] 0
     = Throw (invalid_argument (filter_format_message (lit "bad one"))).
Proof.
  assert (H := malformed_filter_first
                 (fun ofn => (true, lpstrFile ofn))
                 (fun ofn => (true, lpstrFile ofn)) 0
                 [lit "All|*.*"; lit "bad one"; lit "worse"] (lit "bad one")
                 [] [] [] [] 0
                 ltac:(repeat constructor) eq_refl).
  split; [exact (proj1 H)|exact (proj1 (proj2 H))].
Defined.

(** What [utf8_scalar] recognises takes at least one byte, and is the
    first byte itself or a value of at least 128. *)
Lemma utf8_scalar_Some (s : list Z) (c : Z) (n : nat) :
  Win32.utf8_scalar s = Some (c, n) ->
  (exists m, n = S m) /\ (c = hd 0 s \/ 0x80 <= c).
Proof.
  unfold Win32.utf8_scalar, Win32.continuation, Win32.surrogate.
  destruct s as [|b0 r0]; [discriminate|].
  destruct ((0 <=? b0) && (b0 <? 0x80)).
  { intros [= <- <-]. split; [now exists 0%nat|now left]. }
  destruct r0 as [|b1 r1]; [discriminate|].
  match goal with |- context [if ?b then _ else _] => destruct b eqn:E2 end.
  { intros [= <- <-]. split; [now exists 1%nat|right].
    rewrite !andb_true_iff, !Z.leb_le in E2. lia. }
  destruct r1 as [|b2 r2]; [discriminate|]. cbv zeta.
  match goal with |- context [if ?b then _ else _] => destruct b eqn:E3 end.
  { intros [= <- <-]. split; [now exists 2%nat|right].
    rewrite !andb_true_iff, !Z.leb_le in E3. lia. }
  destruct r2 as [|b3 r3]; [discriminate|].
  match goal with |- context [if ?b then _ else _] => destruct b eqn:E4 end;
    [|discriminate].
  intros [= <- <-]. split; [now exists 3%nat|right].
  rewrite !andb_true_iff, !Z.leb_le in E4. lia.
Qed.

Lemma skipn_no_nul (n : nat) (s : list Z) : no_nul s -> no_nul (skipn n s).
Proof.
  unfold no_nul. intros H i. apply H.
  rewrite <- (firstn_skipn n s). apply in_or_app. now right.
Qed.

(** Bytes without [0] decode to values without [0]. *)
Lemma utf8_decode_no_nul (s : list Z) :
  no_nul s -> no_nul (Win32.utf8_decode 0 s).
Proof.
  remember (length s) as k eqn:Hk. revert s Hk.
  induction k as [k IH] using (well_founded_induction Wf_nat.lt_wf).
  intros s -> Hs. destruct s as [|b s]; [exact Hs|].
  destruct (Win32.utf8_scalar (b :: s)) as [[c n]|] eqn:E.
  - destruct (utf8_scalar_Some _ _ _ E) as [[m ->] Hc].
    rewrite (utf8_decode_head _ _ _ E). cbn [skipn].
    intros [Z0|i].
    + cbn [hd] in Hc. destruct Hc as [->|Hc]; [|lia].
      apply Hs. now left.
    + assert (Hl : (length (skipn m s) < length (b :: s))%nat)
        by (rewrite length_skipn; simpl; lia).
      apply (IH _ Hl (skipn m s) eq_refl); [|exact i].
      apply skipn_no_nul. intros j. apply Hs. now right.
  - change (Win32.utf8_decode 0 (b :: s))
      with (match Win32.utf8_scalar (b :: s) with
            | Some (c, n) => c :: Win32.utf8_decode (Nat.pred n) s
            | None => Win32.REPLACEMENT :: Win32.utf8_decode 0 s
            end).
    rewrite E. intros [Z0|i]; [discriminate Z0|].
    apply (IH (length s) ltac:(simpl; lia) s eq_refl); [|exact i].
    intros j. apply Hs. now right.
Qed.

Lemma utf16_units_no_nul (c : Z) : c <> 0 -> no_nul (Win32.utf16_units c).
Proof.
  intros Hc. unfold no_nul, Win32.utf16_units.
  destruct (Z.ltb_spec c 0x10000).
  - intros [E|[]]. congruence.
  - intros [E|[E|[]]]; revert E; divmod.
Qed.

(** Text without the byte [0] converts to text without the unit [0]. *)
Lemma to_wide_no_nul (s : list Z) : no_nul s -> no_nul (to_wide s).
Proof.
  intros H. apply utf8_decode_no_nul in H. unfold to_wide.
  induction (Win32.utf8_decode 0 s) as [|c l IH]; [exact H|].
  unfold Win32.utf16_encode. cbn [flat_map]. intros i.
  apply in_app_or in i. destruct i as [i|i].
  - apply (utf16_units_no_nul c); [|exact i]. intros ->. apply H. now left.
  - apply IH; [|exact i]. intros j. apply H. now right.
Qed.

(** A reader of C strings finds the strings written one after the
    other, and stops at the empty one after them. *)
Lemma strings_of_written (strings : list (list Z)) (tail : list Z) :
  Forall (fun s => s <> [] /\ no_nul s) strings ->
  forall n, (length strings < n)%nat ->
  strings_of n (flat_map (fun s => s ++ [0]) strings ++ 0 :: tail)
  = Some strings.
Proof.
  induction 1 as [|s l [Hne Hnul] _ IH]; intros n Hn.
  - destruct n; [simpl in Hn; lia|]. reflexivity.
  - destruct n; [simpl in Hn; lia|].
    cbn [flat_map]. rewrite <- !app_assoc. cbn [app strings_of].
    change (s ++ 0 :: ?x) with (s ++ 0 :: x).
    rewrite read_cstr_app by assumption.
    destruct s as [|c s]; [congruence|].
    rewrite IH by (simpl in Hn; lia). reflexivity.
Qed.

(** The buffer of entries that all have a separator, as terminated
    strings. *)
Lemma filter_buffer_strings (filters : list (list Z)) :
  filter_buffer filters
  = flat_map (fun s => s ++ [0]) (flat_map filter_pair filters) ++ [0].
Proof.
  unfold filter_buffer. f_equal.
  induction filters as [|e l IH]; [reflexivity|].
  cbn [flat_map]. rewrite IH, flat_map_app. unfold filter_pair.
  cbn [flat_map]. rewrite app_nil_r, <- !app_assoc. reflexivity.
Qed.

Lemma readable_pairs (filters : list (list Z)) :
  Forall readable_filter filters ->
  Forall (fun s => s <> [] /\ no_nul s) (flat_map filter_pair filters).
Proof.
  induction 1 as [|e l (Hp & Hl & Hpat & Hnul & Hs) _ IH]; [constructor|].
  cbn [flat_map filter_pair app].
  destruct (split_on_first_pipe e Hp) as [Hsplit _].
  assert (no_nul (label_of e) /\ no_nul (pattern_of e)) as [N1 N2].
  { unfold no_nul in *. split; intros i; apply Hnul; rewrite Hsplit;
      apply in_or_app; [now left|right; now right]. }
  repeat constructor; auto using to_wide_nonempty, to_wide_no_nul.
Qed.

(** X5.  The filter buffer reads back.  For entries that have a
    separator with text on both sides and hold no null byte, a reader
    of the double-null-terminated array handed to the dialog finds, in
    order, the label and the pattern of every entry, converted, and
    nothing else. *)
Theorem filter_buffer_read_back (filters : list (list Z)) :
  Forall readable_filter filters ->
  exists filter,
    buildFilter filters = Return filter
    /\ double_null_strings (c_array filter)
       = Some (flat_map filter_pair filters).
Proof.
  intros H. exists (filter_buffer filters). split.
  - unfold buildFilter. rewrite buildFilter_for_Return; [reflexivity| |].
    + eapply Forall_impl; [|exact H]. now intros e (_ & _ & _ & _ & Hs).
    + rewrite Forall_forall in H. intros e He. now destruct (H e He).
  - unfold double_null_strings, c_array.
    rewrite filter_buffer_strings, <- app_assoc. cbn [app].
    apply strings_of_written; [now apply readable_pairs|].
    rewrite length_app.
    pose proof (flat_map_tokens_length (flat_map filter_pair filters)).
    simpl length. lia.
Qed.

Lemma filter_buffer_read_back_witness :
  exists filter,
    buildFilter [lit "Images|*.bmp;*.jpg"; lit "All|*.*"] = Return filter
    /\ double_null_strings (c_array filter)
       = Some [L "Images"; L "*.bmp;*.jpg"; L "All"; L "*.*"].
Proof.
  refine (filter_buffer_read_back [lit "Images|*.bmp;*.jpg"; lit "All|*.*"] _).
  repeat constructor; vm_compute; intuition congruence.
Defined.

(** X6.  An entry with an empty label hides the rest of the list.
    When an entry starts with ['|'], the buffer [buildFilter] returns
    holds an empty string at that place, so a reader of the
    double-null-terminated array finds the entries before it and
    nothing of that entry or of those after it. *)
Theorem empty_label_ends_filter
    (before after : list (list Z)) (pattern : list Z) :
  Forall readable_filter before ->
  size (PIPE :: pattern) < 2 ^ 31 ->
  Forall (fun e => In PIPE e /\ size e < 2 ^ 31) after ->
  exists filter,
    buildFilter (before ++ (PIPE :: pattern) :: after) = Return filter
    /\ double_null_strings (c_array filter)
       = Some (flat_map filter_pair before).
Proof.
  intros Hb Hp Ha.
  exists (filter_buffer (before ++ (PIPE :: pattern) :: after)). split.
  - unfold buildFilter. rewrite buildFilter_for_Return; [reflexivity| |].
    + apply Forall_app. split.
      * eapply Forall_impl; [|exact Hb]. now intros e (_ & _ & _ & _ & Hs).
      * constructor; [exact Hp|].
        eapply Forall_impl; [|exact Ha]. now intros e [_ Hs].
    + intros e He. apply in_app_or in He. destruct He as [He|[<-|He]].
      * rewrite Forall_forall in Hb. now destruct (Hb e He).
      * now left.
      * rewrite Forall_forall in Ha. now destruct (Ha e He).
  - unfold double_null_strings.
    set (n := length (c_array (filter_buffer
                                 (before ++ (PIPE :: pattern) :: after)))).
    assert (Hn : (length (flat_map filter_pair before) < n)%nat).
    { subst n. unfold c_array, filter_buffer.
      rewrite flat_map_app, !length_app.
      pose proof (filter_buffer_strings before) as E.
      unfold filter_buffer in E. apply app_inv_tail in E. rewrite E.
      pose proof (flat_map_tokens_length (flat_map filter_pair before)).
      cbn [length]. lia. }
    clearbody n. unfold c_array, filter_buffer.
    rewrite flat_map_app.
    pose proof (filter_buffer_strings before) as E.
    unfold filter_buffer in E. apply app_inv_tail in E. rewrite E.
    cbn [flat_map].
    change (label_of (PIPE :: pattern)) with (@nil Z).
    change (to_wide []) with (@nil Z).
    rewrite <- !app_assoc. cbn [app].
    apply strings_of_written; [now apply readable_pairs|exact Hn].
Qed.

Lemma empty_label_ends_filter_witness :
  exists filter,
    buildFilter [lit "Text|*.txt"; lit "|*.bmp"; lit "All|*.*"] = Return filter
    /\ double_null_strings (c_array filter) = Some [L "Text"; L "*.txt"].
Proof.
  refine (empty_label_ends_filter [lit "Text|*.txt"] [lit "All|*.*"]
                                  (lit "*.bmp") _ _ _).
  - repeat constructor; vm_compute; intuition congruence.
  - reflexivity.
  - repeat constructor; vm_compute; intuition congruence.
Defined.

(* ================================================================= *)
(** ** Further properties of the file pickers *)

Lemma c_str_app (s rest : list Z) : no_nul s -> c_str (s ++ 0 :: rest) = s.
Proof.
  unfold no_nul. induction s as [|c s IH]; intros H; [reflexivity|].
  cbn [app c_str].
  destruct (Z.eqb_spec c 0) as [->|_]; [exfalso; apply H; now left|].
  rewrite IH; [reflexivity|]. intros i. apply H. now right.
Qed.

Lemma c_str_id (s : list Z) : no_nul s -> c_str s = s.
Proof.
  unfold no_nul. induction s as [|c s IH]; intros H; [reflexivity|].
  cbn [c_str].
  destruct (Z.eqb_spec c 0) as [->|_]; [exfalso; apply H; now left|].
  rewrite IH; [reflexivity|]. intros i. apply H. now right.
Qed.

Lemma c_str_zeros (n : nat) : c_str (repeat 0 n) = [].
Proof. now destruct n. Qed.

(** [wcscpy] of a text shorter than the buffer keeps the size of the
    buffer and leaves the text in it, terminated. *)
Lemma wcscpy_seed (block text : list Z) :
  size text < size block -> no_nul text ->
  size (wcscpy block text) = size block /\ c_str (wcscpy block text) = text.
Proof.
  intros Hs Hn. unfold wcscpy, Win32.store. split.
  - unfold size in *. rewrite length_app, length_skipn, length_app.
    cbn [length]. lia.
  - rewrite <- app_assoc. cbn [app]. now apply c_str_app.
Qed.

Lemma optional_wide_None (s : list Z) (o : option (list Z)) :
  optional_wide s = Return o -> (o = None <-> s = []).
Proof.
  unfold optional_wide. destruct s as [|b s]; cbn [empty negb].
  - intros [= <-]. tauto.
  - destruct (utf8ToWide (b :: s)); cbn [bind]; try discriminate.
    intros [= <-]. split; discriminate.
Qed.

Lemma optional_title_None (title wtitle : list Z) :
  optional_title title wtitle = None <-> title = [].
Proof.
  unfold optional_title. destruct title; cbn [empty negb];
    split; congruence.
Qed.

Lemma optional_wide_Return (s : list Z) :
  size s < 2 ^ 31 -> exists o, optional_wide s = Return o.
Proof.
  intros H. unfold optional_wide. destruct (negb (empty s)); [|eauto].
  rewrite utf8ToWide_Return by assumption. cbn [bind]. eauto.
Qed.

(** The file buffer the three pickers prepare: [n] zeros, with the
    default name at the start when there is one. *)
Lemma file_buffer_seed (n limit : Z) (defaultFileName : list Z)
    (measure : list Z -> Z) (filePath : list Z) :
  0 < n -> limit <= n ->
  (forall w, size w <= measure w) ->
  (if negb (empty defaultFileName) then
     defaultWide <- utf8ToWide defaultFileName ;;
     if limit <=? measure defaultWide
     then Throw (runtime_error (lit "Default file name is too long"))
     else Return (wcscpy (repeat 0 (Z.to_nat n)) (c_str defaultWide))
   else Return (repeat 0 (Z.to_nat n))) = Return filePath ->
  size filePath = n
  /\ (exists defaultWide,
        utf8ToWide defaultFileName = Return defaultWide
        /\ c_str filePath = c_str defaultWide)
  /\ size (c_str filePath) < n.
Proof.
  intros Hn Hl Hm.
  assert (Hz : size (repeat 0 (Z.to_nat n)) = n)
    by (unfold size; rewrite repeat_length; lia).
  destruct defaultFileName as [|b d]; cbn [empty negb].
  - intros [= <-]. rewrite c_str_zeros. change (size []) with 0.
    repeat split; [exact Hz| |lia]. exists []. now split.
  - destruct (utf8ToWide (b :: d)) as [dw| |]; cbn [bind]; try discriminate.
    destruct (Z.leb_spec limit (measure dw)); [discriminate|].
    intros [= <-].
    pose proof (c_str_size dw). specialize (Hm dw).
    destruct (wcscpy_seed (repeat 0 (Z.to_nat n)) (c_str dw)
                ltac:(lia) (c_str_no_nul dw)) as [E1 E2].
    rewrite E1, E2, Hz.
    split; [reflexivity|split; [exists dw; split; reflexivity|lia]].
Qed.

Lemma single_request_of (flags : Z) (filters : list (list Z))
    (title initialDir defaultFileName defaultExt : list Z) (parentHWND : Z)
    (ofn : OPENFILENAMEW) :
  single_request flags filters title initialDir defaultFileName defaultExt
                 parentHWND = Return ofn ->
  request_of title initialDir defaultFileName defaultExt parentHWND ofn.
Proof.
  unfold single_request.
  destruct (buildFilter filters) as [filter| |]; cbn [bind]; try discriminate.
  destruct (utf8ToWide title) as [wtitle| |]; cbn [bind]; try discriminate.
  match goal with
  | |- bind ?m _ = _ -> _ => destruct m as [filePath| |] eqn:Hseed
  end; cbn [bind]; try discriminate.
  apply (file_buffer_seed 4096 4096 defaultFileName (fun w => size w))
    in Hseed; [|lia|lia|intros; lia].
  destruct (optional_wide initialDir) as [dir| |] eqn:Hdir;
    cbn [bind]; try discriminate.
  destruct (optional_wide defaultExt) as [ext| |] eqn:Hext;
    cbn [bind]; try discriminate.
  intros [= <-]. unfold request_of.
  cbn [lpstrFile nMaxFile lpstrTitle lpstrInitialDir lpstrDefExt hwndOwner].
  destruct Hseed as (H1 & H2 & H3).
  repeat split; try assumption;
    try apply (optional_title_None title wtitle);
    try apply (optional_wide_None _ _ Hdir);
    try apply (optional_wide_None _ _ Hext).
Qed.

Lemma multiple_request_of (filters : list (list Z))
    (title initialDir defaultFileName defaultExt : list Z) (parentHWND : Z)
    (ofn : OPENFILENAMEW) :
  multiple_request filters title initialDir defaultFileName defaultExt
                   parentHWND = Return ofn ->
  request_of title initialDir defaultFileName defaultExt parentHWND ofn.
Proof.
  unfold multiple_request.
  destruct (buildFilter filters) as [filter| |]; cbn [bind]; try discriminate.
  destruct (utf8ToWide title) as [wtitle| |]; cbn [bind]; try discriminate.
  match goal with
  | |- bind ?m _ = _ -> _ => destruct m as [filePath| |] eqn:Hseed
  end; cbn [bind]; try discriminate.
  apply (file_buffer_seed 65536 65536 defaultFileName (fun w => size w * 2))
    in Hseed; [|lia|lia|intros w; pose proof (size_nonneg w); lia].
  destruct (optional_wide initialDir) as [dir| |] eqn:Hdir;
    cbn [bind]; try discriminate.
  destruct (optional_wide defaultExt) as [ext| |] eqn:Hext;
    cbn [bind]; try discriminate.
  intros [= <-]. unfold request_of.
  cbn [lpstrFile nMaxFile lpstrTitle lpstrInitialDir lpstrDefExt hwndOwner].
  destruct Hseed as (H1 & H2 & H3).
  repeat split; try assumption;
    try apply (optional_title_None title wtitle);
    try apply (optional_wide_None _ _ Hdir);
    try apply (optional_wide_None _ _ Hext).
Qed.

(** X7.  What the pickers hand to the dialog.  Whenever one of the
    three pickers gets as far as the native call, the file buffer of
    its request has exactly the announced [nMaxFile] characters, holds
    the converted default name up to its first null and a terminator
    inside the buffer, and the title, the initial directory and the
    default extension are null pointers exactly when the corresponding
    argument is empty. *)
Theorem picker_request
    (filters : list (list Z))
    (title initialDir defaultFileName defaultExt : list Z) (parentHWND : Z)
    (ofn : OPENFILENAMEW) :
  open_request filters title initialDir defaultFileName defaultExt parentHWND
  = Return ofn
  \/ save_request filters title initialDir defaultFileName defaultExt
                  parentHWND = Return ofn
  \/ multiple_request filters title initialDir defaultFileName defaultExt
                      parentHWND = Return ofn ->
  request_of title initialDir defaultFileName defaultExt parentHWND ofn.
Proof.
  intros [H|[H|H]].
  - exact (single_request_of _ _ _ _ _ _ _ _ H).
  - exact (single_request_of _ _ _ _ _ _ _ _ H).
  - exact (multiple_request_of _ _ _ _ _ _ _ H).
Qed.

Lemma picker_request_witness :
  exists ofn,
    save_request [lit "All|*.*"] (lit "Pick") [] (lit "a.txt") [] 7
    = Return ofn
    /\ request_of (lit "Pick") [] (lit "a.txt") [] 7 ofn.
Proof.
  eexists. split; [vm_compute; reflexivity|].
  apply (picker_request [lit "All|*.*"]). right. left.
  vm_compute. reflexivity.
Defined.

(** The preparation of a request goes through for a well-formed filter
    list and arguments that fit an [int], when the default name is
    shorter than the limit. *)
Lemma single_request_Return (flags : Z) (filters : list (list Z))
    (title initialDir defaultFileName defaultExt : list Z) (parentHWND : Z) :
  Forall (fun e => In PIPE e /\ size e < 2 ^ 31) filters ->
  size title < 2 ^ 31 -> size initialDir < 2 ^ 31 ->
  size defaultExt < 2 ^ 31 -> size defaultFileName < 2 ^ 31 ->
  size (to_wide defaultFileName) < 4096 ->
  exists ofn,
    single_request flags filters title initialDir defaultFileName defaultExt
                   parentHWND = Return ofn.
Proof.
  intros Hf Ht Hi He Hd Hw. unfold single_request, buildFilter.
  rewrite buildFilter_for_Return.
  2:{ eapply Forall_impl; [|exact Hf]. now intros e [_ Hs]. }
  2:{ rewrite Forall_forall in Hf. intros e Hin. now destruct (Hf e Hin). }
  cbn [bind]. rewrite (utf8ToWide_Return title Ht). cbn [bind].
  rewrite (utf8ToWide_Return defaultFileName Hd).
  destruct (optional_wide_Return initialDir Hi) as [dir ->].
  destruct (optional_wide_Return defaultExt He) as [ext ->].
  destruct (negb (empty defaultFileName)); cbn [bind].
  - destruct (Z.leb_spec 4096 (size (to_wide defaultFileName))); [lia|].
    cbn [bind]. eauto.
  - eauto.
Qed.

(** X8.  A default name that is too long.  With a well-formed filter
    list and a title that converts, a default file name of 4096 or
    more UTF-16 units makes [getOpenFileName] and [getSaveFileName]
    throw [runtime_error] before any dialog is shown; for
    [getOpenMultipleFileNames] the limit is 32768 units, half of the
    characters of its buffer. *)
Theorem default_name_too_long
    (GetOpenFileNameW GetSaveFileNameW : OPENFILENAMEW -> bool * list Z)
    (CommDlgExtendedError : Z)
    (filters : list (list Z)) (filter : list Z)
    (title initialDir defaultFileName defaultExt : list Z) (parentHWND : Z) :
  buildFilter filters = Return filter ->
  size title < 2 ^ 31 -> size defaultFileName < 2 ^ 31 ->
  (4096 <= size (to_wide defaultFileName) ->
   getOpenFileName GetOpenFileNameW CommDlgExtendedError
     filters title initialDir defaultFileName defaultExt parentHWND
   = Throw (runtime_error (lit "Default file name is too long"))
   /\ getSaveFileName GetSaveFileNameW CommDlgExtendedError
        filters title initialDir defaultFileName defaultExt parentHWND
      = Throw (runtime_error (lit "Default file name is too long")))
  /\ (32768 <= size (to_wide defaultFileName) ->
      getOpenMultipleFileNames GetOpenFileNameW CommDlgExtendedError
        filters title initialDir defaultFileName defaultExt parentHWND
      = Throw (runtime_error (lit "Default file name is too long"))).
Proof.
  intros Hf Ht Hd.
  assert (Hne : forall k, k <= size (to_wide defaultFileName) -> 0 < k ->
                          negb (empty defaultFileName) = true).
  { intros k Hk Hpos. destruct defaultFileName; [|reflexivity].
    change (size (to_wide [])) with 0 in Hk. lia. }
  split; intros Hw.
  - assert (E : forall flags,
               single_request flags filters title initialDir defaultFileName
                              defaultExt parentHWND
               = Throw (runtime_error (lit "Default file name is too long"))).
    { intros flags. unfold single_request. rewrite Hf. cbn [bind].
      rewrite (utf8ToWide_Return title Ht). cbn [bind].
      rewrite (Hne 4096 Hw eq_refl), (utf8ToWide_Return _ Hd). cbn [bind].
      destruct (Z.leb_spec 4096 (size (to_wide defaultFileName))); [|lia].
      reflexivity. }
    unfold getOpenFileName, getSaveFileName, open_request, save_request.
    now rewrite !E.
  - unfold getOpenMultipleFileNames, multiple_request. rewrite Hf. cbn [bind].
    rewrite (utf8ToWide_Return title Ht). cbn [bind].
    rewrite (Hne 32768 Hw eq_refl), (utf8ToWide_Return _ Hd). cbn [bind].
    destruct (Z.leb_spec 65536 (size (to_wide defaultFileName) * 2)); [|lia].
    reflexivity.
Qed.

Lemma default_name_too_long_witness :
  getOpenFileName accept_unchanged 0
    [lit "All|*.*"] [] [] (repeat 65 (Z.to_nat 4096)) [] 0
  = Throw (runtime_error (lit "Default file name is too long")).
Proof.
  assert (Hf : buildFilter [lit "All|*.*"]
               = Return (filter_buffer [lit "All|*.*"]))
    by (vm_compute; reflexivity).
  assert (Hs : size (repeat 65 (Z.to_nat 4096)) < 2 ^ 31)
    by (vm_compute; reflexivity).
  assert (Hw : 4096 <= size (to_wide (repeat 65 (Z.to_nat 4096))))
    by (vm_compute; discriminate).
  exact (proj1 (proj1 (default_name_too_long accept_unchanged accept_unchanged
                         0 [lit "All|*.*"] _ [] []
                         (repeat 65 (Z.to_nat 4096)) [] 0 Hf eq_refl Hs)
                      Hw)).
Defined.

(** X9.  What a picker returns after OK.  When the dialog is closed
    with OK, [getOpenFileName] and [getSaveFileName] return the text
    of the file buffer up to its first null, converted to UTF-8; a
    buffer that fits an [int] never makes them throw. *)
Theorem picker_returns_buffer_text
    (GetOpenFileNameW GetSaveFileNameW : OPENFILENAMEW -> bool * list Z)
    (CommDlgExtendedError : Z)
    (filters : list (list Z))
    (title initialDir defaultFileName defaultExt : list Z) (parentHWND : Z) :
  (forall ofn buffer,
     open_request filters title initialDir defaultFileName defaultExt
                  parentHWND = Return ofn ->
     GetOpenFileNameW ofn = (true, buffer) ->
     size buffer < 2 ^ 31 ->
     getOpenFileName GetOpenFileNameW CommDlgExtendedError
       filters title initialDir defaultFileName defaultExt parentHWND
     = Return (to_utf8 (c_str buffer)))
  /\ (forall ofn buffer,
     save_request filters title initialDir defaultFileName defaultExt
                  parentHWND = Return ofn ->
     GetSaveFileNameW ofn = (true, buffer) ->
     size buffer < 2 ^ 31 ->
     getSaveFileName GetSaveFileNameW CommDlgExtendedError
       filters title initialDir defaultFileName defaultExt parentHWND
     = Return (to_utf8 (c_str buffer))).
Proof.
  split; intros ofn buffer Hreq Hdlg Hs; pose proof (c_str_size buffer).
  - unfold getOpenFileName. rewrite Hreq. cbn [bind]. rewrite Hdlg.
    cbn [negb]. apply wideToUtf8_Return. lia.
  - unfold getSaveFileName. rewrite Hreq. cbn [bind]. rewrite Hdlg.
    cbn [negb]. apply wideToUtf8_Return. lia.
Qed.

Lemma picker_returns_buffer_text_witness :
  getOpenFileName (fun ofn => (true, wcscpy (lpstrFile ofn) (L "C:\a.txt"))) 0
    [lit "All|*.*"] [] [] [] [] 0
  = Return (lit "C:\a.txt").
Proof.
  refine (proj1 (picker_returns_buffer_text
                   (fun ofn => (true, wcscpy (lpstrFile ofn) (L "C:\a.txt")))
                   accept_unchanged 0 [lit "All|*.*"] [] [] [] [] 0)
                _ _ eq_refl eq_refl _).
  vm_compute. reflexivity.
Defined.

(** X10.  An untouched default name comes back.  For a well-formed
    filter list and arguments that fit an [int], when the default file
    name is well-formed UTF-8 without a null byte and shorter than
    4096 bytes, a dialog closed with OK that leaves the file buffer as
    it was makes [getOpenFileName] and [getSaveFileName] return the
    default file name itself. *)
Theorem untouched_default_name
    (CommDlgExtendedError : Z)
    (filters : list (list Z))
    (title initialDir defaultFileName defaultExt : list Z) (parentHWND : Z) :
  Forall (fun e => In PIPE e /\ size e < 2 ^ 31) filters ->
  size title < 2 ^ 31 -> size initialDir < 2 ^ 31 ->
  size defaultExt < 2 ^ 31 ->
  well_formed_utf8 defaultFileName -> no_nul defaultFileName ->
  size defaultFileName < 4096 ->
  getOpenFileName accept_unchanged CommDlgExtendedError
    filters title initialDir defaultFileName defaultExt parentHWND
  = Return defaultFileName
  /\ getSaveFileName accept_unchanged CommDlgExtendedError
       filters title initialDir defaultFileName defaultExt parentHWND
     = Return defaultFileName.
Proof.
  intros Hf Ht Hi He Hwf Hnul Hs.
  assert (Hw : size (to_wide defaultFileName) < 4096)
    by (pose proof (to_wide_length _ Hwf); unfold size in *; lia).
  assert (R : forall flags ofn,
             single_request flags filters title initialDir defaultFileName
                            defaultExt parentHWND = Return ofn ->
             wideToUtf8 (c_str (lpstrFile ofn)) = Return defaultFileName).
  { intros flags ofn Hreq.
    destruct (single_request_of _ _ _ _ _ _ _ _ Hreq)
      as (_ & (dw & Hdw & Hc) & _).
    rewrite utf8ToWide_Return in Hdw by lia. injection Hdw as <-.
    rewrite Hc, (c_str_id _ (to_wide_no_nul _ Hnul)).
    rewrite wideToUtf8_Return by lia.
    now rewrite transcode_round_trip. }
  split.
  - destruct (single_request_Return
                (Z.lor (Z.lor (Z.lor OFN_FILEMUSTEXIST OFN_PATHMUSTEXIST)
                              OFN_NOCHANGEDIR) OFN_EXPLORER)
                filters title initialDir defaultFileName defaultExt parentHWND
                Hf Ht Hi He ltac:(lia) Hw) as [ofn Hreq].
    unfold getOpenFileName, open_request. rewrite Hreq. cbn [bind].
    unfold accept_unchanged. cbn [negb]. exact (R _ _ Hreq).
  - destruct (single_request_Return
                (Z.lor (Z.lor (Z.lor OFN_OVERWRITEPROMPT OFN_PATHMUSTEXIST)
                              OFN_NOCHANGEDIR) OFN_EXPLORER)
                filters title initialDir defaultFileName defaultExt parentHWND
                Hf Ht Hi He ltac:(lia) Hw) as [ofn Hreq].
    unfold getSaveFileName, save_request. rewrite Hreq. cbn [bind].
    unfold accept_unchanged. cbn [negb]. exact (R _ _ Hreq).
Qed.

Lemma untouched_default_name_witness :
  getSaveFileName accept_unchanged 0
    [lit "All|*.*"] (lit "Save") [] (lit "report.txt") (lit "txt") 0
  = Return (lit "report.txt").
Proof.
  refine (proj2 (untouched_default_name 0 [lit "All|*.*"] (lit "Save") []
                   (lit "report.txt") (lit "txt") 0 _ eq_refl eq_refl eq_refl
                   _ _ eq_refl)).
  - repeat constructor; vm_compute; intuition congruence.
  - repeat (apply wf_one; [vm_compute; intuition congruence|]). apply wf_empty.
  - vm_compute. intuition congruence.
Defined.

(* ================================================================= *)
(** ** Further properties of the font-path resolver *)

(** The scanning loop on a key whose first value too large for the
    buffers is [big]: the values after it are not reached. *)
Lemma enumerate_cut (towlower : Z -> Z) (windowsDir query : list Z)
    (before after : list RegValue) (big : RegValue) :
  Forall enumerable before -> ~ enumerable big ->
  forall n index,
    (index <= length before)%nat -> (length before - index < n)%nat ->
    enumerate towlower windowsDir (before ++ big :: after) query n index
    = first_match windowsDir (selects towlower query) (skipn index before).
Proof.
  intros He Hbig. induction n as [|n IH]; intros index Hi Hn; [lia|].
  cbn [enumerate]. unfold Registry.RegEnumValueW, first_match.
  destruct (Nat.eq_dec index (length before)) as [->|Hne].
  - rewrite nth_error_app2 by lia. rewrite Nat.sub_diag. cbn [nth_error].
    assert (E : (256 <=? size (valueName big))
                || (1024 <? Registry.cbData big) = true).
    { unfold enumerable in Hbig.
      destruct (Z.leb_spec 256 (size (valueName big))); [reflexivity|].
      destruct (Z.ltb_spec 1024 (Registry.cbData big)); [reflexivity|].
      exfalso. apply Hbig. lia. }
    rewrite E. cbv iota.
    change (negb (ERROR_MORE_DATA =? ERROR_SUCCESS)) with true. cbv iota.
    now rewrite skipn_all.
  - destruct (nth_error before index) as [v|] eqn:E;
      [|apply nth_error_None in E; lia].
    rewrite nth_error_app1 by lia. rewrite E.
    assert (Hv : enumerable v).
    { rewrite Forall_forall in He. apply He. eapply nth_error_In; eauto. }
    destruct Hv as [Hname Hdata].
    destruct (Z.leb_spec 256 (size (valueName v))); [lia|].
    destruct (Z.ltb_spec 1024 (Registry.cbData v)); [lia|].
    cbn [orb]. change (negb (ERROR_SUCCESS =? ERROR_SUCCESS)) with false.
    cbv iota. rewrite (skipn_nth_error _ _ _ E). cbn [List.find].
    fold (selects towlower query v).
    destruct (selects towlower query v); [reflexivity|].
    rewrite IH; [reflexivity|lia|lia].
Qed.

(** X11.  A value too large for the buffers ends the scan.  When a
    fonts key holds a value whose name has 256 characters or more, or
    whose data needs more than 1024 bytes, [FindFontFileLocalMachine]
    and [FindFontFileCurrentUser] report the first match among the
    values before it: no value after it is ever found. *)
Theorem oversize_value_ends_scan (towlower : Z -> Z)
    (windowsDir query : list Z)
    (before after : list RegValue) (big : RegValue)
    (other : option (list RegValue)) :
  Forall enumerable before -> ~ enumerable big ->
  FindFontFileLocalMachine towlower windowsDir
    (mkRegistry (Some (before ++ big :: after)) other) query
  = first_match windowsDir (selects towlower query) before
  /\ FindFontFileCurrentUser towlower windowsDir
       (mkRegistry other (Some (before ++ big :: after))) query
     = first_match windowsDir (selects towlower query) before.
Proof.
  intros He Hbig.
  assert (E : scan_key towlower windowsDir (Some (before ++ big :: after)) query
              = first_match windowsDir (selects towlower query) before).
  { unfold scan_key.
    rewrite (enumerate_cut towlower windowsDir query before after big He Hbig)
      by (rewrite ?length_app; cbn [length]; lia).
    reflexivity. }
  split; exact E.
Qed.

(** Arial is registered, and not found: a value with a name of 300
    characters precedes it. *)
Lemma oversize_value_ends_scan_witness :
  FindFontFileLocalMachine ascii_towlower (L "C:\Windows")
    (mkRegistry
       (Some [mkRegValue (repeat 65 300) REG_SZ (L "long.ttf");
              mkRegValue (L "Arial (TrueType)") REG_SZ (L "arial.ttf")])
       None)
    (L "arial")
  = [].
Proof.
  refine (proj1 (oversize_value_ends_scan ascii_towlower (L "C:\Windows")
                   (L "arial") []
                   [mkRegValue (L "Arial (TrueType)") REG_SZ (L "arial.ttf")]
                   (mkRegValue (repeat 65 300) REG_SZ (L "long.ttf"))
                   None _ _)).
  - constructor.
  - unfold enumerable. vm_compute. intuition congruence.
Defined.

Lemma selects_empty_query (towlower : Z -> Z) (v : RegValue) :
  selects towlower [] v = string_value v.
Proof.
  unfold selects, string_value, font_name_matches. cbn [map].
  match goal with
  | |- context [find [] ?hay] => destruct hay; cbn [find prefix]
  end; apply andb_true_r.
Qed.

Lemma find_pointwise {A : Type} (f g : A -> bool) (l : list A) :
  (forall x, f x = g x) -> List.find f l = List.find g l.
Proof.
  intros H. induction l as [|x l IH]; [reflexivity|].
  cbn [List.find]. rewrite H, IH. reflexivity.
Qed.

Lemma first_match_app (windowsDir : list Z) (test : RegValue -> bool)
    (first second : list RegValue) :
  (if empty (first_match windowsDir test first)
   then first_match windowsDir test second
   else first_match windowsDir test first)
  = first_match windowsDir test (first ++ second).
Proof.
  unfold first_match. induction first as [|v l IH]; [reflexivity|].
  cbn [app List.find]. destruct (test v); [|exact IH].
  pose proof (font_path_nonempty windowsDir v).
  destruct (font_path_of windowsDir v); [congruence|reflexivity].
Qed.

Lemma FindFontFile_empty_query (towlower : Z -> Z) (windowsDir : list Z)
    (reg : registry) :
  Forall enumerable (values_of (HKEY_LOCAL_MACHINE reg)) ->
  Forall enumerable (values_of (HKEY_CURRENT_USER reg)) ->
  FindFontFile towlower windowsDir reg []
  = first_match windowsDir string_value (font_values reg).
Proof.
  intros Hlm Hcu.
  unfold FindFontFile, FindFontFileLocalMachine, FindFontFileCurrentUser.
  rewrite !scan_key_first_match by assumption.
  rewrite first_match_app. unfold first_match, font_values.
  now rewrite (find_pointwise _ _ _ (selects_empty_query towlower)).
Qed.

(** X12.  The empty query matches every name.  With values that fit
    the buffers, [FindFontFile] called with an empty name returns the
    path of the first value of string type, the per-machine key before
    the per-user key, whatever the names are; it returns the empty path
    only when there is no such value. *)
Theorem empty_query_first_string_value (towlower : Z -> Z)
    (windowsDir : list Z) (reg : registry) :
  Forall enumerable (values_of (HKEY_LOCAL_MACHINE reg)) ->
  Forall enumerable (values_of (HKEY_CURRENT_USER reg)) ->
  FindFontFile towlower windowsDir reg []
  = first_match windowsDir string_value (font_values reg)
  /\ (FindFontFile towlower windowsDir reg [] = []
      <-> forall v, In v (font_values reg) -> valueType v <> REG_SZ).
Proof.
  intros Hlm Hcu.
  rewrite (FindFontFile_empty_query towlower windowsDir reg Hlm Hcu).
  split; [reflexivity|]. unfold first_match.
  destruct (List.find string_value (font_values reg)) as [v|] eqn:E.
  - apply find_some in E. destruct E as [Hin Hv].
    apply Z.eqb_eq in Hv.
    split; [intros H; now apply font_path_nonempty in H|].
    intros H. now apply H in Hin.
  - split; [|reflexivity]. intros _ v Hin Hv.
    apply (find_none _ _ E) in Hin. unfold string_value in Hin.
    apply Z.eqb_neq in Hin. contradiction.
Qed.

Lemma empty_query_first_string_value_witness :
  FindFontFile ascii_towlower (L "C:\Windows")
    (mkRegistry
       (Some [mkRegValue (L "Marlett") REG_EXPAND_SZ (L "marlett.ttf")])
       (Some [mkRegValue (L "Arial (TrueType)") REG_SZ (L "arial.ttf")]))
    []
  = L "C:\Windows\Fonts\arial.ttf".
Proof.
  refine (proj1 (empty_query_first_string_value ascii_towlower (L "C:\Windows")
                   (mkRegistry
                      (Some [mkRegValue (L "Marlett") REG_EXPAND_SZ
                                        (L "marlett.ttf")])
                      (Some [mkRegValue (L "Arial (TrueType)") REG_SZ
                                        (L "arial.ttf")]))
                   _ _)).
  - repeat constructor; vm_compute; congruence.
  - repeat constructor; vm_compute; congruence.
Defined.

(* ================================================================= *)
(** ** Further properties of the colour and font pickers *)



Lemma LOBYTE_byte (x : Z) : byte (Gdi.LOBYTE x).
Proof.
  unfold byte, Gdi.LOBYTE, Gdi.BYTE. change 0xFF with (Z.ones 8).
  rewrite !Z.land_ones by lia. change (2 ^ 8) with 256.
  apply Z.mod_pos_bound. lia.
Qed.

Ltac testbits :=
  repeat match goal with
  | |- context [Z.testbit (Z.land ?a ?b) ?i] => rewrite (Z.land_spec a b i)
  | |- context [Z.testbit (Z.lor ?a ?b) ?i] => rewrite (Z.lor_spec a b i)
  | |- context [Z.testbit (Z.shiftl ?a ?k) ?i] =>
    first [rewrite (Z.shiftl_spec a k i) by lia
          |rewrite (Z.testbit_neg_r (Z.shiftl a k) i) by lia]
  | |- context [Z.testbit (Z.shiftr ?a ?k) ?i] =>
    first [rewrite (Z.shiftr_spec a k i) by lia
          |rewrite (Z.testbit_neg_r (Z.shiftr a k) i) by lia]
  | |- context [Z.testbit (Z.ones ?k) ?i] =>
    first [rewrite (Z.ones_spec_low k i) by lia
          |rewrite (Z.ones_spec_high k i) by lia
          |rewrite (Z.testbit_neg_r (Z.ones k) i) by lia]
  end;
  rewrite ?Z.sub_add;
  repeat match goal with
         | |- context [Z.testbit ?x ?i] => destruct (Z.testbit x i)
         end;
  reflexivity.

(** The three channels of a [COLORREF] put together again: its low 24
    bits. *)
Lemma RGB_of_channels (x : Z) :
  Gdi.RGB (Gdi.GetRValue x) (Gdi.GetGValue x) (Gdi.GetBValue x)
  = Z.land x 0xFFFFFF.
Proof.
  unfold Gdi.GetRValue, Gdi.GetGValue, Gdi.GetBValue, Gdi.RGB, Gdi.LOBYTE,
         Gdi.BYTE, Gdi.WORD, Gdi.DWORD.
  change 0xFF with (Z.ones 8); change 0xFFFF with (Z.ones 16);
  change 0xFFFFFFFF with (Z.ones 32); change 0xFFFFFF with (Z.ones 24).
  apply Z.bits_inj'; intros n Hn.
  destruct (Z.ltb_spec n 8); [|destruct (Z.ltb_spec n 16);
                                [|destruct (Z.ltb_spec n 24);
                                  [|destruct (Z.ltb_spec n 32)]]];
    testbits.
Qed.

(** X14.  What [chooseColor] returns is a colour, and it seeds the next
    call.  Whenever [chooseColor] returns, the four channels are bytes
    and the custom colours are those the dialog left; a further call
    given the returned colour and custom colours hands the dialog the
    low 24 bits of the [COLORREF] the first dialog reported, whatever
    its high byte was. *)
Theorem chooseColor_reseeds
    (ChooseColorW : CC.CHOOSECOLORW -> bool * CC.CHOOSECOLORW)
    (CommDlgExtendedError : Z)
    (customColors : list Z) (selectedColor : SDL_Color) (hwndParent : Z)
    (ok : bool) (cc : CC.CHOOSECOLORW)
    (color : SDL_Color) (customColors' : list Z) :
  ChooseColorW (color_request customColors selectedColor hwndParent)
  = (ok, cc) ->
  chooseColor ChooseColorW CommDlgExtendedError customColors selectedColor
              hwndParent
  = Return (color, customColors') ->
  color_channels color
  /\ customColors' = CC.lpCustColors cc
  /\ forall hwnd,
       color_request customColors' color hwnd
       = CC.mk hwnd (Z.land (CC.rgbResult cc) 0xFFFFFF) (CC.lpCustColors cc)
               (Z.lor CC_RGBINIT CC_FULLOPEN).
Proof.
  intros Hdlg. unfold chooseColor. rewrite Hdlg.
  destruct (if negb ok
            then if negb (CommDlgExtendedError =? 0)
                 then Throw (runtime_error
                               (lit "Choose color dialog failed: "
                                ++ to_string CommDlgExtendedError))
                 else Return tt
            else Return tt); cbn [bind]; try discriminate.
  intros [= <- <-]. split; [|split; [reflexivity|]].
  - unfold color_channels. cbn [r g b a].
    repeat split; try apply LOBYTE_byte; lia.
  - intros hwnd. unfold color_request. cbn [r g b].
    now rewrite RGB_of_channels.
Qed.

Lemma chooseColor_reseeds_witness :
  color_request [] (mkColor 0x56 0x34 0x12 255) 5
  = CC.mk 5 0x123456 [] (Z.lor CC_RGBINIT CC_FULLOPEN).
Proof.
  exact (proj2 (proj2 (chooseColor_reseeds
                         (fun cc => (true, CC.mk 0 0x7F123456 [] 0)) 0
                         [] (mkColor 1 2 3 4) 0 true
                         (CC.mk 0 0x7F123456 [] 0)
                         (mkColor 0x56 0x34 0x12 255) []
                         eq_refl eq_refl)) 5).
Defined.

(* ================================================================= *)
(** ** The directory picker *)

(** X15.  The outcomes of [getOpenDirectoryName].  Once its request is
    built: when the folder dialog returns no item list it returns the
    empty string and frees nothing; when the item list has no path it
    throws [runtime_error]; otherwise it returns the text of the path
    buffer up to its first null, converted.  In the last two cases the
    item list is passed to [CoTaskMemFree] exactly once. *)
Theorem getOpenDirectoryName_outcomes
    (SHBrowseForFolderW : BI.BROWSEINFOW -> option Z)
    (SHGetPathFromIDListW : Z -> list Z -> bool * list Z)
    (title initialDir : list Z) (parentHWND : Z) (bi : BI.BROWSEINFOW) :
  directory_request title initialDir parentHWND = Return bi ->
  (SHBrowseForFolderW bi = None ->
   getOpenDirectoryName SHBrowseForFolderW SHGetPathFromIDListW
     title initialDir parentHWND
   = ([], Return []))
  /\ (forall pidl path,
        SHBrowseForFolderW bi = Some pidl ->
        SHGetPathFromIDListW pidl (repeat 0 (Z.to_nat MAX_PATH))
        = (false, path) ->
        getOpenDirectoryName SHBrowseForFolderW SHGetPathFromIDListW
          title initialDir parentHWND
        = ([pidl],
           Throw (runtime_error (lit "Failed to get path from ID list"))))
  /\ (forall pidl path,
        SHBrowseForFolderW bi = Some pidl ->
        SHGetPathFromIDListW pidl (repeat 0 (Z.to_nat MAX_PATH))
        = (true, path) ->
        size path < 2 ^ 31 ->
        getOpenDirectoryName SHBrowseForFolderW SHGetPathFromIDListW
          title initialDir parentHWND
        = ([pidl], Return (to_utf8 (c_str path)))).
Proof.
  intros Hreq. unfold getOpenDirectoryName. rewrite Hreq.
  split; [|split].
  - intros ->. reflexivity.
  - intros pidl path -> Hpath.
    change (Z.to_nat 260) with (Z.to_nat MAX_PATH). now rewrite Hpath.
  - intros pidl path -> Hpath Hs.
    change (Z.to_nat 260) with (Z.to_nat MAX_PATH). rewrite Hpath.
    cbn [negb]. pose proof (c_str_size path).
    rewrite wideToUtf8_Return by lia. reflexivity.
Qed.

Lemma getOpenDirectoryName_outcomes_witness :
  getOpenDirectoryName (fun _ => Some 42)
    (fun _ buffer => (true, wcscpy buffer (L "C:\Users")))
    (lit "Pick a folder") [] 0
  = ([42], Return (lit "C:\Users")).
Proof.
  refine (proj2 (proj2 (getOpenDirectoryName_outcomes
                          (fun _ => Some 42)
                          (fun _ buffer => (true, wcscpy buffer (L "C:\Users")))
                          (lit "Pick a folder") [] 0 _ eq_refl))
                42 _ eq_refl eq_refl eq_refl).
Defined.

(** X16.  The initial directory of the folder dialog.  For a title and
    an initial directory that fit an [int]: without an initial
    directory the request has no callback and no data; with one, the
    data is the converted directory up to its first null and the
    callback, when the dialog reports that it is initialised, sends it
    [BFFM_SETSELECTIONW] with that data, and sends nothing for any
    other message.  The prompt text is passed only when the title is
    not empty. *)
Theorem directory_request_callback
    (title initialDir : list Z) (parentHWND : Z) :
  size title < 2 ^ 31 -> size initialDir < 2 ^ 31 ->
  exists bi,
    directory_request title initialDir parentHWND = Return bi
    /\ BI.hwndOwner bi = parentHWND
    /\ (BI.lpszTitle bi = None <-> title = [])
    /\ (initialDir = [] -> BI.lParam bi = None /\ BI.lpfn bi = None)
    /\ (initialDir <> [] ->
        BI.lParam bi = Some (c_str (to_wide initialDir))
        /\ exists callback,
             BI.lpfn bi = Some callback
             /\ callback BFFM_INITIALIZED (BI.lParam bi)
                = ([BI.SendMessageW BFFM_SETSELECTIONW 1
                                    (Some (c_str (to_wide initialDir)))], 0)
             /\ forall uMsg lpData,
                  uMsg <> BFFM_INITIALIZED -> callback uMsg lpData = ([], 0)).
Proof.
  intros Ht Hd. unfold directory_request.
  rewrite (utf8ToWide_Return title Ht). cbn [bind].
  destruct initialDir as [|c d].
  - cbn [empty negb bind]. eexists. split; [reflexivity|].
    cbn [BI.hwndOwner BI.lpszTitle BI.lParam BI.lpfn].
    split; [reflexivity|]. split; [apply optional_title_None|].
    split; [auto|congruence].
  - cbn [empty negb]. rewrite (utf8ToWide_Return (c :: d) Hd). cbn [bind].
    pose proof (to_wide_nonempty (c :: d) ltac:(discriminate)) as Hne.
    destruct (to_wide (c :: d)) as [|u w] eqn:E; [congruence|].
    cbn [empty negb]. eexists. split; [reflexivity|].
    cbn [BI.hwndOwner BI.lpszTitle BI.lParam BI.lpfn].
    split; [reflexivity|]. split; [apply optional_title_None|].
    split; [discriminate|]. intros _. split; [reflexivity|].
    exists BrowseCallbackProc. split; [reflexivity|]. split; [reflexivity|].
    intros uMsg lpData Hmsg. unfold BrowseCallbackProc.
    destruct (Z.eqb_spec uMsg BFFM_INITIALIZED); [contradiction|reflexivity].
Qed.

Lemma directory_request_callback_witness :
  exists bi,
    directory_request (lit "Pick a folder") (lit "C:\Users") 0 = Return bi
    /\ BI.lParam bi = Some (L "C:\Users").
Proof.
  destruct (directory_request_callback (lit "Pick a folder") (lit "C:\Users") 0
              eq_refl eq_refl) as (bi & Hreq & _ & _ & _ & Hdir).
  exists bi. split; [exact Hreq|].
  exact (proj1 (Hdir ltac:(discriminate))).
Defined.

(* ================================================================= *)
(** ** The multi-select buffer without its final terminator *)

Lemma selected_files_unterminated (directory : list Z) (files : list (list Z)) :
  forall (n : nat) (selectedFiles : list (list Z)),
  Forall file_token files ->
  (forall t, In t files -> size (directory ++ BACKSLASH :: t) < 2 ^ 31) ->
  selected_files n directory (flat_map (fun t => t ++ [0]) files)
                 selectedFiles
  = Undefined.
Proof.
  induction files as [|t files IH]; intros n acc Hf Hs.
  - destruct n; reflexivity.
  - destruct n; [reflexivity|].
    inversion Hf as [|? ? [Hne Hnul] Hf']; subst.
    cbn [flat_map]. rewrite <- !app_assoc.
    destruct t as [|c t]; [congruence|].
    cbn [selected_files app].
    destruct (Z.eqb_spec c 0) as [->|_]; [exfalso; apply Hnul; now left|].
    change (c :: t ++ 0 :: ?x) with ((c :: t) ++ 0 :: x).
    rewrite read_cstr_app by assumption.
    rewrite wideToUtf8_Return by (apply Hs; now left). cbn [bind].
    apply IH; [assumption|intros; apply Hs; now right].
Qed.

Lemma read_cstr_no_nul (s : list Z) : no_nul s -> read_cstr s = None.
Proof.
  unfold no_nul. induction s as [|c s IH]; intros H; [reflexivity|].
  cbn [read_cstr].
  destruct (Z.eqb_spec c 0) as [->|_]; [exfalso; apply H; now left|].
  rewrite IH; [reflexivity|]. intros i. apply H. now right.
Qed.

(** X17.  The parse of the multi-select buffer has no bound of its
    own.  On a buffer without any null, and on a buffer that holds the
    directory and file names, each terminated, but not the empty name
    that should end the list, the parse of [getOpenMultipleFileNames]
    reads past the end of the buffer: its behaviour is undefined. *)
Theorem unterminated_selection
    (GetOpenFileNameW : OPENFILENAMEW -> bool * list Z)
    (CommDlgExtendedError : Z)
    (filters : list (list Z))
    (title initialDir defaultFileName defaultExt : list Z) (parentHWND : Z)
    (ofn : OPENFILENAMEW) (buffer : list Z) :
  multiple_request filters title initialDir defaultFileName defaultExt
                   parentHWND = Return ofn ->
  GetOpenFileNameW ofn = (true, buffer) ->
  (no_nul buffer
   \/ exists directory files,
        buffer = directory ++ 0 :: flat_map (fun t => t ++ [0]) files
        /\ no_nul directory /\ Forall file_token files
        /\ forall t, In t files ->
                     size (directory ++ BACKSLASH :: t) < 2 ^ 31) ->
  getOpenMultipleFileNames GetOpenFileNameW CommDlgExtendedError
    filters title initialDir defaultFileName defaultExt parentHWND
  = Undefined.
Proof.
  intros Hreq Hdlg Hbuf. unfold getOpenMultipleFileNames.
  rewrite Hreq. cbn [bind]. rewrite Hdlg. cbn [negb].
  unfold parse_selection.
  destruct Hbuf as [Hnul|(directory & files & -> & Hd & Hf & Hs)].
  - now rewrite read_cstr_no_nul.
  - rewrite read_cstr_app by assumption.
    destruct files as [|t files]; [reflexivity|].
    inversion Hf as [|? ? [Hne Hnul] Hf']; subst.
    destruct t as [|c t]; [congruence|].
    cbn [flat_map app].
    destruct (Z.eqb_spec c 0) as [->|_]; [exfalso; apply Hnul; now left|].
    exact (selected_files_unterminated directory ((c :: t) :: files) _ []
             Hf Hs).
Qed.

Lemma unterminated_selection_witness :
  getOpenMultipleFileNames
    (fun ofn => (true, L "C:\dir" ++ 0 :: L "a.txt" ++ [0])) 0
    [lit "All|*.*"] [] [] [] [] 0
  = Undefined.
Proof.
  eapply (unterminated_selection
            (fun ofn => (true, L "C:\dir" ++ 0 :: L "a.txt" ++ [0])) 0
            [lit "All|*.*"] [] [] [] [] 0).
  - unfold multiple_request.
    change (buildFilter [lit "All|*.*"])
      with (Return (filter_buffer [lit "All|*.*"])).
    reflexivity.
  - reflexivity.
  - right. exists (L "C:\dir"), [L "a.txt"].
    split; [reflexivity|].
    split; [vm_compute; intuition congruence|].
    split; [repeat constructor; vm_compute; intuition congruence|].
    intros t [<-|[]]. vm_compute. reflexivity.
Defined.

(* ================================================================= *)
(** ** Further properties of the two hand-built dialogs *)

(** While only events that cannot end it arrive, the message loop of
    the prompt dialog retrieves them one by one and goes on waiting. *)
Lemma prompt_loop_waits (events : list event) :
  Forall (fun e => quiet e = true) events ->
  forall block confirmed text,
    Prompt.message_loop (Prompt.mk block confirmed text false) events
    = (map GetMessageW events, None).
Proof.
  induction 1 as [|e events He _ IH]; intros block confirmed text;
    [reflexivity|].
  cbn [Prompt.message_loop Prompt.quit map].
  destruct e as [t|m]; cbn [Prompt.deliver].
  - cbn [Prompt.g_inputText Prompt.g_did_confirm Prompt.quit].
    now rewrite IH.
  - cbn [quiet] in He. apply negb_true_iff in He.
    rewrite PromptDialogProc_quiet by exact He. now rewrite IH.
Qed.

(** X18.  The prompt dialog waits.  Once its texts are converted and
    its window, centred on the screen, is created, [promptDialog] does
    not return while the events that arrive are edits of the text and
    messages other than a click on OK or Cancel, the window-close
    request and the destruction of the window: it has registered the
    class, created and shown the window, retrieved every event, and is
    still in its message loop. *)
Theorem promptDialog_waits
    (SM_CXSCREEN SM_CYSCREEN : Z) (fresh_block : list Z)
    (events : list event) (g_did_confirm : bool)
    (title content defaultContent : list Z)
    (g_message g_defalutContent wtitle : list Z) :
  utf8ToWide content = Return g_message ->
  utf8ToWide defaultContent = Return g_defalutContent ->
  utf8ToWide title = Return wtitle ->
  Forall (fun e => quiet e = true) events ->
  promptDialog true SM_CXSCREEN SM_CYSCREEN fresh_block events
               g_did_confirm title content defaultContent
  = Return ([RegisterClassExW PromptDialogClass;
             prompt_window wtitle SM_CXSCREEN SM_CYSCREEN;
             ShowWindow; UpdateWindow]
            ++ map GetMessageW events,
            None).
Proof.
  intros Hmsg Hdef Htitle Hq. unfold promptDialog.
  rewrite Hmsg. cbn [bind]. rewrite Hdef. cbn [bind]. rewrite Htitle.
  cbn [bind]. rewrite prompt_loop_waits by assumption. reflexivity.
Qed.

Lemma promptDialog_waits_witness :
  promptDialog true 1920 1080 (repeat 0 256)
    [UserEdits (L "abc"); Dispatch (WM_SIZE 0); Dispatch (WM_COMMAND 1002)]
    false (lit "Title") (lit "Name?") []
  = Return ([RegisterClassExW PromptDialogClass;
             prompt_window (L "Title") 1920 1080;
             ShowWindow; UpdateWindow;
             GetMessageW (UserEdits (L "abc"));
             GetMessageW (Dispatch (WM_SIZE 0));
             GetMessageW (Dispatch (WM_COMMAND 1002))],
            None).
Proof.
  refine (promptDialog_waits 1920 1080 (repeat 0 256)
            [UserEdits (L "abc"); Dispatch (WM_SIZE 0);
             Dispatch (WM_COMMAND 1002)]
            false (lit "Title") (lit "Name?") [] _ _ (L "Title")
            eq_refl eq_refl _ _).
  - vm_compute. reflexivity.
  - repeat constructor.
Defined.

(** X19.  The prompt dialog without a window.  When the window cannot
    be created the message loop is skipped.  [promptDialog] then
    returns false with an empty output if the flag [g_did_confirm] was
    false when it was entered; if an earlier dialog left the flag true
    it returns true and, as the output, whatever the freshly allocated
    block holds up to its first null, and its behaviour is undefined
    when the block holds none. *)
Theorem promptDialog_without_window
    (SM_CXSCREEN SM_CYSCREEN : Z) (fresh_block : list Z)
    (events : list event)
    (title content defaultContent : list Z)
    (g_message g_defalutContent wtitle : list Z) :
  utf8ToWide content = Return g_message ->
  utf8ToWide defaultContent = Return g_defalutContent ->
  utf8ToWide title = Return wtitle ->
  promptDialog false SM_CXSCREEN SM_CYSCREEN fresh_block events
               false title content defaultContent
  = Return ([RegisterClassExW PromptDialogClass;
             prompt_window wtitle SM_CXSCREEN SM_CYSCREEN;
             UnregisterClassW PromptDialogClass],
            Some (false, []))
  /\ (forall text rest,
        read_cstr fresh_block = Some (text, rest) ->
        size text < 2 ^ 31 ->
        promptDialog false SM_CXSCREEN SM_CYSCREEN fresh_block events
                     true title content defaultContent
        = Return ([RegisterClassExW PromptDialogClass;
                   prompt_window wtitle SM_CXSCREEN SM_CYSCREEN;
                   UnregisterClassW PromptDialogClass],
                  Some (true, to_utf8 text)))
  /\ (read_cstr fresh_block = None ->
      promptDialog false SM_CXSCREEN SM_CYSCREEN fresh_block events
                   true title content defaultContent
      = Undefined).
Proof.
  intros Hmsg Hdef Htitle. unfold promptDialog.
  rewrite Hmsg. cbn [bind]. rewrite Hdef. cbn [bind]. rewrite Htitle.
  cbn [bind negb Prompt.g_did_confirm Prompt.g_inputText].
  unfold wstring_of_array.
  split; [reflexivity|split].
  - intros text rest -> Hs. cbn [bind].
    rewrite wideToUtf8_Return by assumption. reflexivity.
  - intros ->. reflexivity.
Qed.

(** The block holds what an earlier use of the memory left in it. *)
Lemma promptDialog_without_window_witness :
  promptDialog false 1920 1080 (L "old" ++ repeat 0 253)
    [] true (lit "Title") (lit "Name?") []
  = Return ([RegisterClassExW PromptDialogClass;
             prompt_window (L "Title") 1920 1080;
             UnregisterClassW PromptDialogClass],
            Some (true, lit "old")).
Proof.
  refine (proj1 (proj2 (promptDialog_without_window 1920 1080
                          (L "old" ++ repeat 0 253) []
                          (lit "Title") (lit "Name?") [] _ _ (L "Title")
                          eq_refl eq_refl _))
                (L "old") _ eq_refl eq_refl).
  vm_compute. reflexivity.
Defined.

Lemma msgbox_loop_waits (st : MsgBox.state) (messages : list message) :
  MsgBox.quit st = false ->
  Forall (fun m => ends_message_box
                     (Z.of_nat (length (MsgBox.g_options st))) m = false)
         messages ->
  MsgBox.message_loop st messages
  = (map (fun m => GetMessageW (Dispatch m)) messages, None).
Proof.
  intros Hq. induction 1 as [|m messages Hm _ IH];
    cbn [MsgBox.message_loop map]; rewrite Hq; [reflexivity|].
  rewrite MessageBoxDialogProc_quiet by assumption. now rewrite IH.
Qed.

(** X20.  The message box waits.  Once its texts are converted, its
    class registered and its window created, centred on the screen and
    40 pixels higher for every three options after the first three,
    [messageBox] does not return while the messages dispatched are
    neither a click on an option button nor the window-close request
    nor the destruction of the window. *)
Theorem messageBox_waits
    (SM_CXSCREEN SM_CYSCREEN : Z)
    (messages : list message) (title content : list Z)
    (options : list (Z * list Z))
    (g_options : list (Z * list Z)) (g_msgContent g_boxTitle : list Z) :
  options <> [] ->
  MsgBox.convert_options options = Return g_options ->
  utf8ToWide content = Return g_msgContent ->
  utf8ToWide title = Return g_boxTitle ->
  Forall (fun m => ends_message_box (Z.of_nat (length options)) m = false)
         messages ->
  messageBox true true SM_CXSCREEN SM_CYSCREEN messages title content options
  = Return ([RegisterClassExW CustomMessageBoxClass;
             message_box_window g_boxTitle SM_CXSCREEN SM_CYSCREEN
                                (length options);
             ShowWindow; UpdateWindow]
            ++ map (fun m => GetMessageW (Dispatch m)) messages,
            None).
Proof.
  intros Hne Hopt Hmsg Htitle Hq.
  destruct options as [|o options]; [congruence|].
  unfold messageBox. cbn [empty].
  rewrite Hopt. cbn [bind]. rewrite Hmsg. cbn [bind]. rewrite Htitle.
  cbn [bind negb]. rewrite msgbox_loop_waits; [reflexivity|reflexivity|].
  cbn [MsgBox.g_options]. now rewrite (convert_options_length _ _ Hopt).
Qed.

Lemma messageBox_waits_witness :
  messageBox true true 1920 1080 [WM_SIZE 0; WM_COMMAND 2002; WM_COMMAND 1]
             (lit "Title") (lit "Sure?") [(7, lit "Yes"); (8, lit "No")]
  = Return ([RegisterClassExW CustomMessageBoxClass;
             message_box_window (L "Title") 1920 1080 2;
             ShowWindow; UpdateWindow;
             GetMessageW (Dispatch (WM_SIZE 0));
             GetMessageW (Dispatch (WM_COMMAND 2002));
             GetMessageW (Dispatch (WM_COMMAND 1))],
            None).
Proof.
  refine (messageBox_waits 1920 1080 [WM_SIZE 0; WM_COMMAND 2002; WM_COMMAND 1]
            (lit "Title") (lit "Sure?") [(7, lit "Yes"); (8, lit "No")]
            [(7, L "Yes"); (8, L "No")] _ (L "Title") _ _ eq_refl _ _).
  - discriminate.
  - vm_compute. reflexivity.
  - vm_compute. reflexivity.
  - repeat constructor.
Defined.

Lemma MessageBoxDialogProc_chosen (st : MsgBox.state) (m : message) :
  chosen (MsgBox.g_options st) (MsgBox.g_selectedId st) ->
  MsgBox.g_options (MsgBox.MessageBoxDialogProc st m) = MsgBox.g_options st
  /\ chosen (MsgBox.g_options st)
            (MsgBox.g_selectedId (MsgBox.MessageBoxDialogProc st m)).
Proof.
  intros H. destruct m; cbn [MsgBox.MessageBoxDialogProc]; auto.
  - cbv zeta.
    match goal with
    | |- context [if ?c then _ else _] => destruct c
    end; [|auto].
    destruct (nth_error (MsgBox.g_options st) _) as [opt|] eqn:E; [|auto].
    split; [reflexivity|]. right.
    cbn [MsgBox.DestroyWindow MsgBox.PostQuitMessage MsgBox.g_selectedId
         MsgBox.g_options].
    apply in_map. eapply nth_error_In. exact E.
  - split; [reflexivity|]. now left.
Qed.

Lemma msgbox_loop_chosen (messages : list message) :
  forall st calls final,
    MsgBox.message_loop st messages = (calls, Some final) ->
    chosen (MsgBox.g_options st) (MsgBox.g_selectedId st) ->
    chosen (MsgBox.g_options st) (MsgBox.g_selectedId final).
Proof.
  induction messages as [|m messages IH]; intros st calls final;
    cbn [MsgBox.message_loop]; destruct (MsgBox.quit st).
  - now intros [= <- <-].
  - discriminate.
  - now intros [= <- <-].
  - destruct (MsgBox.message_loop (MsgBox.MessageBoxDialogProc st m) messages)
      as [c f] eqn:E.
    intros [= <- ->] Hc.
    destruct (MessageBoxDialogProc_chosen st m Hc) as [Ho Hc'].
    specialize (IH _ _ _ E). rewrite Ho in IH. now apply IH.
Qed.

(** X21.  What a message box can return.  Whatever the machine does
    and whatever messages arrive, a value [messageBox] returns is -1
    when there are no options and otherwise 0 or the id of one of the
    options: it never reports an id the caller did not supply. *)
Theorem messageBox_result_range
    (registered created : bool) (SM_CXSCREEN SM_CYSCREEN : Z)
    (messages : list message) (title content : list Z)
    (options : list (Z * list Z)) (calls : list syscall) (result : Z) :
  messageBox registered created SM_CXSCREEN SM_CYSCREEN messages
             title content options
  = Return (calls, Some result) ->
  (options = [] /\ result = -1)
  \/ (options <> [] /\ chosen options result).
Proof.
  unfold messageBox. destruct options as [|o options]; cbn [empty].
  - intros [= <- <-]. now left.
  - destruct (MsgBox.convert_options (o :: options)) as [g| |] eqn:Hopt;
      cbn [bind]; try discriminate.
    destruct (utf8ToWide content); cbn [bind]; try discriminate.
    destruct (utf8ToWide title); cbn [bind]; try discriminate.
    intros H. right. split; [discriminate|].
    unfold chosen. rewrite <- (convert_options_ids _ _ Hopt).
    revert H. destruct registered; cbn [negb];
      [|intros [= <- <-]; now left].
    cbv zeta. destruct created.
    + destruct (MsgBox.message_loop (MsgBox.mk g 0 false) messages)
        as [c [f|]] eqn:E; intros [= <- <-].
      apply (msgbox_loop_chosen _ _ _ _ E). now left.
    + intros [= <- <-]. now left.
Qed.

Lemma messageBox_result_range_witness :
  ([(7, lit "Yes"); (8, lit "No")] = [] /\ 8 = -1)
  \/ ([(7, lit "Yes"); (8, lit "No")] <> []
      /\ chosen [(7, lit "Yes"); (8, lit "No")] 8).
Proof.
  eapply (messageBox_result_range true true 1920 1080
            [WM_SIZE 0; WM_COMMAND 2001; WM_CLOSE]
            (lit "Title") (lit "Sure?") [(7, lit "Yes"); (8, lit "No")]).
  vm_compute. reflexivity.
Defined.

(* ================================================================= *)
(** ** The layout of the two dialogs *)

Lemma LOWORD_range (w : Z) : 0 <= LOWORD w < 65536.
Proof.
  unfold LOWORD. change 65535 with (Z.ones 16).
  rewrite Z.land_ones by lia. apply Z.mod_pos_bound. reflexivity.
Qed.

Lemma HIWORD_range (l : Z) : 0 <= HIWORD l < 65536.
Proof.
  unfold HIWORD. change 65535 with (Z.ones 16).
  rewrite Z.land_ones by lia. apply Z.mod_pos_bound. reflexivity.
Qed.

(** X22.  The layout of the prompt dialog.  On [WM_SIZE] the prompt
    text and the input box keep a margin of 20 on both sides and do not
    overlap; the two buttons are 80 by 30, on one line 15 above the
    bottom edge, 20 apart, and centred: the space left of OK and the
    space right of Cancel differ by at most 1.  In a client area at
    least 180 wide the buttons lie inside it, and in one at least 130
    high they lie below the input box. *)
Theorem prompt_layout (lParam : Z) :
  exists label input ok cancel,
    prompt_WM_SIZE lParam = [label; input; ok; cancel]
    /\ (control label = __GCOMMMDLG_IDC_PROMPT
        /\ control input = __GCOMMMDLG_IDC_INPUT
        /\ control ok = __GCOMMMDLG_IDOK
        /\ control cancel = __GCOMMMDLG_IDCANCEL)
    /\ (X label = 20 /\ X label + cx label = LOWORD lParam - 20
        /\ X input = 20 /\ X input + cx input = LOWORD lParam - 20
        /\ Y label + cy label <= Y input)
    /\ (cx ok = 80 /\ cy ok = 30 /\ cx cancel = 80 /\ cy cancel = 30
        /\ Y ok = Y cancel /\ Y ok + cy ok = HIWORD lParam - 15
        /\ X ok + cx ok + 20 = X cancel)
    /\ Z.abs (LOWORD lParam - (X cancel + cx cancel) - X ok) <= 1
    /\ (180 <= LOWORD lParam ->
        0 <= X ok /\ X cancel + cx cancel <= LOWORD lParam)
    /\ (130 <= HIWORD lParam -> Y input + cy input <= Y ok).
Proof.
  unfold prompt_WM_SIZE. cbv zeta. do 4 eexists.
  split; [reflexivity|]. cbn [control X Y cx cy].
  split; [repeat split|]. split; [repeat split; lia|].
  split; [repeat split; lia|].
  split; [|split].
  - Z.to_euclidean_division_equations. lia.
  - intros H. Z.to_euclidean_division_equations. lia.
  - lia.
Qed.

(** A client area 384 wide and 141 high: OK at 102, Cancel at 202. *)
Lemma prompt_layout_witness :
  exists ok cancel,
    In ok (prompt_WM_SIZE (141 * 65536 + 384))
    /\ In cancel (prompt_WM_SIZE (141 * 65536 + 384))
    /\ X ok + cx ok + 20 = X cancel
    /\ 0 <= X ok /\ X cancel + cx cancel <= 384.
Proof.
  destruct (prompt_layout (141 * 65536 + 384))
    as (label & input & ok & cancel & E & _ & _
        & (_ & _ & _ & _ & _ & _ & Hgap) & _ & Hin & _).
  exists ok, cancel. rewrite E.
  split; [right; right; now left|].
  split; [right; right; right; now left|].
  split; [exact Hgap|].
  apply Hin. vm_compute. congruence.
Defined.

Lemma button_placement_cast (clientHeight : Z) (i : nat) :
  0 <= clientHeight < 65536 -> Z.of_nat i < 2 ^ 27 ->
  button_placement clientHeight i
  = mkPlacement (__GCOMMMDLG_BTN_START + Z.of_nat i)
                (20 + (Z.of_nat i mod 3) * 120)
                (clientHeight - 50 - (Z.of_nat i / 3) * 40)
                100 30.
Proof.
  intros Hh Hi. unfold button_placement, __GCOMMDLG_MSGBOX_BTN_WIDTH.
  cbv zeta. change (100 + 20) with 120.
  change (2 ^ 27) with 134217728 in Hi.
  rewrite static_cast_int_small
    by (change (2 ^ 31) with 2147483648; divmod).
  f_equal. unfold static_cast_int.
  change (2 ^ 31) with 2147483648. change (2 ^ 32) with 4294967296.
  divmod.
Qed.

Lemma msgbox_button (lParam : Z) (count i : nat) (p : placement) :
  nth_error (msgbox_WM_SIZE lParam count) (S i) = Some p ->
  (i < count)%nat /\ p = button_placement (HIWORD lParam) i.
Proof.
  unfold msgbox_WM_SIZE. cbv zeta. cbn [nth_error].
  rewrite nth_error_map, nth_error_seq.
  destruct (Nat.ltb_spec i count); cbn [option_map]; [|discriminate].
  intros [= <-]. now split.
Qed.

(** X23.  The buttons of the message box do not overlap.  On
    [WM_SIZE], for fewer than [2 ^ 27] options, the buttons of two
    different options never share a point: they are 100 by 30, three to
    a row, in columns 120 apart that end 20 before the right edge of
    the 380 wide window, the rows 40 apart and stacked upwards from 20
    above the bottom edge. *)
Theorem msgbox_buttons_apart (lParam : Z) (count i j : nat) (p q : placement) :
  Z.of_nat count < 2 ^ 27 ->
  nth_error (msgbox_WM_SIZE lParam count) (S i) = Some p ->
  nth_error (msgbox_WM_SIZE lParam count) (S j) = Some q ->
  i <> j ->
  ~ overlap p q
  /\ control p = __GCOMMMDLG_BTN_START + Z.of_nat i
  /\ cx p = 100 /\ cy p = 30
  /\ 20 <= X p /\ X p + cx p <= 360
  /\ Y p + cy p = HIWORD lParam - 20 - 40 * (Z.of_nat i / 3).
Proof.
  intros Hc Hp Hq Hij.
  apply msgbox_button in Hp. destruct Hp as [Hi ->].
  apply msgbox_button in Hq. destruct Hq as [Hj ->].
  pose proof (HIWORD_range lParam) as Hh.
  rewrite !button_placement_cast by (assumption || lia).
  unfold overlap. cbn [control X Y cx cy].
  assert (Hne : Z.of_nat i <> Z.of_nat j) by lia.
  repeat split; try reflexivity; divmod.
Qed.

(** Five options: the fourth starts the second row, above the first. *)
Lemma msgbox_buttons_apart_witness :
  ~ overlap (mkPlacement 2000 20 50 100 30) (mkPlacement 2003 20 10 100 30).
Proof.
  refine (proj1 (msgbox_buttons_apart (100 * 65536 + 380) 5 0 3
                   (mkPlacement 2000 20 50 100 30)
                   (mkPlacement 2003 20 10 100 30)
                   eq_refl eq_refl eq_refl _)).
  discriminate.
Defined.

(* ================================================================= *)
(** ** The shape of the paths and of the runs *)




Lemma last_after (a b : syscall) (shown : list syscall) (u d : syscall) :
  last ([a; b] ++ shown ++ [u]) d = u.
Proof. rewrite app_assoc. apply last_last. Qed.

(** X25.  The window class is always unregistered.  Whenever
    [promptDialog] returns, and whenever [messageBox] returns after
    registering its class, the first call made is the registration of
    the class and the last one its unregistration, whether the window
    was created or not and however the dialog ended. *)
Theorem class_unregistered
    (created : bool) (SM_CXSCREEN SM_CYSCREEN : Z)
    (title content : list Z) (calls : list syscall) :
  (forall fresh_block events g_did_confirm defaultContent result,
     promptDialog created SM_CXSCREEN SM_CYSCREEN fresh_block events
                  g_did_confirm title content defaultContent
     = Return (calls, Some result) ->
     hd ShowWindow calls = RegisterClassExW PromptDialogClass
     /\ last calls ShowWindow = UnregisterClassW PromptDialogClass)
  /\ (forall messages options result,
        messageBox true created SM_CXSCREEN SM_CYSCREEN messages
                   title content options
        = Return (calls, Some result) ->
        options <> [] ->
        hd ShowWindow calls = RegisterClassExW CustomMessageBoxClass
        /\ last calls ShowWindow = UnregisterClassW CustomMessageBoxClass).
Proof.
  split.
  - intros fresh_block events g_did_confirm defaultContent result.
    unfold promptDialog.
    destruct (utf8ToWide content); cbn [bind]; try discriminate.
    destruct (utf8ToWide defaultContent); cbn [bind]; try discriminate.
    destruct (utf8ToWide title); cbn [bind]; try discriminate.
    cbv zeta.
    match goal with
    | |- (let '(shown, final) := ?run in _) = _ -> _ =>
      destruct run as [shown [st|]]
    end; [|discriminate].
    destruct (negb (Prompt.g_did_confirm st)).
    + intros [= <- <-]. split; [reflexivity|].
      exact (last_after _ _ shown _ _).
    + destruct (wstring_of_array _); cbn [bind]; try discriminate.
      destruct (wideToUtf8 _); cbn [bind]; try discriminate.
      intros [= <- <-]. split; [reflexivity|].
      exact (last_after _ _ shown _ _).
  - intros messages options result. unfold messageBox.
    destruct options as [|o options]; cbn [empty]; [congruence|].
    destruct (MsgBox.convert_options (o :: options)); cbn [bind];
      try discriminate.
    destruct (utf8ToWide content); cbn [bind]; try discriminate.
    destruct (utf8ToWide title); cbn [bind]; try discriminate.
    cbn [negb]. cbv zeta.
    match goal with
    | |- (let '(shown, final) := ?run in _) = _ -> _ =>
      destruct run as [shown [st|]]
    end; [|discriminate].
    intros [= <- <-] _. split; [reflexivity|].
    exact (last_after _ _ shown _ _).
Qed.

Lemma class_unregistered_witness :
  hd ShowWindow
     [RegisterClassExW CustomMessageBoxClass;
      message_box_window (L "Title") 1920 1080 2;
      ShowWindow; UpdateWindow;
      GetMessageW (Dispatch WM_CLOSE);
      UnregisterClassW CustomMessageBoxClass]
  = RegisterClassExW CustomMessageBoxClass
  /\ last [RegisterClassExW CustomMessageBoxClass;
           message_box_window (L "Title") 1920 1080 2;
           ShowWindow; UpdateWindow;
           GetMessageW (Dispatch WM_CLOSE);
           UnregisterClassW CustomMessageBoxClass]
          ShowWindow
     = UnregisterClassW CustomMessageBoxClass.
Proof.
  refine (proj2 (class_unregistered true 1920 1080 (lit "Title") (lit "Sure?")
                   _)
                [WM_CLOSE; WM_SIZE 0] [(7, lit "Yes"); (8, lit "No")] 0 _ _).
  - vm_compute. reflexivity.
  - discriminate.
Defined.

(* ================================================================= *)
(** ** Arguments the pickers accept *)

(** A sequence [utf8_scalar] recognises lies within the string and
    needs no more UTF-16 units than it has bytes. *)
Lemma utf8_scalar_units (s : list Z) (c : Z) (n : nat) :
  Win32.utf8_scalar s = Some (c, n) ->
  (length (Win32.utf16_units c) <= n <= length s)%nat.
Proof.
  pose proof (utf16_units_length c) as Hu.
  unfold Win32.utf8_scalar.
  destruct s as [|b0 r0]; [discriminate|].
  destruct ((0 <=? b0) && (b0 <? 0x80)) eqn:E1.
  { intros [= <- <-]. rewrite andb_true_iff, Z.leb_le, Z.ltb_lt in E1.
    unfold Win32.utf16_units.
    destruct (Z.ltb_spec b0 0x10000); [simpl; lia|lia]. }
  destruct r0 as [|b1 r1]; [discriminate|].
  match goal with |- context [if ?b then _ else _] => destruct b end.
  { intros [= <- <-]. simpl length in *. lia. }
  destruct r1 as [|b2 r2]; [discriminate|]. cbv zeta.
  match goal with |- context [if ?b then _ else _] => destruct b end.
  { intros [= <- <-]. simpl length in *. lia. }
  destruct r2 as [|b3 r3]; [discriminate|].
  match goal with |- context [if ?b then _ else _] => destruct b end;
    [|discriminate].
  intros [= <- <-]. simpl length in *. lia.
Qed.

(** The conversion to UTF-16 never yields more units than there are
    bytes, whatever the bytes are. *)
Lemma to_wide_size_le (s : list Z) : size (to_wide s) <= size s.
Proof.
  remember (length s) as k eqn:Hk. revert s Hk.
  induction k as [k IH] using (well_founded_induction Wf_nat.lt_wf).
  intros s ->. destruct s as [|b s]; [reflexivity|].
  unfold to_wide.
  destruct (Win32.utf8_scalar (b :: s)) as [[c n]|] eqn:E.
  - destruct (utf8_scalar_Some _ _ _ E) as [[m ->] _].
    pose proof (utf8_scalar_units _ _ _ E) as [Hu Hn].
    rewrite (utf8_decode_head _ _ _ E).
    unfold Win32.utf16_encode. cbn [flat_map].
    fold (Win32.utf16_encode (Win32.utf8_decode 0 (skipn (S m) (b :: s)))).
    fold (to_wide (skipn (S m) (b :: s))).
    assert (Hl : (length (skipn (S m) (b :: s)) < length (b :: s))%nat)
      by (rewrite length_skipn; simpl; lia).
    pose proof (IH _ Hl _ eq_refl) as Hrest.
    rewrite size_app. unfold size in *.
    rewrite length_skipn in Hrest. lia.
  - change (Win32.utf8_decode 0 (b :: s))
      with (match Win32.utf8_scalar (b :: s) with
            | Some (c, n) => c :: Win32.utf8_decode (Nat.pred n) s
            | None => Win32.REPLACEMENT :: Win32.utf8_decode 0 s
            end).
    rewrite E. unfold Win32.utf16_encode. cbn [flat_map].
    fold (Win32.utf16_encode (Win32.utf8_decode 0 s)). fold (to_wide s).
    change (Win32.utf16_units Win32.REPLACEMENT) with [Win32.REPLACEMENT].
    pose proof (IH (length s) ltac:(simpl; lia) s eq_refl) as Hrest.
    cbn [app]. rewrite !size_cons. lia.
Qed.

Lemma multiple_request_Return (filters : list (list Z))
    (title initialDir defaultFileName defaultExt : list Z) (parentHWND : Z) :
  Forall (fun e => In PIPE e /\ size e < 2 ^ 31) filters ->
  size title < 2 ^ 31 -> size initialDir < 2 ^ 31 ->
  size defaultExt < 2 ^ 31 -> size defaultFileName < 2 ^ 31 ->
  size (to_wide defaultFileName) < 32768 ->
  exists ofn,
    multiple_request filters title initialDir defaultFileName defaultExt
                     parentHWND = Return ofn.
Proof.
  intros Hf Ht Hi He Hd Hw. unfold multiple_request, buildFilter.
  rewrite buildFilter_for_Return.
  2:{ eapply Forall_impl; [|exact Hf]. now intros e [_ Hs]. }
  2:{ rewrite Forall_forall in Hf. intros e Hin. now destruct (Hf e Hin). }
  cbn [bind]. rewrite (utf8ToWide_Return title Ht). cbn [bind].
  rewrite (utf8ToWide_Return defaultFileName Hd).
  destruct (optional_wide_Return initialDir Hi) as [dir ->].
  destruct (optional_wide_Return defaultExt He) as [ext ->].
  destruct (negb (empty defaultFileName)); cbn [bind].
  - destruct (Z.leb_spec 65536 (size (to_wide defaultFileName) * 2)); [lia|].
    cbn [bind]. eauto.
  - eauto.
Qed.

(** X26.  Arguments the pickers accept.  With a filter list whose
    entries all hold ['|'], and strings that fit an [int], a default
    file name of fewer than 4096 bytes is never too long, whatever its
    bytes are: the three pickers build their request and reach the
    native call, so that what they return or throw is decided by the
    dialog. *)
Theorem request_is_built
    (filters : list (list Z))
    (title initialDir defaultFileName defaultExt : list Z) (parentHWND : Z) :
  Forall (fun e => In PIPE e /\ size e < 2 ^ 31) filters ->
  size title < 2 ^ 31 -> size initialDir < 2 ^ 31 ->
  size defaultExt < 2 ^ 31 -> size defaultFileName < 4096 ->
  (exists ofn,
     open_request filters title initialDir defaultFileName defaultExt
                  parentHWND = Return ofn)
  /\ (exists ofn,
        save_request filters title initialDir defaultFileName defaultExt
                     parentHWND = Return ofn)
  /\ (exists ofn,
        multiple_request filters title initialDir defaultFileName defaultExt
                         parentHWND = Return ofn).
Proof.
  intros Hf Ht Hi He Hd.
  pose proof (to_wide_size_le defaultFileName) as Hw.
  split; [|split].
  - apply single_request_Return; try assumption; lia.
  - apply single_request_Return; try assumption; lia.
  - apply multiple_request_Return; try assumption; lia.
Qed.

(** A default name that is not UTF-8. *)
Lemma request_is_built_witness :
  exists ofn,
    open_request [lit "All|*.*"] [] [] [0xFF; 0xC3; 0x41] [] 0 = Return ofn.
Proof.
  refine (proj1 (request_is_built [lit "All|*.*"] [] [] [0xFF; 0xC3; 0x41] []
                   0 _ eq_refl eq_refl eq_refl eq_refl)).
  repeat constructor; vm_compute; intuition congruence.
Defined.
